(** * node-ofono: the mirrors of oFono's D-Bus objects

    A shallow embedding of the TypeScript sources [lib/modem.ts],
    [lib/voiceCall.ts], [lib/networkRegistration.ts], [lib/handsfree.ts],
    [lib/voiceCallManager.ts] and [lib/ofono.ts]; of the last two, the
    versions in which the manager is built by [ofModem] and [Ofono]
    listens for ModemAdded and ModemRemoved.

    TypeScript's annotations are erased before the program runs, so the
    embedding works on JavaScript values: a private field of a mirror
    holds whatever the bus delivered.  Asynchronous functions are terms
    of a state-and-exception monad over a [World] that records the
    requests sent to the bus, the connections opened and the signal
    listeners registered. *)

From Stdlib Require Import String Ascii List ZArith Bool Lia DecimalString.
Import ListNotations.
Local Open Scope string_scope.
Set Warnings "-register-all".

(* ================================================================= *)
(** ** JavaScript values and the operators the sources use           *)
(* ================================================================= *)

Module JS.

(** The values the bus delivers for the signatures of the interfaces
    mirrored here (b, y, q, u, s, o, as, a{sv} and arrays of those),
    and what the sources make of them.  [JNum n] is the Number nearest
    to the integer [n], which is [n] itself up to 2^53; fractions are
    left out.  A [JObj] is an object without a class of its own: a
    property dictionary, a Variant, a record built by a constructor.
    [JInherited k] is the member a TypeScript enum object inherits from
    [Object.prototype] under the key [k]; the bus delivers no function.
    Byte arrays (signature ay, a Buffer) and 64 bit integers (x and t,
    a BigInt) are left out: no property of these interfaces and no
    reply read here has such a signature. *)
Inductive JsValue : Type :=
| JUndefined
| JNull
| JBool (b : bool)
| JNum (n : Z)
| JStr (s : string)
| JArr (elems : list JsValue)
| JObj (fields : list (string * JsValue))
| JInherited (key : string).

Inductive Exn : Type :=
| TypeError (msg : string)
| RangeError (msg : string)
| Error (msg : string)
| DBusError (msg : string).

Inductive Completion (A : Type) : Type :=
| Normal (a : A)
| Throw (e : Exn).
Arguments Normal {A} a.
Arguments Throw {A} e.

Definition cbind {A B} (c : Completion A) (k : A -> Completion B) : Completion B :=
  match c with
  | Normal a => k a
  | Throw e => Throw e
  end.

Definition nullish (v : JsValue) : bool :=
  match v with
  | JUndefined | JNull => true
  | _ => false
  end.

(** [v ? _ : _] *)
Definition truthy (v : JsValue) : bool :=
  match v with
  | JUndefined | JNull | JBool false | JNum 0 | JStr EmptyString => false
  | _ => true
  end.

(** [a ?? b] *)
Definition coalesce (a b : JsValue) : JsValue := if nullish a then b else a.

Fixpoint assoc (k : string) (fs : list (string * JsValue)) : option JsValue :=
  match fs with
  | [] => None
  | (k', v) :: fs' => if String.eqb k k' then Some v else assoc k fs'
  end.

Definition string_of_Z (n : Z) : string := NilZero.string_of_int (Z.to_int n).

(** [o.k] for the keys this code reads ([value] and D-Bus property
    names), none of which a built-in prototype defines. *)
Definition js_get (o : JsValue) (k : string) : Completion JsValue :=
  match o with
  | JUndefined =>
      Throw (TypeError ("Cannot read properties of undefined (reading '" ++ k ++ "')"))
  | JNull =>
      Throw (TypeError ("Cannot read properties of null (reading '" ++ k ++ "')"))
  | JObj fs => Normal (match assoc k fs with Some v => v | None => JUndefined end)
  | _ => Normal JUndefined
  end.

(** [o?.k] *)
Definition js_get_opt (o : JsValue) (k : string) : Completion JsValue :=
  if nullish o then Normal JUndefined else js_get o k.

(** [o[i]] for a literal index [i]. *)
Definition js_index (o : JsValue) (i : nat) : Completion JsValue :=
  match o with
  | JArr l => Normal (nth i l JUndefined)
  | JStr s => Normal (match String.get i s with
                      | Some c => JStr (String c EmptyString)
                      | None => JUndefined
                      end)
  | _ => js_get o (string_of_Z (Z.of_nat i))
  end.

Definition join (sep : string) (l : list string) : string :=
  match l with
  | [] => ""
  | s :: l' => fold_left (fun acc x => acc ++ sep ++ x) l' s
  end.

(** The members of [Object.prototype]. *)
Definition object_prototype_keys : list string :=
  [ "constructor"; "__defineGetter__"; "__defineSetter__"; "hasOwnProperty";
    "__lookupGetter__"; "__lookupSetter__"; "isPrototypeOf";
    "propertyIsEnumerable"; "toString"; "valueOf"; "__proto__";
    "toLocaleString" ].

Definition mem (k : string) (l : list string) : bool := existsb (String.eqb k) l.

(** *** [Number::toString] on whole numbers *)

(** The Number nearest to a natural number: 53 significant bits, ties
    to the even significand. *)
Definition round53 (y : Z) : Z :=
  let bits := (Z.log2 y + 1)%Z in
  if (bits <=? 53)%Z then y
  else
    let sh := (bits - 53)%Z in
    let q := Z.shiftr y sh in
    let r := (y - Z.shiftl q sh)%Z in
    let half := Z.shiftl 1 (sh - 1) in
    let q' := if (half <? r)%Z || ((r =? half)%Z && Z.odd q) then (q + 1)%Z else q in
    Z.shiftl q' sh.

Definition decimal_length (x : Z) : Z := Z.of_nat (String.length (string_of_Z x)).

(** The [s] of [k] digits with [s * 10^(n-k)] of Number value [x], the
    one nearest to [x] if there are two, the even one if they are as
    near. *)
Definition shortest_at (x n k : Z) : option Z :=
  let p := (10 ^ (n - k))%Z in
  let lo := (x / p)%Z in
  let hi := (lo + 1)%Z in
  let fits s :=
    ((10 ^ (k - 1) <=? s) && (s <? 10 ^ k) && (round53 (s * p) =? x))%Z in
  match fits lo, fits hi with
  | true, true =>
      Some (if (x - lo * p <? hi * p - x)%Z then lo
            else if (hi * p - x <? x - lo * p)%Z then hi
            else if Z.even lo then lo else hi)
  | true, false => Some lo
  | false, true => Some hi
  | false, false => None
  end.

(** The least number of digits that gives [x] back, from [k] on. *)
Fixpoint shortest_from (x n k : Z) (fuel : nat) : Z * Z :=
  match fuel with
  | O => (x, n)
  | S fuel' =>
      match shortest_at x n k with
      | Some s => (s, k)
      | None => shortest_from x n (k + 1)%Z fuel'
      end
  end.

Definition zeros (n : Z) : string :=
  string_of_list_ascii (repeat "0"%char (Z.to_nat n)).

(** Up to 2^53 every whole number is a Number and prints its digits;
    above, the fewest digits that give the Number back are printed,
    followed by zeros up to 21 digits and in exponent form beyond. *)
Definition unsigned_to_string (y : Z) : string :=
  let x := round53 y in
  if (x <? 2 ^ 53)%Z then string_of_Z x
  else if (2 ^ 1024 <=? x)%Z then "Infinity"
  else
    let d := decimal_length x in
    let '(s, k, n) :=
      if (round53 (10 ^ d) =? x)%Z then (1%Z, 1%Z, (d + 1)%Z)
      else let '(s, k) := shortest_from x d 1 17 in (s, k, d) in
    let ds := string_of_Z s in
    if (n <=? 21)%Z then ds ++ zeros (n - k)
    else
      match ds with
      | String c EmptyString => ds ++ "e+" ++ string_of_Z (n - 1)
      | String c rest => String c ("." ++ rest) ++ "e+" ++ string_of_Z (n - 1)
      | EmptyString => ds
      end.

Definition number_to_string (n : Z) : string :=
  if (n <? 0)%Z then "-" ++ unsigned_to_string (- n) else unsigned_to_string n.

(** *** [ToPrimitive] and [ToString] *)

Definition is_object (v : JsValue) : bool :=
  match v with
  | JArr _ | JObj _ | JInherited _ => true
  | _ => false
  end.

(** The functions among the values: the members of [Object.prototype]
    other than [__proto__], which is an object. *)
Definition is_callable (v : JsValue) : bool :=
  match v with
  | JInherited k => mem k object_prototype_keys && negb (String.eqb k "__proto__")
  | _ => false
  end.

Definition own (k : string) (fs : list (string * JsValue)) : bool :=
  match assoc k fs with
  | Some _ => true
  | None => false
  end.

(** A member of [Object.prototype] other than [toLocaleString], called
    without arguments on an object with the fields [fs]. *)
Definition call_member (k : string) (fs : list (string * JsValue))
  : Completion JsValue :=
  if String.eqb k "toString" then Normal (JStr "[object Object]")
  else if String.eqb k "valueOf" then Normal (JObj fs)
  else if String.eqb k "constructor" then Normal (JObj [])
  else if String.eqb k "hasOwnProperty" then Normal (JBool (own "undefined" fs))
  else if String.eqb k "propertyIsEnumerable" then Normal (JBool (own "undefined" fs))
  else if String.eqb k "isPrototypeOf" then Normal (JBool false)
  else if String.eqb k "__lookupGetter__" then Normal JUndefined
  else if String.eqb k "__lookupSetter__" then Normal JUndefined
  else if String.eqb k "__defineGetter__"
  then Throw (TypeError "Object.prototype.__defineGetter__: Expecting function")
  else Throw (TypeError "Object.prototype.__defineSetter__: Expecting function").

(** [o.toString()], as [toLocaleString] calls it: on an object whose
    own [toString] is [toLocaleString] the two call each other until
    the stack is exhausted. *)
Definition invoke_toString (fs : list (string * JsValue)) : Completion JsValue :=
  match assoc "toString" fs with
  | None => call_member "toString" fs
  | Some (JInherited k) =>
      if is_callable (JInherited k)
      then if String.eqb k "toLocaleString"
           then Throw (RangeError "Maximum call stack size exceeded")
           else call_member k fs
      else Throw (TypeError "this.toString is not a function")
  | Some _ => Throw (TypeError "this.toString is not a function")
  end.

(** The method an object has under [name], its own field or the
    inherited one, called if it is a function. *)
Definition call_method (name : string) (fs : list (string * JsValue))
  : option (Completion JsValue) :=
  match assoc name fs with
  | None => Some (call_member name fs)
  | Some (JInherited k) =>
      if is_callable (JInherited k)
      then Some (if String.eqb k "toLocaleString" then invoke_toString fs
                 else call_member k fs)
      else None
  | Some _ => None
  end.

(** [OrdinaryToPrimitive] with hint string: [toString], then
    [valueOf]; a method that is no function or returns an object is
    passed over. *)
Definition object_to_primitive (fs : list (string * JsValue)) : Completion JsValue :=
  let from_valueOf :=
    match call_method "valueOf" fs with
    | Some c =>
        cbind c (fun r =>
          if is_object r
          then Throw (TypeError "Cannot convert object to primitive value")
          else Normal r)
    | None => Throw (TypeError "Cannot convert object to primitive value")
    end in
  match call_method "toString" fs with
  | Some c => cbind c (fun r => if is_object r then from_valueOf else Normal r)
  | None => from_valueOf
  end.

(** [ToString], as template literals and property keys apply it.  It
    throws on an object that has no primitive form, such as a
    dictionary with an entry named toString. *)
Fixpoint js_to_string (v : JsValue) : Completion string :=
  match v with
  | JUndefined => Normal "undefined"
  | JNull => Normal "null"
  | JBool true => Normal "true"
  | JBool false => Normal "false"
  | JNum n => Normal (number_to_string n)
  | JStr s => Normal s
  | JArr l =>
      cbind ((fix elements (l : list JsValue) : Completion (list string) :=
                match l with
                | [] => Normal []
                | e :: l' =>
                    cbind (if nullish e then Normal "" else js_to_string e) (fun s =>
                    cbind (elements l') (fun ss => Normal (s :: ss)))
                end) l)
            (fun ss => Normal (join "," ss))
  | JObj fs =>
      cbind (object_to_primitive fs) (fun p =>
        match p with
        | JUndefined => Normal "undefined"
        | JNull => Normal "null"
        | JBool true => Normal "true"
        | JBool false => Normal "false"
        | JNum n => Normal (number_to_string n)
        | JStr s => Normal s
        | _ => Throw (TypeError "Cannot convert object to primitive value")
        end)
  | JInherited k =>
      Normal (if String.eqb k "__proto__" then "[object Object]"
              else if String.eqb k "constructor"
                   then "function Object() { [native code] }"
                   else "function " ++ k ++ "() { [native code] }")
  end.

(** [x === s] for a string [s] *)
Definition is_str (s : string) (x : JsValue) : bool :=
  match x with
  | JStr s' => String.eqb s s'
  | _ => false
  end.

(** [Array.prototype.indexOf] with a string argument *)
Fixpoint index_from (s : string) (l : list JsValue) (i : Z) : Z :=
  match l with
  | [] => (-1)%Z
  | x :: l' => if is_str s x then i else index_from s l' (i + 1)%Z
  end.

(** [o.indexOf(s)]: among the values above, arrays and strings have
    the method. *)
Definition js_indexOf (o : JsValue) (s : string) : Completion Z :=
  match o with
  | JArr l => Normal (index_from s l 0%Z)
  | JStr t => Normal (match String.index 0 s t with
                      | Some n => Z.of_nat n
                      | None => (-1)%Z
                      end)
  | JUndefined =>
      Throw (TypeError "Cannot read properties of undefined (reading 'indexOf')")
  | JNull =>
      Throw (TypeError "Cannot read properties of null (reading 'indexOf')")
  | _ => Throw (TypeError "indexOf is not a function")
  end.

(** [o.includes(s)] *)
Definition js_includes (o : JsValue) (s : string) : Completion bool :=
  match o with
  | JArr l => Normal (existsb (is_str s) l)
  | JStr t => Normal (match String.index 0 s t with Some _ => true | None => false end)
  | JUndefined =>
      Throw (TypeError "Cannot read properties of undefined (reading 'includes')")
  | JNull =>
      Throw (TypeError "Cannot read properties of null (reading 'includes')")
  | _ => Throw (TypeError "includes is not a function")
  end.

(** [o.map(f)] needs an array. *)
Definition js_elements (o : JsValue) : Completion (list JsValue) :=
  match o with
  | JArr l => Normal l
  | JUndefined =>
      Throw (TypeError "Cannot read properties of undefined (reading 'map')")
  | JNull =>
      Throw (TypeError "Cannot read properties of null (reading 'map')")
  | _ => Throw (TypeError "map is not a function")
  end.

(** [E[k]] for a TypeScript string enum [E], compiled to an object
    literal from member names to member values.  The key is [k]
    converted by [ToString]; where that throws, the lookup throws. *)
Definition enum_lookup (members : list (string * string)) (k : JsValue)
  : Completion JsValue :=
  cbind (js_to_string k) (fun key =>
    Normal (match find (fun m => String.eqb key (fst m)) members with
            | Some m => JStr (snd m)
            | None => if mem key object_prototype_keys then JInherited key
                      else JUndefined
            end)).

(** [new Variant(signature, value)] *)
Definition Variant (signature : string) (value : JsValue) : JsValue :=
  JObj [("signature", JStr signature); ("value", value)].

(** What an emitter does while a signal handler runs. *)
Inductive Output (E : Type) : Type :=
| Warn (msg : string)
| Emit (e : E).
Arguments Warn {E} msg.
Arguments Emit {E} e.

End JS.
Export JS.

Declare Scope completion_scope.
Delimit Scope completion_scope with completion.
Notation "x <~ c ;; k" := (cbind c (fun x => k))
  (at level 61, c at next level, right associativity) : completion_scope.

(* ================================================================= *)
(** ** The bus: dbus-next's MessageBus, ProxyObject, ClientInterface *)
(* ================================================================= *)

(** dbus-next is a dependency, not part of the repository.  What the
    sources rely on: [systemBus()] opens a connection;
    [getProxyObject] introspects the remote object and rejects when
    the bus reports an error; [getInterface] throws when the object
    lacks the interface; a method of a ClientInterface sends one
    method call and rejects with the error of the reply; [on] stores a
    listener and cannot fail. *)
Module Bus.

(** A connection is known by the order in which it was opened. *)
Definition MessageBus := nat.

Inductive Request : Type :=
| Introspect (bus : MessageBus) (service : string) (path : JsValue)
| MethodCall (bus : MessageBus) (path : JsValue) (iface member : string)
             (args : list JsValue).

Inductive Reply : Type :=
| Fault (e : Exn)
| Answer (v : JsValue).

Record Listener : Type := mkListener {
  l_bus : MessageBus;
  l_path : JsValue;
  l_iface : string;
  l_signal : string
}.

(** [service n r] is the remote side's reply to request [r] when [n]
    requests were sent before it. *)
Record World : Type := mkWorld {
  service : nat -> Request -> Reply;
  trace : list Request;
  connections : nat;
  listeners : list Listener;
  unhandled : list Exn
}.

Definition M (A : Type) : Type := World -> Completion A * World.

Definition ret {A} (a : A) : M A := fun w => (Normal a, w).

Definition throw {A} (e : Exn) : M A := fun w => (Throw e, w).

Definition bind {A B} (c : M A) (k : A -> M B) : M B :=
  fun w =>
    match c w with
    | (Normal a, w') => k a w'
    | (Throw e, w') => (Throw e, w')
    end.

Definition lift {A} (c : Completion A) : M A := fun w => (c, w).

(** The world after a request went out. *)
Definition sent (r : Request) (w : World) : World :=
  mkWorld (service w) (trace w ++ [r]) (connections w) (listeners w) (unhandled w).

(** The world after a rejection nobody handles. *)
Definition rejected (e : Exn) (w : World) : World :=
  mkWorld (service w) (trace w) (connections w) (listeners w) (unhandled w ++ [e]).

(** The world after a connection was opened. *)
Definition opened (w : World) : World :=
  mkWorld (service w) (trace w) (S (connections w)) (listeners w) (unhandled w).

(** The world after a listener was registered. *)
Definition listening (l : Listener) (w : World) : World :=
  mkWorld (service w) (trace w) (connections w) (listeners w ++ [l]) (unhandled w).

(** A promise nobody awaits: the caller goes on whatever becomes of
    it, and its rejection is left unhandled.  The promise's body is run
    where it is started. *)
Definition spawn {A} (promise : M A) : M unit :=
  fun w =>
    match promise w with
    | (Normal _, w') => (Normal tt, w')
    | (Throw e, w') => (Normal tt, rejected e w')
    end.

Definition rpc (r : Request) : M JsValue :=
  fun w =>
    match service w (length (trace w)) r with
    | Fault e => (Throw e, sent r w)
    | Answer v => (Normal v, sent r w)
    end.

(** [systemBus()] opens a connection. *)
Definition systemBus : M MessageBus :=
  fun w => (Normal (connections w), opened w).

(** A parameter [bus: MessageBus = systemBus()] *)
Definition default_bus (bus : option MessageBus) : M MessageBus :=
  match bus with
  | Some b => ret b
  | None => systemBus
  end.

Record ProxyObject : Type := mkProxy {
  po_bus : MessageBus;
  po_path : JsValue;
  po_interfaces : JsValue
}.

Record ClientInterface : Type := mkInterface {
  ci_bus : MessageBus;
  ci_path : JsValue;
  ci_name : string
}.

(** [bus.getProxyObject(service, path)] introspects the object; the
    reply lists its interfaces. *)
Definition getProxyObject (bus : MessageBus) (svc : string) (path : JsValue)
  : M ProxyObject :=
  bind (rpc (Introspect bus svc path))
       (fun ifaces => ret (mkProxy bus path ifaces)).

Definition has_interface (ifaces : JsValue) (name : string) : bool :=
  match ifaces with
  | JArr l => existsb (is_str name) l
  | _ => false
  end.

(** [proxy.getInterface(name)] *)
Definition getInterface (p : ProxyObject) (name : string) : M ClientInterface :=
  if has_interface (po_interfaces p) name
  then ret (mkInterface (po_bus p) (po_path p) name)
  else throw (Error ("interface not found in proxy object: " ++ name)).

(** [iface.Member(...args)] *)
Definition call (i : ClientInterface) (member : string) (args : list JsValue)
  : M JsValue :=
  rpc (MethodCall (ci_bus i) (ci_path i) (ci_name i) member args).

(** [iface.on(signal, handler)] *)
Definition on (i : ClientInterface) (signal : string) : M unit :=
  fun w =>
    (Normal tt, listening (mkListener (ci_bus i) (ci_path i) (ci_name i) signal) w).

(** [arr.map(f)], which stops at the first [f] that throws; and
    [Promise.all(arr.map(f))] with the promises run one after the
    other.  The sources start every promise before any of them goes
    on, so the requests of [privateChat] and [createMultiparty] reach
    the bus interleaved and the others go on after one has failed:
    about these two, only what does not depend on the order of the
    requests is stated below. *)
Fixpoint mapM {A B} (f : A -> M B) (l : list A) : M (list B) :=
  match l with
  | [] => ret []
  | a :: l' => bind (f a) (fun b => bind (mapM f l') (fun bs => ret (b :: bs)))
  end.

End Bus.
Export Bus.

Declare Scope async_scope.
Delimit Scope async_scope with async.
Notation "x <- c ;; k" := (bind c (fun x => k))
  (at level 61, c at next level, right associativity) : async_scope.
Notation "c ;; k" := (bind c (fun _ => k))
  (at level 61, right associativity) : async_scope.

Local Open Scope async_scope.

(** Readers of a D-Bus property dictionary (name to Variant). *)
Module Props.
Local Open Scope completion_scope.

(** [data[1].K.value] *)
Definition entry_value (data : JsValue) (k : string) : Completion JsValue :=
  o <~ js_index data 1 ;; p <~ js_get o k ;; js_get p "value".

(** [data[1].K?.value] *)
Definition entry_value_opt (data : JsValue) (k : string) : Completion JsValue :=
  o <~ js_index data 1 ;; p <~ js_get o k ;; js_get_opt p "value".

(** [props.K.value] *)
Definition member_value (props : JsValue) (k : string) : Completion JsValue :=
  p <~ js_get props k ;; js_get p "value".

(** [props.K?.value] *)
Definition member_value_opt (props : JsValue) (k : string) : Completion JsValue :=
  p <~ js_get props k ;; js_get_opt p "value".

(** The [case] that a [switch] over the names of properties selects:
    the first one whose label is the name. *)
Definition select {P : Type} (name_of : P -> string) (all : list P) (name : string)
  : option P :=
  find (fun p => String.eqb name (name_of p)) all.

(** A signal as the bus hands it to a listener: its name argument and
    its second argument. *)
Definition Signal : Type := (string * JsValue)%type.

(** Signals handled one after the other, in the order of the list. *)
Fixpoint deliver {T E : Type}
    (handler : T -> string -> JsValue -> Completion (T * list (Output E)))
    (this : T) (signals : list Signal) : Completion (T * list (Output E)) :=
  match signals with
  | [] => Normal (this, [])
  | (name, arg) :: rest =>
      r <~ handler this name arg ;;
      r' <~ deliver handler (fst r) rest ;;
      Normal (fst r', (snd r ++ snd r')%list)
  end.

End Props.
Export Props.

(* ================================================================= *)
(** ** lib/modem.ts                                                   *)
(* ================================================================= *)

Module Modem.

(** [interface ModemEvents { change: [] }] *)
Inductive Event : Type := change.

Record t : Type := mk {
  _path : JsValue;
  _online : JsValue;
  _powered : JsValue;
  _lockdown : JsValue;
  _emergency : JsValue;
  _name : JsValue;
  _serial : JsValue;
  _manufacturer : JsValue;
  _model : JsValue;
  _revision : JsValue;
  _interfaces : JsValue;
  _type : JsValue;
  _bus : MessageBus
}.

(** The getters. *)
Definition path := _path.
Definition online := _online.
Definition powered := _powered.
Definition lockdown := _lockdown.
Definition emergency := _emergency.
Definition name := _name.
Definition manufacturer := _manufacturer.
Definition model := _model.
Definition revision := _revision.
Definition serial := _serial.
Definition interfaces := _interfaces.
Definition type := _type.
Definition bus := _bus.

(** The properties of org.ofono.Modem the class models, in the order
    of the [switch] of [listenForChanges]. *)
Inductive Property : Type :=
| Online | Powered | Lockdown | Emergency | Name | Manufacturer | Model
| Revision | Serial | Interfaces | Type'.

Definition eq_dec (p q : Property) : {p = q} + {p <> q}.
Proof. decide equality. Defined.

Definition all : list Property :=
  [Online; Powered; Lockdown; Emergency; Name; Manufacturer; Model;
   Revision; Serial; Interfaces; Type'].

Definition name_of (p : Property) : string :=
  match p with
  | Online => "Online"
  | Powered => "Powered"
  | Lockdown => "Lockdown"
  | Emergency => "Emergency"
  | Name => "Name"
  | Manufacturer => "Manufacturer"
  | Model => "Model"
  | Revision => "Revision"
  | Serial => "Serial"
  | Interfaces => "Interfaces"
  | Type' => "Type"
  end.

(** The getter of a property. *)
Definition get (p : Property) (this : t) : JsValue :=
  match p with
  | Online => online this
  | Powered => powered this
  | Lockdown => lockdown this
  | Emergency => emergency this
  | Name => name this
  | Manufacturer => manufacturer this
  | Model => model this
  | Revision => revision this
  | Serial => serial this
  | Interfaces => interfaces this
  | Type' => type this
  end.

(** The assignment to the private field of a property. *)
Definition set (p : Property) (v : JsValue) (this : t) : t :=
  let upd q old := if eq_dec p q then v else old in
  {| _path := _path this;
     _online := upd Online (_online this);
     _powered := upd Powered (_powered this);
     _lockdown := upd Lockdown (_lockdown this);
     _emergency := upd Emergency (_emergency this);
     _name := upd Name (_name this);
     _serial := upd Serial (_serial this);
     _manufacturer := upd Manufacturer (_manufacturer this);
     _model := upd Model (_model this);
     _revision := upd Revision (_revision this);
     _interfaces := upd Interfaces (_interfaces this);
     _type := upd Type' (_type this);
     _bus := _bus this |}.

(** The [case] a name selects, if any. *)
Definition case_of (name : string) : option Property := select name_of all name.

(** The listener [listenForChanges] registers for PropertyChanged;
    its second parameter is the pattern [{ value }]. *)
Definition on_PropertyChanged (this : t) (name : string) (arg : JsValue)
  : Completion (t * list (Output Event)) :=
  (value <~ js_get arg "value" ;;
   match case_of name with
   | Some p => Normal (set p value this, [Emit change])
   | None =>
       Normal (this,
               [Warn ("node-ofono: Modem: Unhandled property change: " ++ name)])
   end)%completion.

Definition listenForChanges (this : t) : M unit :=
  proxy <- getProxyObject (bus this) "org.ofono" (path this) ;;
  iface <- getInterface proxy "org.ofono.Modem" ;;
  on iface "PropertyChanged".

Definition setProperty (this : t) (prop signature : string) (val : JsValue)
  : M unit :=
  proxy <- getProxyObject (bus this) "org.ofono" (path this) ;;
  iface <- getInterface proxy "org.ofono.Modem" ;;
  _ <- call iface "SetProperty" [JStr prop; Variant signature val] ;;
  ret tt.

(** The setters: the field first, then the write, not awaited. *)
Definition set_online (v : JsValue) (this : t) : M t :=
  let this' := set Online v this in
  spawn (setProperty this' "Online" "b" v) ;; ret this'.

Definition set_powered (v : JsValue) (this : t) : M t :=
  let this' := set Powered v this in
  spawn (setProperty this' "Powered" "b" v) ;; ret this'.

Definition set_lockdown (v : JsValue) (this : t) : M t :=
  let this' := set Lockdown v this in
  spawn (setProperty this' "Lockdown" "b" v) ;; ret this'.

(** The constructor's [data] parameter. *)
Record Data : Type := mkData {
  d_online : JsValue;
  d_powered : JsValue;
  d_lockdown : JsValue;
  d_emergency : JsValue;
  d_name : JsValue;
  d_manufacturer : JsValue;
  d_model : JsValue;
  d_revision : JsValue;
  d_serial : JsValue;
  d_interfaces : JsValue;
  d_type : JsValue
}.

Definition new (path : JsValue) (data : Data) (bus : option MessageBus) : M t :=
  bus <- default_bus bus ;;
  let this :=
    {| _path := path;
       _online := d_online data;
       _powered := d_powered data;
       _lockdown := d_lockdown data;
       _emergency := coalesce (d_emergency data) JNull;
       _name := coalesce (d_name data) JNull;
       _manufacturer := coalesce (d_manufacturer data) JNull;
       _model := coalesce (d_model data) JNull;
       _revision := coalesce (d_revision data) JNull;
       _serial := coalesce (d_serial data) JNull;
       _interfaces := d_interfaces data;
       _type := d_type data;
       _bus := bus |} in
  spawn (listenForChanges this) ;;
  ret this.

(** The arguments of [new Modem(...)] in [fromDBusObject], evaluated
    from left to right. *)
Definition arguments (data : JsValue) : Completion (JsValue * Data) :=
  (path <~ js_index data 0 ;;
   online <~ entry_value data "Online" ;;
   powered <~ entry_value data "Powered" ;;
   lockdown <~ entry_value data "Lockdown" ;;
   emergency <~ entry_value_opt data "Emergency" ;;
   name <~ entry_value_opt data "Name" ;;
   manufacturer <~ entry_value_opt data "Manufacturer" ;;
   model <~ entry_value_opt data "Model" ;;
   revision <~ entry_value_opt data "Revision" ;;
   serial <~ entry_value_opt data "Serial" ;;
   interfaces <~ entry_value data "Interfaces" ;;
   type <~ entry_value data "Type" ;;
   Normal (path,
           mkData online powered lockdown emergency name manufacturer model
                  revision serial interfaces type))%completion.

Definition fromDBusObject (data : JsValue) (bus : option MessageBus) : M t :=
  bus <- default_bus bus ;;
  a <- lift (arguments data) ;;
  new (fst a) (snd a) (Some bus).

End Modem.

(* ================================================================= *)
(** ** lib/voiceCall.ts                                               *)
(* ================================================================= *)

Module VoiceCall.

(** [enum VoiceCallState], member names to values. *)
Definition VoiceCallState : list (string * string) :=
  [ ("Active", "active"); ("Held", "held"); ("Dialing", "dialing");
    ("Alerting", "alerting"); ("Incoming", "incoming"); ("Waiting", "waiting");
    ("Disconnected", "disconnected") ].

(** [interface VoiceCallEvents] *)
Inductive Event : Type :=
| disconnectReason (reason : JsValue)
| change.

Record t : Type := mk {
  _path : JsValue;
  _lineIdentification : JsValue;
  _incomingLine : JsValue;
  _name : JsValue;
  _multiparty : JsValue;
  _state : JsValue;
  _startTime : JsValue;
  _information : JsValue;
  _icon : JsValue;
  _emergency : JsValue;
  _remoteHeld : JsValue;
  _remoteMultiparty : JsValue;
  _bus : MessageBus
}.

(** The getters. *)
Definition path := _path.
Definition lineIdentification := _lineIdentification.
Definition incomingLine := _incomingLine.
Definition name := _name.
Definition multiparty := _multiparty.
Definition state := _state.
Definition startTime := _startTime.
Definition information := _information.
Definition icon := _icon.
Definition emergency := _emergency.
Definition remoteHeld := _remoteHeld.
Definition remoteMultiparty := _remoteMultiparty.

(** The properties of org.ofono.VoiceCall, in the order of the
    [switch] of [listenForChanges]. *)
Inductive Property : Type :=
| LineIdentification | IncomingLine | Name | Multiparty | State | StartTime
| Information | Icon | Emergency | RemoteHeld | RemoteMultiparty.

Definition eq_dec (p q : Property) : {p = q} + {p <> q}.
Proof. decide equality. Defined.

Definition all : list Property :=
  [LineIdentification; IncomingLine; Name; Multiparty; State; StartTime;
   Information; Icon; Emergency; RemoteHeld; RemoteMultiparty].

Definition name_of (p : Property) : string :=
  match p with
  | LineIdentification => "LineIdentification"
  | IncomingLine => "IncomingLine"
  | Name => "Name"
  | Multiparty => "Multiparty"
  | State => "State"
  | StartTime => "StartTime"
  | Information => "Information"
  | Icon => "Icon"
  | Emergency => "Emergency"
  | RemoteHeld => "RemoteHeld"
  | RemoteMultiparty => "RemoteMultiparty"
  end.

Definition get (p : Property) (this : t) : JsValue :=
  match p with
  | LineIdentification => lineIdentification this
  | IncomingLine => incomingLine this
  | Name => name this
  | Multiparty => multiparty this
  | State => state this
  | StartTime => startTime this
  | Information => information this
  | Icon => icon this
  | Emergency => emergency this
  | RemoteHeld => remoteHeld this
  | RemoteMultiparty => remoteMultiparty this
  end.

Definition set (p : Property) (v : JsValue) (this : t) : t :=
  let upd q old := if eq_dec p q then v else old in
  {| _path := _path this;
     _lineIdentification := upd LineIdentification (_lineIdentification this);
     _incomingLine := upd IncomingLine (_incomingLine this);
     _name := upd Name (_name this);
     _multiparty := upd Multiparty (_multiparty this);
     _state := upd State (_state this);
     _startTime := upd StartTime (_startTime this);
     _information := upd Information (_information this);
     _icon := upd Icon (_icon this);
     _emergency := upd Emergency (_emergency this);
     _remoteHeld := upd RemoteHeld (_remoteHeld this);
     _remoteMultiparty := upd RemoteMultiparty (_remoteMultiparty this);
     _bus := _bus this |}.

Definition case_of (name : string) : option Property := select name_of all name.

(** What the [case] of a property stores for the value received:
    [VoiceCallState[value]] for State, a lookup that throws when the
    value has no string form; the value itself otherwise. *)
Definition stored (p : Property) (value : JsValue) : Completion JsValue :=
  match p with
  | State => enum_lookup VoiceCallState value
  | _ => Normal value
  end.

(** The listener for PropertyChanged. *)
Definition on_PropertyChanged (this : t) (prop : string) (arg : JsValue)
  : Completion (t * list (Output Event)) :=
  (value <~ js_get arg "value" ;;
   match case_of prop with
   | Some p => v <~ stored p value ;; Normal (set p v this, [Emit change])
   | None =>
       Normal (this,
               [Warn ("node-ofono: VoiceCall: Unhandled property change: " ++ prop)])
   end)%completion.

(** The listener for DisconnectReason. *)
Definition on_DisconnectReason (this : t) (reason : JsValue)
  : Completion (t * list (Output Event)) :=
  Normal (this, [Emit (disconnectReason reason)]).

Definition getInterface (this : t) : M ClientInterface :=
  proxy <- getProxyObject (_bus this) "org.ofono" (path this) ;;
  Bus.getInterface proxy "org.ofono.VoiceCall".

Definition listenForChanges (this : t) : M unit :=
  iface <- getInterface this ;;
  on iface "DisconnectReason" ;;
  on iface "PropertyChanged".

Definition deflect (this : t) (number : JsValue) : M unit :=
  iface <- getInterface this ;;
  _ <- call iface "Deflect" [number] ;;
  ret tt.

Definition hangup (this : t) : M unit :=
  iface <- getInterface this ;;
  _ <- call iface "Hangup" [] ;;
  ret tt.

Definition answer (this : t) : M unit :=
  iface <- getInterface this ;;
  _ <- call iface "Hangup" [] ;;
  ret tt.

(** The constructor's [data] parameter. *)
Record Data : Type := mkData {
  d_lineIdentification : JsValue;
  d_incomingLine : JsValue;
  d_name : JsValue;
  d_multiparty : JsValue;
  d_state : JsValue;
  d_startTime : JsValue;
  d_information : JsValue;
  d_icon : JsValue;
  d_emergency : JsValue;
  d_remoteHeld : JsValue;
  d_remoteMultiparty : JsValue
}.

Definition new (path : JsValue) (data : Data) (bus : option MessageBus) : M t :=
  bus <- default_bus bus ;;
  state <- lift (enum_lookup VoiceCallState (d_state data)) ;;
  let this :=
    {| _path := path;
       _lineIdentification := d_lineIdentification data;
       _incomingLine := d_incomingLine data;
       _name := d_name data;
       _multiparty := d_multiparty data;
       _state := state;
       _startTime := d_startTime data;
       _information := d_information data;
       _icon := d_icon data;
       _emergency := d_emergency data;
       _remoteHeld := d_remoteHeld data;
       _remoteMultiparty := d_remoteMultiparty data;
       _bus := bus |} in
  spawn (listenForChanges this) ;;
  ret this.

(** The second argument of [new VoiceCall(...)] in [fromDBusObject]. *)
Definition arguments (data : JsValue) : Completion (JsValue * Data) :=
  (path <~ js_index data 0 ;;
   lineIdentification <~ entry_value data "LineIdentification" ;;
   incomingLine <~ entry_value_opt data "IncomingLine" ;;
   name <~ entry_value data "Name" ;;
   multiparty <~ entry_value data "Multiparty" ;;
   state <~ entry_value data "State" ;;
   startTime <~ entry_value_opt data "StartTime" ;;
   information <~ entry_value_opt data "Information" ;;
   icon <~ entry_value_opt data "Icon" ;;
   emergency <~ entry_value data "Emergency" ;;
   remoteHeld <~ entry_value data "RemoteHeld" ;;
   remoteMultiparty <~ entry_value data "RemoteMultiparty" ;;
   Normal (path,
           mkData lineIdentification incomingLine name multiparty state
                  startTime information icon emergency remoteHeld
                  remoteMultiparty))%completion.

Definition fromDBusObject (data : JsValue) (bus : option MessageBus) : M t :=
  bus <- default_bus bus ;;
  a <- lift (arguments data) ;;
  new (fst a) (snd a) (Some bus).

(** The second argument of [new VoiceCall(...)] in [fromPath]. *)
Definition fetched (props : JsValue) : Completion Data :=
  (lineIdentification <~ member_value props "LineIdentification" ;;
   incomingLine <~ member_value_opt props "IncomingLine" ;;
   name <~ member_value props "Name" ;;
   multiparty <~ member_value props "Multiparty" ;;
   state <~ member_value props "State" ;;
   startTime <~ member_value_opt props "StartTime" ;;
   information <~ member_value_opt props "Information" ;;
   icon <~ member_value_opt props "Icon" ;;
   emergency <~ member_value props "Emergency" ;;
   remoteHeld <~ member_value props "RemoteHeld" ;;
   remoteMultiparty <~ member_value props "RemoteMultiparty" ;;
   Normal (mkData lineIdentification incomingLine name multiparty state
                  startTime information icon emergency remoteHeld
                  remoteMultiparty))%completion.

Definition fromPath (path : JsValue) (bus : option MessageBus) : M t :=
  bus <- default_bus bus ;;
  proxy <- getProxyObject bus "org.ofono" path ;;
  iface <- Bus.getInterface proxy "org.ofono.VoiceCall" ;;
  props <- call iface "GetProperties" [] ;;
  data <- lift (fetched props) ;;
  new path data (Some bus).

End VoiceCall.

(* ================================================================= *)
(** ** lib/networkRegistration.ts                                     *)
(* ================================================================= *)

Module NetworkRegistration.

Definition NetworkRegistrationMode : list (string * string) :=
  [ ("Auto", "auto"); ("AutoOnly", "auto-only"); ("Manual", "manual") ].

Definition NetworkRegistrationStatus : list (string * string) :=
  [ ("Unregistered", "unregistered"); ("Registered", "registered");
    ("Searching", "searching"); ("Denied", "denied"); ("Unknown", "unknown");
    ("Roaming", "roaming") ].

(** [interface NetworkRegistrationEvents { change: [] }] *)
Inductive Event : Type := change.

Record t : Type := mk {
  _path : JsValue;
  _mode : JsValue;
  _status : JsValue;
  _locationAreaCode : JsValue;
  _cellID : JsValue;
  _mobileCountryCode : JsValue;
  _mobileNetworkCode : JsValue;
  _technology : JsValue;
  _name : JsValue;
  _strength : JsValue;
  _baseStation : JsValue;
  _bus : MessageBus
}.

(** The getters. *)
Definition mode := _mode.
Definition status := _status.
Definition locationAreaCode := _locationAreaCode.
Definition cellID := _cellID.
Definition mobileCountryCode := _mobileCountryCode.
Definition mobileNetworkCode := _mobileNetworkCode.
Definition technology := _technology.
Definition name := _name.
Definition strength := _strength.
Definition baseStation := _baseStation.

Inductive Property : Type :=
| Mode | Status | LocationAreaCode | CellId | MobileCountryCode
| MobileNetworkCode | Technology | Name | Strength | BaseStation.

Definition eq_dec (p q : Property) : {p = q} + {p <> q}.
Proof. decide equality. Defined.

Definition all : list Property :=
  [Mode; Status; LocationAreaCode; CellId; MobileCountryCode;
   MobileNetworkCode; Technology; Name; Strength; BaseStation].

Definition name_of (p : Property) : string :=
  match p with
  | Mode => "Mode"
  | Status => "Status"
  | LocationAreaCode => "LocationAreaCode"
  | CellId => "CellId"
  | MobileCountryCode => "MobileCountryCode"
  | MobileNetworkCode => "MobileNetworkCode"
  | Technology => "Technology"
  | Name => "Name"
  | Strength => "Strength"
  | BaseStation => "BaseStation"
  end.

Definition get (p : Property) (this : t) : JsValue :=
  match p with
  | Mode => mode this
  | Status => status this
  | LocationAreaCode => locationAreaCode this
  | CellId => cellID this
  | MobileCountryCode => mobileCountryCode this
  | MobileNetworkCode => mobileNetworkCode this
  | Technology => technology this
  | Name => name this
  | Strength => strength this
  | BaseStation => baseStation this
  end.

Definition set (p : Property) (v : JsValue) (this : t) : t :=
  let upd q old := if eq_dec p q then v else old in
  {| _path := _path this;
     _mode := upd Mode (_mode this);
     _status := upd Status (_status this);
     _locationAreaCode := upd LocationAreaCode (_locationAreaCode this);
     _cellID := upd CellId (_cellID this);
     _mobileCountryCode := upd MobileCountryCode (_mobileCountryCode this);
     _mobileNetworkCode := upd MobileNetworkCode (_mobileNetworkCode this);
     _technology := upd Technology (_technology this);
     _name := upd Name (_name this);
     _strength := upd Strength (_strength this);
     _baseStation := upd BaseStation (_baseStation this);
     _bus := _bus this |}.

Definition case_of (name : string) : option Property := select name_of all name.

(** The listener for PropertyChanged.  The [default] case ends in
    [break], so the [emit] after the [switch] runs for it too. *)
Definition on_PropertyChanged (this : t) (prop : string) (arg : JsValue)
  : Completion (t * list (Output Event)) :=
  (value <~ js_get arg "value" ;;
   match case_of prop with
   | Some p => Normal (set p value this, [Emit change])
   | None =>
       Normal (this,
               [Warn ("node-ofono: NetworkRegistration: Unhandled property change: "
                      ++ prop);
                Emit change])
   end)%completion.

Definition getInterface (this : t) : M ClientInterface :=
  proxy <- getProxyObject (_bus this) "org.ofono" (_path this) ;;
  Bus.getInterface proxy "org.ofono.NetworkRegistration".

Definition listenForChanges (this : t) : M unit :=
  iface <- getInterface this ;;
  on iface "PropertyChanged".

Definition register (this : t) : M unit :=
  iface <- getInterface this ;;
  _ <- call iface "Register" [] ;;
  ret tt.

Definition getOperators (this : t) : M JsValue :=
  iface <- getInterface this ;;
  call iface "GetOperators" [].

Definition scan (this : t) : M JsValue :=
  iface <- getInterface this ;;
  call iface "Scan" [].

Definition constructTechnology (t : JsValue) : Completion JsValue :=
  (gsm <~ js_includes t "gsm" ;;
   edge <~ js_includes t "edge" ;;
   umts <~ js_includes t "umts" ;;
   hspa <~ js_includes t "hspa" ;;
   lte <~ js_includes t "lte" ;;
   Normal (JObj [("GSM", JBool gsm); ("EDGE", JBool edge); ("UMTS", JBool umts);
                 ("HSPA", JBool hspa); ("LTE", JBool lte)]))%completion.

Record Data : Type := mkData {
  d_mode : JsValue;
  d_status : JsValue;
  d_locationAreaCode : JsValue;
  d_cellID : JsValue;
  d_mobileCountryCode : JsValue;
  d_mobileNetworkCode : JsValue;
  d_technology : JsValue;
  d_name : JsValue;
  d_strength : JsValue;
  d_baseStation : JsValue
}.

Definition new (path : JsValue) (data : Data) (bus : option MessageBus) : M t :=
  bus <- default_bus bus ;;
  mode <- lift (enum_lookup NetworkRegistrationMode (d_mode data)) ;;
  status <- lift (enum_lookup NetworkRegistrationStatus (d_status data)) ;;
  technology <- lift (if truthy (d_technology data)
                      then constructTechnology (d_technology data)
                      else Normal JNull) ;;
  let this :=
    {| _path := path;
       _mode := mode;
       _status := status;
       _locationAreaCode := coalesce (d_locationAreaCode data) JNull;
       _cellID := coalesce (d_cellID data) JNull;
       _mobileCountryCode := coalesce (d_mobileCountryCode data) JNull;
       _mobileNetworkCode := coalesce (d_mobileNetworkCode data) JNull;
       _technology := technology;
       _name := d_name data;
       _strength := coalesce (d_strength data) JNull;
       _baseStation := coalesce (d_baseStation data) JNull;
       _bus := bus |} in
  spawn (listenForChanges this) ;;
  ret this.

Definition fetched (props : JsValue) : Completion Data :=
  (mode <~ member_value props "Mode" ;;
   status <~ member_value props "Status" ;;
   locationAreaCode <~ member_value_opt props "LocationAreaCode" ;;
   cellID <~ member_value_opt props "CellId" ;;
   mobileCountryCode <~ member_value_opt props "MobileCountryCode" ;;
   mobileNetworkCode <~ member_value_opt props "MobileNetworkCode" ;;
   technology <~ member_value_opt props "Technology" ;;
   name <~ member_value props "Name" ;;
   strength <~ member_value_opt props "Strength" ;;
   baseStation <~ member_value_opt props "BaseStation" ;;
   Normal (mkData mode status locationAreaCode cellID mobileCountryCode
                  mobileNetworkCode technology name strength baseStation))%completion.

Definition ofModem (modem : Modem.t) : M t :=
  i <- lift (js_indexOf (Modem.interfaces modem) "org.ofono.NetworkRegistration") ;;
  if (i =? -1)%Z
  then path <- lift (js_to_string (Modem.path modem)) ;;
       throw (Error ("node-ofono: Network.ofModem(): Modem " ++ path
                     ++ " does not support NetworkRegistration interface"))
  else
    proxy <- getProxyObject (Modem.bus modem) "org.ofono" (Modem.path modem) ;;
    iface <- Bus.getInterface proxy "org.ofono.NetworkRegistration" ;;
    props <- call iface "GetProperties" [] ;;
    data <- lift (fetched props) ;;
    new (Modem.path modem) data (Some (Modem.bus modem)).

End NetworkRegistration.

(* ================================================================= *)
(** ** lib/handsfree.ts                                               *)
(* ================================================================= *)

Module Handsfree.

(** [interface HandsfreeEvents { change: [] }] *)
Inductive Event : Type := change.

Record t : Type := mk {
  _path : JsValue;
  _features : JsValue;
  _inbandRinging : JsValue;
  _voiceRecognition : JsValue;
  _echoCancellingNoiseReduction : JsValue;
  _batteryChargeLevel : JsValue;
  _subscriberNumbers : JsValue;
  _distractedDrivingReduction : JsValue;
  _bus : MessageBus
}.

(** The getters. *)
Definition features := _features.
Definition inbandRinging := _inbandRinging.
Definition voiceRecognition := _voiceRecognition.
Definition echoCancellingNoiseReduction := _echoCancellingNoiseReduction.
Definition batteryChargeLevel := _batteryChargeLevel.
Definition subscriberNumbers := _subscriberNumbers.
Definition distractedDrivingReduction := _distractedDrivingReduction.

Inductive Property : Type :=
| Features | InbandRinging | VoiceRecognition | EchoCancellingNoiseReduction
| BatteryChargeLevel | SubscriberNumbers | DistractedDrivingReduction.

Definition eq_dec (p q : Property) : {p = q} + {p <> q}.
Proof. decide equality. Defined.

Definition all : list Property :=
  [Features; InbandRinging; VoiceRecognition; EchoCancellingNoiseReduction;
   BatteryChargeLevel; SubscriberNumbers; DistractedDrivingReduction].

Definition name_of (p : Property) : string :=
  match p with
  | Features => "Features"
  | InbandRinging => "InbandRinging"
  | VoiceRecognition => "VoiceRecognition"
  | EchoCancellingNoiseReduction => "EchoCancellingNoiseReduction"
  | BatteryChargeLevel => "BatteryChargeLevel"
  | SubscriberNumbers => "SubscriberNumbers"
  | DistractedDrivingReduction => "DistractedDrivingReduction"
  end.

Definition get (p : Property) (this : t) : JsValue :=
  match p with
  | Features => features this
  | InbandRinging => inbandRinging this
  | VoiceRecognition => voiceRecognition this
  | EchoCancellingNoiseReduction => echoCancellingNoiseReduction this
  | BatteryChargeLevel => batteryChargeLevel this
  | SubscriberNumbers => subscriberNumbers this
  | DistractedDrivingReduction => distractedDrivingReduction this
  end.

Definition set (p : Property) (v : JsValue) (this : t) : t :=
  let upd q old := if eq_dec p q then v else old in
  {| _path := _path this;
     _features := upd Features (_features this);
     _inbandRinging := upd InbandRinging (_inbandRinging this);
     _voiceRecognition := upd VoiceRecognition (_voiceRecognition this);
     _echoCancellingNoiseReduction :=
       upd EchoCancellingNoiseReduction (_echoCancellingNoiseReduction this);
     _batteryChargeLevel := upd BatteryChargeLevel (_batteryChargeLevel this);
     _subscriberNumbers := upd SubscriberNumbers (_subscriberNumbers this);
     _distractedDrivingReduction :=
       upd DistractedDrivingReduction (_distractedDrivingReduction this);
     _bus := _bus this |}.

Definition case_of (name : string) : option Property := select name_of all name.

(** The listener for PropertyChanged. *)
Definition on_PropertyChanged (this : t) (prop : string) (arg : JsValue)
  : Completion (t * list (Output Event)) :=
  (value <~ js_get arg "value" ;;
   match case_of prop with
   | Some p => Normal (set p value this, [Emit change])
   | None =>
       Normal (this,
               [Warn ("node-ofono: Handsfree: Unhandled property change: " ++ prop)])
   end)%completion.

Definition getInterface (this : t) : M ClientInterface :=
  proxy <- getProxyObject (_bus this) "org.ofono" (_path this) ;;
  Bus.getInterface proxy "org.ofono.Handsfree".

Definition listenForChanges (this : t) : M unit :=
  iface <- getInterface this ;;
  on iface "PropertyChanged".

Definition setProperty (this : t) (prop signature : string) (val : JsValue)
  : M unit :=
  iface <- getInterface this ;;
  _ <- call iface "SetProperty" [JStr prop; Variant signature val] ;;
  ret tt.

Definition set_voiceRecognition (v : JsValue) (this : t) : M t :=
  let this' := set VoiceRecognition v this in
  spawn (setProperty this' "VoiceRecognition" "b" v) ;; ret this'.

Definition set_echoCancellingNoiseReduction (v : JsValue) (this : t) : M t :=
  let this' := set EchoCancellingNoiseReduction v this in
  spawn (setProperty this' "EchoCancellingNoiseReduction" "b" v) ;; ret this'.

Definition set_distractedDrivingReduction (v : JsValue) (this : t) : M t :=
  let this' := set DistractedDrivingReduction v this in
  spawn (setProperty this' "DistractedDrivingReduction" "b" v) ;; ret this'.

Definition constructFeatures (f : JsValue) : Completion JsValue :=
  (voiceRecognition <~ js_includes f "voice-recognition" ;;
   attachVoiceTag <~ js_includes f "attach-voice-tag" ;;
   echo <~ js_includes f "echo-canceling-and-noise-reduction" ;;
   threeWayCalling <~ js_includes f "three-way-calling" ;;
   releaseAllHeld <~ js_includes f "release-all-held" ;;
   releaseSpecified <~ js_includes f "release-specified-active-call" ;;
   privateChat <~ js_includes f "private-chat" ;;
   createMultiparty <~ js_includes f "create-multiparty" ;;
   transfer <~ js_includes f "transfer" ;;
   hfIndicators <~ js_includes f "hf-indicators" ;;
   Normal (JObj [("VoiceRecognition", JBool voiceRecognition);
                 ("AttachVoiceTag", JBool attachVoiceTag);
                 ("EchoCancellingAndNoiseReduction", JBool echo);
                 ("ThreeWayCalling", JBool threeWayCalling);
                 ("ReleaseAllHeld", JBool releaseAllHeld);
                 ("ReleaseSpecifiedActiveCall", JBool releaseSpecified);
                 ("PrivateChat", JBool privateChat);
                 ("CreateMultiparty", JBool createMultiparty);
                 ("Transfer", JBool transfer);
                 ("HfIndicators", JBool hfIndicators)]))%completion.

Record Data : Type := mkData {
  d_features : JsValue;
  d_inbandRinging : JsValue;
  d_voiceRecognition : JsValue;
  d_echoCancellingNoiseReduction : JsValue;
  d_batteryChargeLevel : JsValue;
  d_subscriberNumbers : JsValue;
  d_distractedDrivingReduction : JsValue
}.

Definition new (path : JsValue) (data : Data) (bus : option MessageBus) : M t :=
  bus <- default_bus bus ;;
  features <- lift (constructFeatures (d_features data)) ;;
  let this :=
    {| _path := path;
       _features := features;
       _inbandRinging := d_inbandRinging data;
       _voiceRecognition := d_voiceRecognition data;
       _echoCancellingNoiseReduction :=
         coalesce (d_echoCancellingNoiseReduction data) JNull;
       _batteryChargeLevel := d_batteryChargeLevel data;
       _subscriberNumbers := d_subscriberNumbers data;
       _distractedDrivingReduction :=
         coalesce (d_distractedDrivingReduction data) JNull;
       _bus := bus |} in
  spawn (listenForChanges this) ;;
  ret this.

Definition fetched (props : JsValue) : Completion Data :=
  (features <~ member_value props "Features" ;;
   inbandRinging <~ member_value props "InbandRinging" ;;
   voiceRecognition <~ member_value props "VoiceRecognition" ;;
   echo <~ member_value_opt props "EchoCancellingNoiseReduction" ;;
   batteryChargeLevel <~ member_value props "BatteryChargeLevel" ;;
   subscriberNumbers <~ member_value props "SubscriberNumbers" ;;
   distracted <~ member_value_opt props "DistractedDrivingReduction" ;;
   Normal (mkData features inbandRinging voiceRecognition echo
                  batteryChargeLevel subscriberNumbers distracted))%completion.

Definition ofModem (modem : Modem.t) : M t :=
  i <- lift (js_indexOf (Modem.interfaces modem) "org.ofono.Handsfree") ;;
  if (i =? -1)%Z
  then path <- lift (js_to_string (Modem.path modem)) ;;
       throw (Error ("node-ofono: Handsfree.ofModem(): Modem " ++ path
                     ++ " does not support Handsfree interface"))
  else
    proxy <- getProxyObject (Modem.bus modem) "org.ofono" (Modem.path modem) ;;
    iface <- Bus.getInterface proxy "org.ofono.Handsfree" ;;
    props <- call iface "GetProperties" [] ;;
    data <- lift (fetched props) ;;
    new (Modem.path modem) data (Some (Modem.bus modem)).

End Handsfree.

(* ================================================================= *)
(** ** lib/voiceCallManager.ts                                        *)
(* ================================================================= *)

(** The regular expression literal [/^[0-9a-d*#]*$/i] of [sendTones].
    Strings are sequences of bytes here; a code unit outside ASCII
    never canonicalizes to an ASCII one, and neither does a byte above
    127. *)
Module TonesRegExp.

(** The ranges of the class [[0-9a-d*#]]. *)
Definition class_ranges : list (ascii * ascii) :=
  [ ("0", "9"); ("a", "d"); ("*", "*"); ("#", "#") ]%char.

Definition range_members (r : ascii * ascii) : list ascii :=
  let lo := nat_of_ascii (fst r) in
  let hi := nat_of_ascii (snd r) in
  map ascii_of_nat (seq lo (hi - lo + 1)).

Definition class_members : list ascii := flat_map range_members class_ranges.

(** Flag [i]: characters are compared after [Canonicalize], the
    upper-case form. *)
Definition canonicalize (c : ascii) : ascii :=
  let n := nat_of_ascii c in
  if ((97 <=? n) && (n <=? 122))%nat then ascii_of_nat (n - 32) else c.

(** The class matches [c] when some member has the same canonical form. *)
Definition class_matches (c : ascii) : bool :=
  existsb (fun a => Ascii.eqb (canonicalize a) (canonicalize c)) class_members.

(** [^], the starred class, [$]: the star takes characters of the class
    and [$] holds at the end of the input only (there is no flag [m]). *)
Fixpoint star_then_end (s : string) : bool :=
  match s with
  | EmptyString => true
  | String c s' => class_matches c && star_then_end s'
  end.

Definition test (s : string) : bool := star_then_end s.

End TonesRegExp.

Module VoiceCallManager.

(** [interface VoiceCallManagerEvents] *)
Inductive Event : Type :=
| callAdded (call : VoiceCall.t)
| callRemoved (path : JsValue)
| barringActive (type : JsValue)
| forwarded (type : JsValue)
| change.

Record t : Type := mk {
  path : JsValue;
  _emergencyNumbers : JsValue;
  bus : MessageBus
}.

Definition emergencyNumbers := _emergencyNumbers.

Inductive Property : Type := EmergencyNumbers.

Definition eq_dec (p q : Property) : {p = q} + {p <> q}.
Proof. decide equality. Defined.

Definition all : list Property := [EmergencyNumbers].

Definition name_of (p : Property) : string :=
  match p with
  | EmergencyNumbers => "EmergencyNumbers"
  end.

Definition get (p : Property) (this : t) : JsValue :=
  match p with
  | EmergencyNumbers => emergencyNumbers this
  end.

Definition set (p : Property) (v : JsValue) (this : t) : t :=
  let upd q old := if eq_dec p q then v else old in
  {| path := path this;
     _emergencyNumbers := upd EmergencyNumbers (_emergencyNumbers this);
     bus := bus this |}.

Definition case_of (name : string) : option Property := select name_of all name.

(** The listener for PropertyChanged; nothing follows its [switch]. *)
Definition on_PropertyChanged (this : t) (prop : string) (arg : JsValue)
  : Completion (t * list (Output Event)) :=
  (value <~ js_get arg "value" ;;
   match case_of prop with
   | Some p => Normal (set p value this, [])
   | None =>
       Normal (this,
               [Warn ("node-ofono: VoiceCallManager: unhandled property change: "
                      ++ prop)])
   end)%completion.

Definition on_CallRemoved (this : t) (path : JsValue)
  : Completion (t * list (Output Event)) :=
  Normal (this, [Emit (callRemoved path)]).

Definition on_BarringActive (this : t) (type : JsValue)
  : Completion (t * list (Output Event)) :=
  Normal (this, [Emit (barringActive type)]).

Definition on_Forwarded (this : t) (type : JsValue)
  : Completion (t * list (Output Event)) :=
  Normal (this, [Emit (forwarded type)]).

Definition getInterface (this : t) : M ClientInterface :=
  proxy <- getProxyObject (bus this) "org.ofono" (path this) ;;
  Bus.getInterface proxy "org.ofono.VoiceCallManager".

(** Five listeners are registered.  The one for CallAdded calls
    [VoiceCall.fromDBusObject(path, props)], the path where the pair
    is expected and the dictionary where the connection is; it has no
    counterpart below. *)
Definition listenForChanges (this : t) : M unit :=
  iface <- getInterface this ;;
  on iface "CallAdded" ;;
  on iface "CallRemoved" ;;
  on iface "BarringActive" ;;
  on iface "Forwarded" ;;
  on iface "PropertyChanged".

Definition new (path : JsValue) (emergencyNumbers : JsValue)
    (bus : option MessageBus) : M t :=
  bus <- default_bus bus ;;
  let this := {| path := path; _emergencyNumbers := emergencyNumbers; bus := bus |} in
  spawn (listenForChanges this) ;;
  ret this.

Definition ofModem (modem : Modem.t) : M t :=
  i <- lift (js_indexOf (Modem.interfaces modem) "org.ofono.VoiceCallManager") ;;
  if (i =? -1)%Z
  then path <- lift (js_to_string (Modem.path modem)) ;;
       throw (Error ("node-ofono: VoiceCallManager.ofModem(): Modem " ++ path
                     ++ " does not support VoiceCallManager interface"))
  else
    proxy <- getProxyObject (Modem.bus modem) "org.ofono" (Modem.path modem) ;;
    iface <- Bus.getInterface proxy "org.ofono.VoiceCallManager" ;;
    props <- call iface "GetProperties" [] ;;
    emergencyNumbers <- lift (member_value props "EmergencyNumbers") ;;
    new (Modem.path modem) emergencyNumbers (Some (Modem.bus modem)).

Definition getCalls (this : t) : M (list VoiceCall.t) :=
  iface <- getInterface this ;;
  calls <- call iface "GetCalls" [] ;;
  cs <- lift (js_elements calls) ;;
  mapM (fun c => VoiceCall.fromDBusObject c (Some (bus this))) cs.

(** [hideCallerID] is [JUndefined] when the argument is left out. *)
Definition dial (this : t) (number hideCallerID : JsValue) : M VoiceCall.t :=
  iface <- getInterface this ;;
  path <- call iface "Dial"
               [number;
                JStr (match hideCallerID with
                      | JUndefined => "default"
                      | _ => if truthy hideCallerID then "enabled" else "disabled"
                      end)] ;;
  VoiceCall.fromPath path None.

Definition transfer (this : t) : M unit :=
  iface <- getInterface this ;;
  _ <- call iface "Transfer" [] ;;
  ret tt.

Definition swapCalls (this : t) : M unit :=
  iface <- getInterface this ;;
  _ <- call iface "Transfer" [] ;;
  ret tt.

Definition releaseAndAnswer (this : t) : M unit :=
  iface <- getInterface this ;;
  _ <- call iface "ReleaseAndAnswer" [] ;;
  ret tt.

Definition releaseAndSwap (this : t) : M unit :=
  iface <- getInterface this ;;
  _ <- call iface "ReleaseAndSwap" [] ;;
  ret tt.

Definition holdAndAnswer (this : t) : M unit :=
  iface <- getInterface this ;;
  _ <- call iface "HoldAndAnswer" [] ;;
  ret tt.

Definition hangupAll (this : t) : M unit :=
  iface <- getInterface this ;;
  _ <- call iface "HangupAll" [] ;;
  ret tt.

Definition privateChat (this : t) (path : JsValue) : M (list VoiceCall.t) :=
  iface <- getInterface this ;;
  calls <- call iface "PrivateChat" [path] ;;
  cs <- lift (js_elements calls) ;;
  mapM (fun c => VoiceCall.fromPath c (Some (bus this))) cs.

Definition createMultiparty (this : t) : M (list VoiceCall.t) :=
  iface <- getInterface this ;;
  calls <- call iface "CreateMultiparty" [] ;;
  cs <- lift (js_elements calls) ;;
  mapM (fun c => VoiceCall.fromPath c (Some (bus this))) cs.

Definition hangupMultiparty (this : t) : M unit :=
  iface <- getInterface this ;;
  _ <- call iface "HangupMultiparty" [] ;;
  ret tt.

Definition sendTones (this : t) (tones : string) : M unit :=
  if negb (TonesRegExp.test tones)
  then throw (Error "node-ofono: VoiceCallManager: sendTones(): invalid tone(s)")
  else
    iface <- getInterface this ;;
    _ <- call iface "SendTones" [JStr tones] ;;
    ret tt.

Definition dialLast (this : t) : M unit :=
  iface <- getInterface this ;;
  _ <- call iface "DialLast" [] ;;
  ret tt.

End VoiceCallManager.

(* ================================================================= *)
(** ** lib/ofono.ts                                                   *)
(* ================================================================= *)

Module Ofono.

(** [interface OfonoEvents] *)
Inductive Event : Type :=
| add (path : JsValue) (modem : Modem.t)
| remove (path : JsValue).

Record t : Type := mk { bus : MessageBus }.

Definition listenForChanges (this : t) : M unit :=
  proxy <- getProxyObject (bus this) "org.ofono" (JStr "/") ;;
  iface <- getInterface proxy "org.ofono.Manager" ;;
  on iface "ModemAdded" ;;
  on iface "ModemRemoved".

Definition new (bus : option MessageBus) : M t :=
  bus <- default_bus bus ;;
  let this := {| bus := bus |} in
  spawn (listenForChanges this) ;;
  ret this.

Definition getModems (this : t) : M (list Modem.t) :=
  proxy <- getProxyObject (bus this) "org.ofono" (JStr "/") ;;
  iface <- getInterface proxy "org.ofono.Manager" ;;
  modems <- call iface "GetModems" [] ;;
  ms <- lift (js_elements modems) ;;
  mapM (fun m => Modem.fromDBusObject m (Some (bus this))) ms.

(** The listener for ModemAdded: [Modem.fromDBusObject(modem)], with no
    second argument. *)
Definition on_ModemAdded (this : t) (path modem : JsValue)
  : M (list (Output Event)) :=
  m <- Modem.fromDBusObject modem None ;;
  ret [Emit (add path m)].

(** The listener for ModemRemoved. *)
Definition on_ModemRemoved (this : t) (path : JsValue)
  : M (list (Output Event)) :=
  ret [Emit (remove path)].

End Ofono.

(* ================================================================= *)
(** ** Notions the statements below are phrased with                  *)
(* ================================================================= *)

Module Feed.

(** A PropertyChanged notification: the property's name and the
    Variant (signature and value) it carries. *)
Record Notification : Type := mkNotification {
  n_name : string;
  n_signature : string;
  n_value : JsValue
}.

Definition signal_of (n : Notification) : Signal :=
  (n_name n, Variant (n_signature n) (n_value n)).

(** The value carried by the last notification of the sequence that
    names [name], if there is one. *)
Fixpoint last_value (name : string) (ns : list Notification) : option JsValue :=
  match ns with
  | [] => None
  | n :: rest =>
      match last_value name rest with
      | Some v => Some v
      | None => if String.eqb (n_name n) name then Some (n_value n) else None
      end
  end.

(** A [case] that stores the value as it was received. *)
Definition as_received {P : Type} (_ : P) (value : JsValue) : JsValue := value.

(** [entry?.value], the content of an entry of a property dictionary. *)
Definition value_of (entry : JsValue) : JsValue :=
  match js_get_opt entry "value" with
  | Normal v => v
  | Throw _ => JUndefined
  end.

(** The properties of a modem that oFono may leave out. *)
Definition modem_optional (p : Modem.Property) : bool :=
  match p with
  | Modem.Emergency | Modem.Name | Modem.Manufacturer | Modem.Model
  | Modem.Revision | Modem.Serial => true
  | _ => false
  end.

(** What a property dictionary says about a property of a modem: null
    when it has no entry, the content of the entry otherwise. *)
Definition modem_decoded (p : Modem.Property) (props : list (string * JsValue))
  : JsValue :=
  match assoc (Modem.name_of p) props with
  | None => JNull
  | Some entry =>
      if modem_optional p then coalesce (value_of entry) JNull else value_of entry
  end.

(** The outputs that are [emit] calls. *)
Definition emitted {E : Type} (outs : list (Output E)) : list E :=
  flat_map (fun o => match o with Emit e => [e] | Warn _ => [] end) outs.

(** The outputs that are [console.warn] calls. *)
Definition warned {E : Type} (outs : list (Output E)) : list string :=
  flat_map (fun o => match o with Emit _ => [] | Warn msg => [msg] end) outs.

(** The remote object at [path] answers the next request, an
    introspection over [bus], and has the interface [iface]. *)
Definition offers (w : World) (bus : MessageBus) (path : JsValue) (iface : string)
  : Prop :=
  exists ifaces,
    service w (length (trace w)) (Introspect bus "org.ofono" path) = Answer ifaces
    /\ has_interface ifaces iface = true.

(** The method calls among requests. *)
Definition method_calls (rs : list Request) : list Request :=
  filter (fun r => match r with MethodCall _ _ _ _ _ => true | _ => false end) rs.

(** The tone characters: 0-9, a-d, A-D,
    the star and the hash. *)
Definition tone_char (c : ascii) : Prop :=
  let n := nat_of_ascii c in
  (48 <= n <= 57) \/ (97 <= n <= 100) \/ (65 <= n <= 68) \/ n = 42 \/ n = 35.

End Feed.
Export Feed.

(** Concrete objects and worlds. *)
Module Examples.

Definition all_interfaces : JsValue :=
  JArr [JStr "org.ofono.Modem"; JStr "org.ofono.VoiceCallManager";
        JStr "org.ofono.VoiceCall"; JStr "org.ofono.NetworkRegistration";
        JStr "org.ofono.Handsfree"; JStr "org.ofono.Manager"].

(** The property dictionary of a call that is being dialed, as oFono
    sends it: State is one of the lower-case words of voicecall-api.txt
    and the optional entries are left out. *)
Definition call_entries : list (string * JsValue) :=
  [ ("LineIdentification", Variant "s" (JStr "112"));
    ("Name", Variant "s" (JStr ""));
    ("Multiparty", Variant "b" (JBool false));
    ("State", Variant "s" (JStr "dialing"));
    ("Emergency", Variant "b" (JBool true));
    ("RemoteHeld", Variant "b" (JBool false));
    ("RemoteMultiparty", Variant "b" (JBool false)) ].

Definition call_properties : JsValue := JObj call_entries.

Definition manager_properties : JsValue :=
  JObj [ ("EmergencyNumbers", Variant "as" (JArr [JStr "112"; JStr "911"])) ].

Definition call_path : JsValue := JStr "/ril_0/voicecall01".

(** A service that answers every request. *)
Definition obliging : nat -> Request -> Reply :=
  fun _ r =>
    match r with
    | Introspect _ _ _ => Answer all_interfaces
    | MethodCall _ _ iface member _ =>
        if String.eqb member "Dial" then Answer call_path
        else if String.eqb member "GetProperties" then
          if String.eqb iface "org.ofono.VoiceCallManager"
          then Answer manager_properties
          else Answer call_properties
        else Answer JUndefined
    end.

(** A service whose call object is gone once its properties have been
    read: the third request fails. *)
Definition call_vanishes : nat -> Request -> Reply :=
  fun n r =>
    match n with
    | 0 | 1 => obliging n r
    | _ => Fault (DBusError "org.freedesktop.DBus.Error.UnknownObject")
    end.

(** One connection is open and nothing has been sent. *)
Definition world (svc : nat -> Request -> Reply) : World :=
  mkWorld svc [] 1 [] [].

(** The modem of the specification's end-to-end example. *)
Definition modem0 : Modem.t :=
  {| Modem._path := JStr "/modem0";
     Modem._online := JBool true;
     Modem._powered := JBool true;
     Modem._lockdown := JBool false;
     Modem._emergency := JNull;
     Modem._name := JNull;
     Modem._serial := JNull;
     Modem._manufacturer := JNull;
     Modem._model := JNull;
     Modem._revision := JNull;
     Modem._interfaces := JArr [JStr "org.ofono.VoiceCallManager"];
     Modem._type := JStr "hardware";
     Modem._bus := 0 |}.

(** A live call whose state is [VoiceCallState.Active]. *)
Definition call0 : VoiceCall.t :=
  {| VoiceCall._path := call_path;
     VoiceCall._lineIdentification := JStr "112";
     VoiceCall._incomingLine := JNull;
     VoiceCall._name := JStr "";
     VoiceCall._multiparty := JBool false;
     VoiceCall._state := JStr "active";
     VoiceCall._startTime := JNull;
     VoiceCall._information := JNull;
     VoiceCall._icon := JNull;
     VoiceCall._emergency := JBool true;
     VoiceCall._remoteHeld := JBool false;
     VoiceCall._remoteMultiparty := JBool false;
     VoiceCall._bus := 0 |}.

Definition manager0 : VoiceCallManager.t :=
  {| VoiceCallManager.path := JStr "/ril_0";
     VoiceCallManager._emergencyNumbers := JArr [JStr "112"; JStr "911"];
     VoiceCallManager.bus := 0 |}.

Definition registration0 : NetworkRegistration.t :=
  {| NetworkRegistration._path := JStr "/ril_0";
     NetworkRegistration._mode := JStr "auto";
     NetworkRegistration._status := JStr "registered";
     NetworkRegistration._locationAreaCode := JNull;
     NetworkRegistration._cellID := JNull;
     NetworkRegistration._mobileCountryCode := JNull;
     NetworkRegistration._mobileNetworkCode := JNull;
     NetworkRegistration._technology := JNull;
     NetworkRegistration._name := JStr "operator";
     NetworkRegistration._strength := JNum 60;
     NetworkRegistration._baseStation := JNull;
     NetworkRegistration._bus := 0 |}.

Definition handsfree0 : Handsfree.t :=
  {| Handsfree._path := JStr "/hfp_0";
     Handsfree._features := JObj [];
     Handsfree._inbandRinging := JBool false;
     Handsfree._voiceRecognition := JBool false;
     Handsfree._echoCancellingNoiseReduction := JNull;
     Handsfree._batteryChargeLevel := JNum 5;
     Handsfree._subscriberNumbers := JArr [];
     Handsfree._distractedDrivingReduction := JNull;
     Handsfree._bus := 0 |}.

End Examples.

(* ================================================================= *)
(** ** The earlier lib/ofono.ts and lib/voiceCallManager.ts           *)
(* ================================================================= *)

(** The sources hold an earlier version of two files: an [Ofono]
    without listeners, whose [getModems] passes no connection on, and
    a [VoiceCallManager] with a public constructor, whose methods
    return the replies of the bus as they are. *)
Module Earlier.

Module Ofono.

Record t : Type := mk { bus : MessageBus }.

Definition new (bus : option MessageBus) : M t :=
  bus <- default_bus bus ;;
  ret {| bus := bus |}.

Definition getModems (this : t) : M (list Modem.t) :=
  proxy <- getProxyObject (bus this) "org.ofono" (JStr "/") ;;
  iface <- getInterface proxy "org.ofono.Manager" ;;
  modems <- call iface "GetModems" [] ;;
  ms <- lift (js_elements modems) ;;
  mapM (fun m => Modem.fromDBusObject m None) ms.

End Ofono.

Module VoiceCallManager.

(** [interface VoiceCallManagerEvents] *)
Inductive Event : Type :=
| callAdded (path props : JsValue)
| callRemoved (path : JsValue)
| propertyChanged (prop val : JsValue)
| barringActive (type : JsValue)
| forwarded (type : JsValue).

Record t : Type := mk {
  bus : MessageBus;
  path : JsValue
}.

(** The two lines every method starts with. *)
Definition interface (this : t) : M ClientInterface :=
  proxy <- getProxyObject (bus this) "org.ofono" (path this) ;;
  getInterface proxy "org.ofono.VoiceCallManager".

Definition listenForChanges (this : t) : M unit :=
  iface <- interface this ;;
  on iface "CallAdded" ;;
  on iface "CallRemoved" ;;
  on iface "PropertyChanged" ;;
  on iface "BarringActive" ;;
  on iface "Forwarded".

(** The listeners forward what they receive. *)
Definition on_CallAdded (path props : JsValue) : list (Output Event) :=
  [Emit (callAdded path props)].

Definition on_CallRemoved (path : JsValue) : list (Output Event) :=
  [Emit (callRemoved path)].

Definition on_PropertyChanged (prop val : JsValue) : list (Output Event) :=
  [Emit (propertyChanged prop val)].

Definition on_BarringActive (type : JsValue) : list (Output Event) :=
  [Emit (barringActive type)].

Definition on_Forwarded (type : JsValue) : list (Output Event) :=
  [Emit (forwarded type)].

(** The constructor. *)
Definition new (modem : Modem.t) : M t :=
  i <- lift (js_indexOf (Modem.interfaces modem) "org.ofono.VoiceCallManager") ;;
  if (i =? -1)%Z
  then path <- lift (js_to_string (Modem.path modem)) ;;
       throw (Error ("node-ofono: VoiceCallManager(): Modem " ++ path
                     ++ " does not support VoiceCallManager interface"))
  else
    let this := {| bus := Modem.bus modem; path := Modem.path modem |} in
    spawn (listenForChanges this) ;;
    ret this.

Definition getCalls (this : t) : M JsValue :=
  iface <- interface this ;;
  call iface "GetCalls" [].

Definition dial (this : t) (number hideCallerID : JsValue) : M JsValue :=
  iface <- interface this ;;
  call iface "Dial"
       [number;
        JStr (match hideCallerID with
              | JUndefined => "default"
              | _ => if truthy hideCallerID then "enabled" else "disabled"
              end)].

Definition transfer (this : t) : M unit :=
  iface <- interface this ;;
  _ <- call iface "Transfer" [] ;;
  ret tt.

Definition swapCalls (this : t) : M unit :=
  iface <- interface this ;;
  _ <- call iface "Transfer" [] ;;
  ret tt.

Definition releaseAndAnswer (this : t) : M unit :=
  iface <- interface this ;;
  _ <- call iface "ReleaseAndAnswer" [] ;;
  ret tt.

Definition releaseAndSwap (this : t) : M unit :=
  iface <- interface this ;;
  _ <- call iface "ReleaseAndSwap" [] ;;
  ret tt.

Definition holdAndAnswer (this : t) : M unit :=
  iface <- interface this ;;
  _ <- call iface "HoldAndAnswer" [] ;;
  ret tt.

Definition hangupAll (this : t) : M unit :=
  iface <- interface this ;;
  _ <- call iface "HangupAll" [] ;;
  ret tt.

Definition privateChat (this : t) (path : JsValue) : M JsValue :=
  iface <- interface this ;;
  call iface "PrivateChat" [path].

Definition createMultiparty (this : t) : M JsValue :=
  iface <- interface this ;;
  call iface "CreateMultiparty" [].

Definition hangupMultiparty (this : t) : M unit :=
  iface <- interface this ;;
  _ <- call iface "HangupMultiparty" [] ;;
  ret tt.

Definition sendTones (this : t) (tones : string) : M unit :=
  if negb (TonesRegExp.test tones)
  then throw (Error "node-ofono: VoiceCallManager: sendTones(): invalid tone(s)")
  else
    iface <- interface this ;;
    _ <- call iface "SendTones" [JStr tones] ;;
    ret tt.

Definition dialLast (this : t) : M unit :=
  iface <- interface this ;;
  _ <- call iface "DialLast" [] ;;
  ret tt.

End VoiceCallManager.

End Earlier.

(* ================================================================= *)
(** ** Further notions and examples                                   *)
(* ================================================================= *)

Module Notions.

(** A computation that opens no connection. *)
Definition keeps_connections {A : Type} (c : M A) : Prop :=
  forall w r w', c w = (r, w') -> connections w' = connections w.

(** The property names a dictionary must have an entry for. *)
Definition modem_mandatory : list string :=
  ["Online"; "Powered"; "Lockdown"; "Interfaces"; "Type"].

Definition call_mandatory : list string :=
  ["LineIdentification"; "Name"; "Multiparty"; "State"; "Emergency";
   "RemoteHeld"; "RemoteMultiparty"].

(** Whether the [switch] of a listener has a [case] for the name. *)
Definition has_case {P : Type} (case_of : string -> option P) (name : string) : bool :=
  match case_of name with
  | Some _ => true
  | None => false
  end.

(** The listener [iface.on(signal, ...)] leaves behind. *)
Definition listener_of (bus : MessageBus) (path : JsValue) (iface signal : string)
  : Listener :=
  mkListener bus path iface signal.

(** What a write of [value] under [name], started and not awaited,
    leaves in the world: no connection is opened; when the object
    answers the introspection with the interface, one SetProperty call
    follows, carrying the name and the value in a Variant of the
    signature, and a refusal of the call is a rejection nobody
    handles; when the introspection fails, nothing follows it. *)
Definition written (iface name signature : string) (value : JsValue)
    (bus : MessageBus) (path : JsValue) (w w' : World) : Prop :=
  let introspect := Introspect bus "org.ofono" path in
  let write :=
    MethodCall bus path iface "SetProperty" [JStr name; Variant signature value] in
  connections w' = connections w
  /\ (offers w bus path iface ->
      trace w' = (trace w ++ [introspect; write])%list
      /\ (forall e, service w (S (length (trace w))) write = Fault e ->
                    unhandled w' = (unhandled w ++ [e])%list)
      /\ (forall x, service w (S (length (trace w))) write = Answer x ->
                    unhandled w' = unhandled w))
  /\ (forall e, service w (length (trace w)) introspect = Fault e ->
                trace w' = (trace w ++ [introspect])%list
                /\ unhandled w' = (unhandled w ++ [e])%list).

(** An action that calls [member] with [args]: when the introspection
    fails the action rejects with that error and sends nothing else;
    when the object has the interface the one call follows, and the
    action rejects with the error of its reply or resolves. *)
Definition performs (action : M unit) (bus : MessageBus) (path : JsValue)
    (iface member : string) (args : list JsValue) (w : World) : Prop :=
  let introspect := Introspect bus "org.ofono" path in
  let request := MethodCall bus path iface member args in
  (forall e, service w (length (trace w)) introspect = Fault e ->
             action w = (Throw e, sent introspect w))
  /\ (offers w bus path iface ->
      (forall e, service w (S (length (trace w))) request = Fault e ->
                 action w = (Throw e, sent request (sent introspect w)))
      /\ (forall x, service w (S (length (trace w))) request = Answer x ->
                    action w = (Normal tt, sent request (sent introspect w)))).

(** The fields of HandsfreeFeatures and the word of the Features
    array each stands for. *)
Definition feature_words : list (string * string) :=
  [ ("VoiceRecognition", "voice-recognition");
    ("AttachVoiceTag", "attach-voice-tag");
    ("EchoCancellingAndNoiseReduction", "echo-canceling-and-noise-reduction");
    ("ThreeWayCalling", "three-way-calling");
    ("ReleaseAllHeld", "release-all-held");
    ("ReleaseSpecifiedActiveCall", "release-specified-active-call");
    ("PrivateChat", "private-chat");
    ("CreateMultiparty", "create-multiparty");
    ("Transfer", "transfer");
    ("HfIndicators", "hf-indicators") ].

(** The upper-case form of a string of tones. *)
Fixpoint upper (s : string) : string :=
  match s with
  | EmptyString => EmptyString
  | String c s' => String (TonesRegExp.canonicalize c) (upper s')
  end.

(** Whether [ToString] gives a string for the value: every value but an
    object without a primitive form, or an array that holds one. *)
Definition has_string_form (v : JsValue) : bool :=
  match js_to_string v with
  | Normal _ => true
  | Throw _ => false
  end.

(** What [throw new Error(`...${path}...`)] throws: the Error with the
    path in its message, or, when the path has no string form, what
    converting it throws. *)
Definition refusal (before : string) (path : JsValue) (after : string) : Exn :=
  match js_to_string path with
  | Normal s => Error (before ++ s ++ after)
  | Throw e => e
  end.

(** The values above on which [includes] is no function: undefined and
    null, where reading it throws, booleans, numbers and
    dictionaries. *)
Definition lacks_includes (v : JsValue) : bool :=
  match v with
  | JUndefined | JNull | JBool _ | JNum _ | JObj _ => true
  | _ => false
  end.

(** What the pattern [{ value }] binds in an object with fields [fs]. *)
Definition carried (fs : list (string * JsValue)) : JsValue :=
  match assoc "value" fs with
  | Some v => v
  | None => JUndefined
  end.

(** Whether the next introspection of the object is answered with the
    interface; [offers] as a boolean. *)
Definition offered (w : World) (bus : MessageBus) (path : JsValue) (iface : string)
  : bool :=
  match service w (length (trace w)) (Introspect bus "org.ofono" path) with
  | Answer ifaces => has_interface ifaces iface
  | Fault _ => false
  end.

(** What a property dictionary says about a property of a call:
    undefined when it has no entry; otherwise the content of the entry,
    looked up in [VoiceCallState] for State. *)
Definition call_decoded (p : VoiceCall.Property) (props : list (string * JsValue))
  : Completion JsValue :=
  match assoc (VoiceCall.name_of p) props with
  | None => Normal JUndefined
  | Some entry => VoiceCall.stored p (value_of entry)
  end.

End Notions.
Export Notions.

Module MoreExamples.

Definition registration_properties : JsValue :=
  JObj [ ("Mode", Variant "s" (JStr "auto"));
         ("Status", Variant "s" (JStr "registered"));
         ("Technology", Variant "as" (JArr [JStr "gsm"; JStr "lte"]));
         ("Name", Variant "s" (JStr "operator")) ].

Definition handsfree_properties : JsValue :=
  JObj [ ("Features", Variant "as" (JArr [JStr "voice-recognition"; JStr "transfer"]));
         ("InbandRinging", Variant "b" (JBool true));
         ("VoiceRecognition", Variant "b" (JBool false));
         ("BatteryChargeLevel", Variant "y" (JNum 4));
         ("SubscriberNumbers", Variant "as" (JArr [])) ].

Definition modem_entries : list (string * JsValue) :=
  [ ("Online", Variant "b" (JBool true));
    ("Powered", Variant "b" (JBool true));
    ("Lockdown", Variant "b" (JBool false));
    ("Interfaces", Variant "as" (JArr [JStr "org.ofono.VoiceCallManager"]));
    ("Type", Variant "s" (JStr "hardware")) ].

Definition modem_listing : JsValue :=
  JArr [ JArr [JStr "/modem0"; JObj modem_entries];
         JArr [JStr "/modem1"; JObj modem_entries] ].

Definition call_listing : JsValue :=
  JArr [ JArr [Examples.call_path; Examples.call_properties] ].

(** A service that answers every request of every interface. *)
Definition telephony : nat -> Request -> Reply :=
  fun _ r =>
    match r with
    | Introspect _ _ _ => Answer Examples.all_interfaces
    | MethodCall _ _ iface member _ =>
        if String.eqb member "GetProperties" then
          if String.eqb iface "org.ofono.VoiceCallManager"
          then Answer Examples.manager_properties
          else if String.eqb iface "org.ofono.NetworkRegistration"
          then Answer registration_properties
          else if String.eqb iface "org.ofono.Handsfree"
          then Answer handsfree_properties
          else Answer Examples.call_properties
        else if String.eqb member "GetModems" then Answer modem_listing
        else if String.eqb member "GetCalls" then Answer call_listing
        else if String.eqb member "Dial" then Answer Examples.call_path
        else if String.eqb member "PrivateChat" then Answer (JArr [Examples.call_path])
        else if String.eqb member "CreateMultiparty"
        then Answer (JArr [Examples.call_path])
        else Answer JUndefined
    end.

(** A service that answers introspections and refuses every call. *)
Definition refusing : nat -> Request -> Reply :=
  fun _ r =>
    match r with
    | Introspect _ _ _ => Answer Examples.all_interfaces
    | MethodCall _ _ _ _ _ => Fault (DBusError "org.ofono.Error.Failed")
    end.

(** A service whose property dictionaries hold a name and nothing else. *)
Definition scant : nat -> Request -> Reply :=
  fun _ r =>
    match r with
    | Introspect _ _ _ => Answer Examples.all_interfaces
    | MethodCall _ _ _ _ _ => Answer (JObj [("Name", Variant "s" (JStr ""))])
    end.

(** A service that is not there. *)
Definition silent : nat -> Request -> Reply :=
  fun _ _ => Fault (DBusError "org.freedesktop.DBus.Error.ServiceUnknown").

(** A modem with every interface. *)
Definition modem1 : Modem.t :=
  {| Modem._path := JStr "/modem1";
     Modem._online := JBool true;
     Modem._powered := JBool true;
     Modem._lockdown := JBool false;
     Modem._emergency := JNull;
     Modem._name := JNull;
     Modem._serial := JNull;
     Modem._manufacturer := JNull;
     Modem._model := JNull;
     Modem._revision := JNull;
     Modem._interfaces := Examples.all_interfaces;
     Modem._type := JStr "hardware";
     Modem._bus := 0 |}.

End MoreExamples.

(* ================================================================= *)
(** * Properties                                                      *)
(* ================================================================= *)

(** ** What a handler of the common shape does

    The five PropertyChanged listeners share one shape: read [value]
    off the second argument, select a [case] by the name, store, and
    report.  The laws of that shape are proved once. *)

Section ChangeFeed.

Context {T P E : Type}.
Variable all : list P.
Variable name_of : P -> string.
Variable get : P -> T -> JsValue.
Variable set : P -> JsValue -> T -> T.
Variable stored : P -> JsValue -> JsValue.
Variable known : list (Output E).
Variable unknown : string -> list (Output E).
Variable handler : T -> string -> JsValue -> Completion (T * list (Output E)).

Hypothesis handler_shape : forall this name arg,
  handler this name arg =
  cbind (js_get arg "value") (fun value =>
    match select name_of all name with
    | Some p => Normal (set p (stored p value) this, known)
    | None => Normal (this, unknown name)
    end).
Hypothesis get_set_same : forall p v this, get p (set p v this) = v.
Hypothesis get_set_other : forall p q v this, p <> q -> get q (set p v this) = get q this.
Hypothesis all_complete : forall p, In p all.
Hypothesis name_of_inj : forall p q, name_of p = name_of q -> p = q.

Lemma case_of_named name p : select name_of all name = Some p -> name = name_of p.
Proof.
  unfold select. intros H. apply find_some in H. destruct H as [_ H].
  now apply String.eqb_eq.
Qed.

Lemma case_of_name_of p : select name_of all (name_of p) = Some p.
Proof.
  destruct (select name_of all (name_of p)) as [q|] eqn:H.
  - apply case_of_named in H. apply name_of_inj in H. now subst.
  - unfold select in H.
    pose proof (find_none _ _ H p (all_complete p)) as F. simpl in F.
    rewrite String.eqb_refl in F. discriminate.
Qed.

Lemma handler_on_object this name fs :
  handler this name (JObj fs) =
  let value := match assoc "value" fs with Some v => v | None => JUndefined end in
  match select name_of all name with
  | Some p => Normal (set p (stored p value) this, known)
  | None => Normal (this, unknown name)
  end.
Proof. rewrite handler_shape. reflexivity. Qed.

Lemma handler_on_variant this name s v :
  handler this name (Variant s v) =
  match select name_of all name with
  | Some p => Normal (set p (stored p v) this, known)
  | None => Normal (this, unknown name)
  end.
Proof. unfold Variant. rewrite handler_on_object. reflexivity. Qed.

(** A known name: the property takes what its case stores, the others
    keep their values. *)
Lemma handler_known this p s v :
  exists this',
    handler this (name_of p) (Variant s v) = Normal (this', known)
    /\ get p this' = stored p v
    /\ forall q, q <> p -> get q this' = get q this.
Proof.
  rewrite handler_on_variant, case_of_name_of.
  eexists. split; [reflexivity|]. split.
  - apply get_set_same.
  - intros q Hq. apply get_set_other. congruence.
Qed.

(** A name outside the [switch]: nothing is stored. *)
Lemma handler_unknown this name fs :
  (forall p, name_of p <> name) ->
  handler this name (JObj fs) = Normal (this, unknown name).
Proof.
  intros H. rewrite handler_on_object.
  destruct (select name_of all name) as [p|] eqn:C; [|reflexivity].
  apply case_of_named in C. exfalso. now apply (H p).
Qed.

(** The listener returns whenever its second argument is an object,
    and leaves alone every property the notification does not name. *)
Lemma handler_frame this name fs :
  exists this' outs,
    handler this name (JObj fs) = Normal (this', outs)
    /\ forall q, name_of q <> name -> get q this' = get q this.
Proof.
  rewrite handler_on_object.
  destruct (select name_of all name) as [p|] eqn:C.
  - do 2 eexists. split; [reflexivity|].
    intros q Hq. apply get_set_other. intros ->.
    apply case_of_named in C. congruence.
  - do 2 eexists. split; [reflexivity|]. reflexivity.
Qed.

(** Notifications take effect in the order of arrival: afterwards a
    property holds what its case stores for the last value sent under
    its name, and its earlier value if none was. *)
Lemma feed_order this ns :
  exists this' outs,
    deliver handler this (map signal_of ns) = Normal (this', outs)
    /\ forall p, get p this' =
                 match last_value (name_of p) ns with
                 | Some v => stored p v
                 | None => get p this
                 end.
Proof.
  revert this. induction ns as [|n rest IH]; intros this.
  - exists this, []. split; reflexivity.
  - cbn [map]. unfold signal_of at 1. cbn [deliver].
    rewrite handler_on_variant.
    destruct (select name_of all (n_name n)) as [p0|] eqn:C; cbn [cbind fst snd].
    + destruct (IH (set p0 (stored p0 (n_value n)) this)) as (t' & o' & D & G).
      rewrite D. cbn [cbind fst snd]. do 2 eexists. split; [reflexivity|].
      intros p. rewrite G. cbn [last_value].
      destruct (last_value (name_of p) rest); [reflexivity|].
      apply case_of_named in C.
      destruct (String.eqb_spec (n_name n) (name_of p)) as [e|ne].
      * assert (p0 = p) by (apply name_of_inj; congruence). subst p0.
        apply get_set_same.
      * apply get_set_other. intros ->. congruence.
    + destruct (IH this) as (t' & o' & D & G).
      rewrite D. cbn [cbind fst snd]. do 2 eexists. split; [reflexivity|].
      intros p. rewrite G. cbn [last_value].
      destruct (last_value (name_of p) rest); [reflexivity|].
      destruct (String.eqb_spec (n_name n) (name_of p)) as [e|ne]; [|reflexivity].
      rewrite e, case_of_name_of in C. discriminate.
Qed.


End ChangeFeed.

(** A call's listener does not store the value of State as received:
    the case looks it up in the enum, and the lookup throws on a value
    without a string form.  The laws of a listener whose cases convert
    what they store. *)
Section ConvertingFeed.

Context {T P E : Type}.
Variable all : list P.
Variable name_of : P -> string.
Variable get : P -> T -> JsValue.
Variable set : P -> JsValue -> T -> T.
Variable stored : P -> JsValue -> Completion JsValue.
Variable known : list (Output E).
Variable unknown : string -> list (Output E).
Variable handler : T -> string -> JsValue -> Completion (T * list (Output E)).

Hypothesis handler_shape : forall this name arg,
  handler this name arg =
  cbind (js_get arg "value") (fun value =>
    match select name_of all name with
    | Some p => cbind (stored p value) (fun v => Normal (set p v this, known))
    | None => Normal (this, unknown name)
    end).
Hypothesis get_set_same : forall p v this, get p (set p v this) = v.
Hypothesis get_set_other : forall p q v this, p <> q -> get q (set p v this) = get q this.
Hypothesis all_complete : forall p, In p all.
Hypothesis name_of_inj : forall p q, name_of p = name_of q -> p = q.

Lemma converting_on_object this name fs :
  handler this name (JObj fs) =
  match select name_of all name with
  | Some p => cbind (stored p (carried fs)) (fun v => Normal (set p v this, known))
  | None => Normal (this, unknown name)
  end.
Proof. rewrite handler_shape. reflexivity. Qed.

(** A known name whose value converts: the property takes the result,
    the others keep their values. *)
Lemma converting_known this p fs r :
  stored p (carried fs) = Normal r ->
  exists this',
    handler this (name_of p) (JObj fs) = Normal (this', known)
    /\ get p this' = r
    /\ forall q, q <> p -> get q this' = get q this.
Proof.
  intros H.
  rewrite converting_on_object, (case_of_name_of all name_of all_complete name_of_inj), H.
  eexists. split; [reflexivity|]. split.
  - apply get_set_same.
  - intros q Hq. apply get_set_other. congruence.
Qed.

(** A known name whose value does not convert: the listener throws. *)
Lemma converting_throws this p fs e :
  stored p (carried fs) = Throw e ->
  handler this (name_of p) (JObj fs) = Throw e.
Proof.
  intros H.
  now rewrite converting_on_object,
    (case_of_name_of all name_of all_complete name_of_inj), H.
Qed.

Lemma converting_unknown this name fs :
  (forall p, name_of p <> name) ->
  handler this name (JObj fs) = Normal (this, unknown name).
Proof.
  intros H. rewrite converting_on_object.
  destruct (select name_of all name) as [p|] eqn:C; [|reflexivity].
  apply (case_of_named all name_of) in C. exfalso. now apply (H p).
Qed.

(** Notifications whose values convert take effect in the order of
    arrival, and each is reported. *)
Lemma converting_feed this ns :
  (forall n p, In n ns -> select name_of all (n_name n) = Some p ->
               exists r, stored p (n_value n) = Normal r) ->
  exists this',
    deliver handler this (map signal_of ns)
    = Normal (this',
              flat_map (fun n => if has_case (select name_of all) (n_name n)
                                 then known else unknown (n_name n)) ns)
    /\ forall p, match last_value (name_of p) ns with
                 | Some v => stored p v = Normal (get p this')
                 | None => get p this' = get p this
                 end.
Proof.
  revert this. induction ns as [|n rest IH]; intros this Hc.
  - exists this. split; [reflexivity|]. intros p. reflexivity.
  - assert (forall n p, In n rest -> select name_of all (n_name n) = Some p ->
                        exists r, stored p (n_value n) = Normal r) as Hrest
      by (intros n0 p0 Hin; apply Hc; now right).
    cbn [map flat_map]. unfold signal_of at 1. cbn [deliver].
    unfold Variant. rewrite converting_on_object. unfold has_case at 1.
    change (carried [("signature", JStr (n_signature n)); ("value", n_value n)])
      with (n_value n).
    destruct (select name_of all (n_name n)) as [p0|] eqn:C; cbn [cbind fst snd].
    + destruct (Hc n p0 (or_introl eq_refl) C) as (r & Hr). rewrite Hr.
      cbn [cbind fst snd].
      destruct (IH (set p0 r this) Hrest) as (t' & D & G).
      rewrite D. cbn [cbind fst snd]. eexists. split; [reflexivity|].
      intros p. specialize (G p). cbn [last_value].
      destruct (last_value (name_of p) rest); [exact G|].
      apply (case_of_named all name_of) in C.
      destruct (String.eqb_spec (n_name n) (name_of p)) as [e|ne].
      * assert (p0 = p) by (apply name_of_inj; congruence). subst p0.
        rewrite G, get_set_same. exact Hr.
      * rewrite G. apply get_set_other. intros ->. congruence.
    + destruct (IH this Hrest) as (t' & D & G).
      rewrite D. cbn [cbind fst snd]. eexists. split; [reflexivity|].
      intros p. specialize (G p). cbn [last_value].
      destruct (last_value (name_of p) rest); [exact G|].
      destruct (String.eqb_spec (n_name n) (name_of p)) as [e|ne]; [|exact G].
      rewrite e, (case_of_name_of all name_of all_complete name_of_inj) in C.
      discriminate.
Qed.

End ConvertingFeed.

(** ** The five listeners have that shape *)

Ltac field_cases p := destruct p; reflexivity.
Ltac field_cases2 p q :=
  destruct p, q; intros H; try reflexivity; solve [exfalso; apply H; reflexivity].
Ltac name_cases p q :=
  destruct p, q; intros H; try reflexivity; discriminate H.
Ltac listed p := destruct p; simpl; tauto.

Lemma Modem_get_set_same p v this : Modem.get p (Modem.set p v this) = v.
Proof. field_cases p. Qed.

Lemma Modem_get_set_other p q v this :
  p <> q -> Modem.get q (Modem.set p v this) = Modem.get q this.
Proof. field_cases2 p q. Qed.

Lemma Modem_all_complete p : In p Modem.all.
Proof. listed p. Qed.

Lemma Modem_name_of_inj p q : Modem.name_of p = Modem.name_of q -> p = q.
Proof. name_cases p q. Qed.

Lemma Modem_handler_shape this name arg :
  Modem.on_PropertyChanged this name arg =
  cbind (js_get arg "value") (fun value =>
    match Modem.case_of name with
    | Some p => Normal (Modem.set p (as_received p value) this, [Emit Modem.change])
    | None =>
        Normal (this,
                [Warn ("node-ofono: Modem: Unhandled property change: " ++ name)])
    end).
Proof. reflexivity. Qed.

Lemma VoiceCall_get_set_same p v this : VoiceCall.get p (VoiceCall.set p v this) = v.
Proof. field_cases p. Qed.

Lemma VoiceCall_get_set_other p q v this :
  p <> q -> VoiceCall.get q (VoiceCall.set p v this) = VoiceCall.get q this.
Proof. field_cases2 p q. Qed.

Lemma VoiceCall_all_complete p : In p VoiceCall.all.
Proof. listed p. Qed.

Lemma VoiceCall_name_of_inj p q : VoiceCall.name_of p = VoiceCall.name_of q -> p = q.
Proof. name_cases p q. Qed.

Lemma VoiceCall_handler_shape this name arg :
  VoiceCall.on_PropertyChanged this name arg =
  cbind (js_get arg "value") (fun value =>
    match VoiceCall.case_of name with
    | Some p =>
        cbind (VoiceCall.stored p value)
              (fun v => Normal (VoiceCall.set p v this, [Emit VoiceCall.change]))
    | None =>
        Normal (this,
                [Warn ("node-ofono: VoiceCall: Unhandled property change: " ++ name)])
    end).
Proof. reflexivity. Qed.

Lemma NetworkRegistration_get_set_same p v this :
  NetworkRegistration.get p (NetworkRegistration.set p v this) = v.
Proof. field_cases p. Qed.

Lemma NetworkRegistration_get_set_other p q v this :
  p <> q ->
  NetworkRegistration.get q (NetworkRegistration.set p v this)
  = NetworkRegistration.get q this.
Proof. field_cases2 p q. Qed.

Lemma NetworkRegistration_all_complete p : In p NetworkRegistration.all.
Proof. listed p. Qed.

Lemma NetworkRegistration_name_of_inj p q :
  NetworkRegistration.name_of p = NetworkRegistration.name_of q -> p = q.
Proof. name_cases p q. Qed.

Lemma NetworkRegistration_handler_shape this name arg :
  NetworkRegistration.on_PropertyChanged this name arg =
  cbind (js_get arg "value") (fun value =>
    match NetworkRegistration.case_of name with
    | Some p =>
        Normal (NetworkRegistration.set p (as_received p value) this,
                [Emit NetworkRegistration.change])
    | None =>
        Normal (this,
                [Warn ("node-ofono: NetworkRegistration: Unhandled property change: "
                       ++ name);
                 Emit NetworkRegistration.change])
    end).
Proof. reflexivity. Qed.

Lemma Handsfree_get_set_same p v this : Handsfree.get p (Handsfree.set p v this) = v.
Proof. field_cases p. Qed.

Lemma Handsfree_get_set_other p q v this :
  p <> q -> Handsfree.get q (Handsfree.set p v this) = Handsfree.get q this.
Proof. field_cases2 p q. Qed.

Lemma Handsfree_all_complete p : In p Handsfree.all.
Proof. listed p. Qed.

Lemma Handsfree_name_of_inj p q : Handsfree.name_of p = Handsfree.name_of q -> p = q.
Proof. name_cases p q. Qed.

Lemma Handsfree_handler_shape this name arg :
  Handsfree.on_PropertyChanged this name arg =
  cbind (js_get arg "value") (fun value =>
    match Handsfree.case_of name with
    | Some p => Normal (Handsfree.set p (as_received p value) this, [Emit Handsfree.change])
    | None =>
        Normal (this,
                [Warn ("node-ofono: Handsfree: Unhandled property change: " ++ name)])
    end).
Proof. reflexivity. Qed.

Lemma VoiceCallManager_get_set_same p v this :
  VoiceCallManager.get p (VoiceCallManager.set p v this) = v.
Proof. field_cases p. Qed.

Lemma VoiceCallManager_get_set_other p q v this :
  p <> q ->
  VoiceCallManager.get q (VoiceCallManager.set p v this) = VoiceCallManager.get q this.
Proof. field_cases2 p q. Qed.

Lemma VoiceCallManager_all_complete p : In p VoiceCallManager.all.
Proof. listed p. Qed.

Lemma VoiceCallManager_name_of_inj p q :
  VoiceCallManager.name_of p = VoiceCallManager.name_of q -> p = q.
Proof. name_cases p q. Qed.

Lemma VoiceCallManager_handler_shape this name arg :
  VoiceCallManager.on_PropertyChanged this name arg =
  cbind (js_get arg "value") (fun value =>
    match VoiceCallManager.case_of name with
    | Some p => Normal (VoiceCallManager.set p (as_received p value) this, [])
    | None =>
        Normal (this,
                [Warn ("node-ofono: VoiceCallManager: unhandled property change: "
                       ++ name)])
    end).
Proof. reflexivity. Qed.

(** ** The order of arrival, per mirror *)

Lemma Modem_feed_order this ns :
  exists this' outs,
    deliver Modem.on_PropertyChanged this (map signal_of ns) = Normal (this', outs)
    /\ forall p, Modem.get p this' =
                 match last_value (Modem.name_of p) ns with
                 | Some v => v
                 | None => Modem.get p this
                 end.
Proof.
  exact (feed_order Modem.all Modem.name_of Modem.get Modem.set as_received _ _ _ Modem_handler_shape
           Modem_get_set_same Modem_get_set_other Modem_all_complete
           Modem_name_of_inj this ns).
Qed.

Lemma NetworkRegistration_feed_order this ns :
  exists this' outs,
    deliver NetworkRegistration.on_PropertyChanged this (map signal_of ns)
    = Normal (this', outs)
    /\ forall p, NetworkRegistration.get p this' =
                 match last_value (NetworkRegistration.name_of p) ns with
                 | Some v => v
                 | None => NetworkRegistration.get p this
                 end.
Proof.
  exact (feed_order NetworkRegistration.all NetworkRegistration.name_of NetworkRegistration.get NetworkRegistration.set as_received _ _ _ NetworkRegistration_handler_shape
           NetworkRegistration_get_set_same NetworkRegistration_get_set_other
           NetworkRegistration_all_complete NetworkRegistration_name_of_inj this ns).
Qed.

Lemma Handsfree_feed_order this ns :
  exists this' outs,
    deliver Handsfree.on_PropertyChanged this (map signal_of ns) = Normal (this', outs)
    /\ forall p, Handsfree.get p this' =
                 match last_value (Handsfree.name_of p) ns with
                 | Some v => v
                 | None => Handsfree.get p this
                 end.
Proof.
  exact (feed_order Handsfree.all Handsfree.name_of Handsfree.get Handsfree.set as_received _ _ _ Handsfree_handler_shape
           Handsfree_get_set_same Handsfree_get_set_other Handsfree_all_complete
           Handsfree_name_of_inj this ns).
Qed.

Lemma VoiceCallManager_feed_order this ns :
  exists this' outs,
    deliver VoiceCallManager.on_PropertyChanged this (map signal_of ns)
    = Normal (this', outs)
    /\ forall p, VoiceCallManager.get p this' =
                 match last_value (VoiceCallManager.name_of p) ns with
                 | Some v => v
                 | None => VoiceCallManager.get p this
                 end.
Proof.
  exact (feed_order VoiceCallManager.all VoiceCallManager.name_of VoiceCallManager.get VoiceCallManager.set as_received _ _ _ VoiceCallManager_handler_shape
           VoiceCallManager_get_set_same VoiceCallManager_get_set_other
           VoiceCallManager_all_complete VoiceCallManager_name_of_inj this ns).
Qed.

(** What a call's case stores: the value, and for State the result of
    the lookup, which there is whenever the value has a string form. *)
Lemma VoiceCall_stored_other p v :
  p <> VoiceCall.State -> VoiceCall.stored p v = Normal v.
Proof. destruct p; intros H; try reflexivity. now elim H. Qed.

Lemma enum_lookup_converts members v :
  has_string_form v = true -> exists r, enum_lookup members v = Normal r.
Proof.
  unfold has_string_form, enum_lookup.
  destruct (js_to_string v) as [key|e]; [|discriminate].
  intros _. eexists. reflexivity.
Qed.

Lemma enum_lookup_throws members v :
  has_string_form v = false -> exists e, enum_lookup members v = Throw e.
Proof.
  unfold has_string_form, enum_lookup.
  destruct (js_to_string v) as [key|e]; [discriminate|].
  intros _. eexists. reflexivity.
Qed.

(** Which values have a string form: the primitive ones all have; a
    dictionary has one when it has no entry named toString, and none
    when it has such an entry and what it and an entry named valueOf
    hold is data, not a function. *)
Lemma string_form_of_primitive v : is_object v = false -> has_string_form v = true.
Proof.
  destruct v as [| |[]|n|s|l|fs|k]; intros H; try discriminate H; reflexivity.
Qed.

Lemma string_form_of_dictionary fs :
  (assoc "toString" fs = None -> has_string_form (JObj fs) = true)
  /\ (forall m,
      assoc "toString" fs = Some m -> is_callable m = false ->
      (forall n, assoc "valueOf" fs = Some n -> is_callable n = false) ->
      has_string_form (JObj fs) = false).
Proof.
  unfold has_string_form. cbn [js_to_string]. unfold object_to_primitive.
  split.
  - intros H. unfold call_method. rewrite H. reflexivity.
  - intros m Hm Cm Hv.
    assert (call_method "toString" fs = None) as ->.
    { unfold call_method. rewrite Hm. destruct m; try reflexivity. now rewrite Cm. }
    destruct (assoc "valueOf" fs) as [n|] eqn:V.
    + assert (call_method "valueOf" fs = None) as ->.
      { unfold call_method. rewrite V. specialize (Hv n eq_refl).
        destruct n; try reflexivity. now rewrite Hv. }
      reflexivity.
    + unfold call_method. rewrite V. reflexivity.
Qed.

Lemma VoiceCall_stored_converts p v :
  (p = VoiceCall.State -> has_string_form v = true) ->
  exists r, VoiceCall.stored p v = Normal r.
Proof.
  intros H. destruct p; try (eexists; reflexivity).
  apply enum_lookup_converts. now apply H.
Qed.

Lemma VoiceCall_case_of_State name :
  VoiceCall.case_of name = Some VoiceCall.State -> name = "State".
Proof.
  intros H. exact (case_of_named VoiceCall.all VoiceCall.name_of name _ H).
Qed.

(** A call keeps the order too, as long as the values sent for State
    have a string form; what it holds for State is the result of
    [VoiceCallState[value]], not the value. *)
Lemma VoiceCall_feed_order this ns :
  (forall n, In n ns -> n_name n = "State" -> has_string_form (n_value n) = true) ->
  exists this' outs,
    deliver VoiceCall.on_PropertyChanged this (map signal_of ns) = Normal (this', outs)
    /\ forall p, match last_value (VoiceCall.name_of p) ns with
                 | Some v => VoiceCall.stored p v = Normal (VoiceCall.get p this')
                 | None => VoiceCall.get p this' = VoiceCall.get p this
                 end.
Proof.
  intros Hs.
  destruct (converting_feed VoiceCall.all VoiceCall.name_of VoiceCall.get VoiceCall.set
              VoiceCall.stored _ _ _ VoiceCall_handler_shape
              VoiceCall_get_set_same VoiceCall_get_set_other VoiceCall_all_complete
              VoiceCall_name_of_inj this ns) as (this' & D & G).
  - intros n p Hin C. apply VoiceCall_stored_converts. intros ->.
    apply Hs; [exact Hin|]. now apply VoiceCall_case_of_State.
  - exists this'. eexists. split; [exact D | exact G].
Qed.

(** [VoiceCallState[value]] is a member only for the capitalised member
    names; the words oFono sends are the members' values. *)
Lemma VoiceCallState_of_wire_word w :
  In w (map snd VoiceCall.VoiceCallState) ->
  enum_lookup VoiceCall.VoiceCallState (JStr w) = Normal JUndefined.
Proof.
  simpl. intros H.
  repeat (destruct H as [<-|H]; [reflexivity|]). contradiction.
Qed.

(** C1 (the code departs from it). The specification: after any sequence of
    PropertyChanged notifications every modeled property of a live
    mirror equals the value carried by the last notification naming it.
    A live call in state "active" that receives the single notification
    State = "held" ends with [state] undefined: the listener stores
    [VoiceCallState["held"]], and the enum object has the key "Held",
    not "held". *)
Theorem C1_call_state_after_notification :
  let ns := [mkNotification "State" "s" (JStr "held")] in
  last_value (VoiceCall.name_of VoiceCall.State) ns = Some (JStr "held")
  /\ exists call',
       deliver VoiceCall.on_PropertyChanged Examples.call0 (map signal_of ns)
       = Normal (call', [Emit VoiceCall.change])
       /\ VoiceCall.state call' = JUndefined
       /\ VoiceCall.state call' <> JStr "held".
Proof.
  split; [reflexivity|].
  eexists. split; [reflexivity|]. split; [reflexivity|]. discriminate.
Qed.

(** ** What a single notification changes *)

Lemma Modem_frame this name fs :
  exists this' outs,
    Modem.on_PropertyChanged this name (JObj fs) = Normal (this', outs)
    /\ forall q, Modem.name_of q <> name -> Modem.get q this' = Modem.get q this.
Proof.
  exact (handler_frame Modem.all Modem.name_of Modem.get Modem.set as_received _ _ _ Modem_handler_shape
           Modem_get_set_other this name fs).
Qed.

Lemma VoiceCall_frame this name fs :
  (name = "State" -> has_string_form (carried fs) = true) ->
  exists this' outs,
    VoiceCall.on_PropertyChanged this name (JObj fs) = Normal (this', outs)
    /\ forall q, VoiceCall.name_of q <> name ->
                 VoiceCall.get q this' = VoiceCall.get q this.
Proof.
  intros Hs.
  rewrite (converting_on_object VoiceCall.all VoiceCall.name_of VoiceCall.set
             VoiceCall.stored _ _ _ VoiceCall_handler_shape).
  destruct (select VoiceCall.name_of VoiceCall.all name) as [p|] eqn:C.
  - destruct (VoiceCall_stored_converts p (carried fs)) as (r & ->).
    { intros ->. apply Hs. now apply VoiceCall_case_of_State. }
    do 2 eexists. split; [reflexivity|].
    intros q Hq. apply VoiceCall_get_set_other. intros ->.
    apply (case_of_named VoiceCall.all VoiceCall.name_of) in C. congruence.
  - do 2 eexists. split; [reflexivity|]. reflexivity.
Qed.

Lemma NetworkRegistration_frame this name fs :
  exists this' outs,
    NetworkRegistration.on_PropertyChanged this name (JObj fs) = Normal (this', outs)
    /\ forall q, NetworkRegistration.name_of q <> name ->
                 NetworkRegistration.get q this' = NetworkRegistration.get q this.
Proof.
  exact (handler_frame NetworkRegistration.all NetworkRegistration.name_of NetworkRegistration.get NetworkRegistration.set as_received _ _ _ NetworkRegistration_handler_shape
           NetworkRegistration_get_set_other this name fs).
Qed.

Lemma Handsfree_frame this name fs :
  exists this' outs,
    Handsfree.on_PropertyChanged this name (JObj fs) = Normal (this', outs)
    /\ forall q, Handsfree.name_of q <> name ->
                 Handsfree.get q this' = Handsfree.get q this.
Proof.
  exact (handler_frame Handsfree.all Handsfree.name_of Handsfree.get Handsfree.set as_received _ _ _ Handsfree_handler_shape
           Handsfree_get_set_other this name fs).
Qed.

Lemma VoiceCallManager_frame this name fs :
  exists this' outs,
    VoiceCallManager.on_PropertyChanged this name (JObj fs) = Normal (this', outs)
    /\ forall q, VoiceCallManager.name_of q <> name ->
                 VoiceCallManager.get q this' = VoiceCallManager.get q this.
Proof.
  exact (handler_frame VoiceCallManager.all VoiceCallManager.name_of VoiceCallManager.get VoiceCallManager.set as_received _ _ _ VoiceCallManager_handler_shape
           VoiceCallManager_get_set_other this name fs).
Qed.

Lemma Modem_stores this p s v :
  exists this',
    Modem.on_PropertyChanged this (Modem.name_of p) (Variant s v)
    = Normal (this', [Emit Modem.change])
    /\ Modem.get p this' = v
    /\ forall q, q <> p -> Modem.get q this' = Modem.get q this.
Proof.
  exact (handler_known Modem.all Modem.name_of Modem.get Modem.set as_received _ _ _ Modem_handler_shape
           Modem_get_set_same Modem_get_set_other Modem_all_complete
           Modem_name_of_inj this p s v).
Qed.

Lemma VoiceCall_stores this p s v r :
  VoiceCall.stored p v = Normal r ->
  exists this',
    VoiceCall.on_PropertyChanged this (VoiceCall.name_of p) (Variant s v)
    = Normal (this', [Emit VoiceCall.change])
    /\ VoiceCall.get p this' = r
    /\ forall q, q <> p -> VoiceCall.get q this' = VoiceCall.get q this.
Proof.
  intros H.
  exact (converting_known VoiceCall.all VoiceCall.name_of VoiceCall.get VoiceCall.set
           VoiceCall.stored _ _ _ VoiceCall_handler_shape
           VoiceCall_get_set_same VoiceCall_get_set_other VoiceCall_all_complete
           VoiceCall_name_of_inj this p
           [("signature", JStr s); ("value", v)] r H).
Qed.

(** A State value without a string form: the lookup throws out of the
    listener. *)
Lemma VoiceCall_State_throws this s v e :
  enum_lookup VoiceCall.VoiceCallState v = Throw e ->
  VoiceCall.on_PropertyChanged this "State" (Variant s v) = Throw e.
Proof.
  intros H.
  exact (converting_throws VoiceCall.all VoiceCall.name_of VoiceCall.set
           VoiceCall.stored _ _ _ VoiceCall_handler_shape
           VoiceCall_all_complete VoiceCall_name_of_inj this VoiceCall.State
           [("signature", JStr s); ("value", v)] e H).
Qed.

Lemma NetworkRegistration_stores this p s v :
  exists this',
    NetworkRegistration.on_PropertyChanged this (NetworkRegistration.name_of p)
                                           (Variant s v)
    = Normal (this', [Emit NetworkRegistration.change])
    /\ NetworkRegistration.get p this' = v
    /\ forall q, q <> p ->
                 NetworkRegistration.get q this' = NetworkRegistration.get q this.
Proof.
  exact (handler_known NetworkRegistration.all NetworkRegistration.name_of NetworkRegistration.get NetworkRegistration.set as_received _ _ _ NetworkRegistration_handler_shape
           NetworkRegistration_get_set_same NetworkRegistration_get_set_other
           NetworkRegistration_all_complete NetworkRegistration_name_of_inj
           this p s v).
Qed.

Lemma Handsfree_stores this p s v :
  exists this',
    Handsfree.on_PropertyChanged this (Handsfree.name_of p) (Variant s v)
    = Normal (this', [Emit Handsfree.change])
    /\ Handsfree.get p this' = v
    /\ forall q, q <> p -> Handsfree.get q this' = Handsfree.get q this.
Proof.
  exact (handler_known Handsfree.all Handsfree.name_of Handsfree.get Handsfree.set as_received _ _ _ Handsfree_handler_shape
           Handsfree_get_set_same Handsfree_get_set_other Handsfree_all_complete
           Handsfree_name_of_inj this p s v).
Qed.

Lemma VoiceCallManager_stores this p s v :
  exists this',
    VoiceCallManager.on_PropertyChanged this (VoiceCallManager.name_of p)
                                        (Variant s v)
    = Normal (this', [])
    /\ VoiceCallManager.get p this' = v
    /\ forall q, q <> p -> VoiceCallManager.get q this' = VoiceCallManager.get q this.
Proof.
  exact (handler_known VoiceCallManager.all VoiceCallManager.name_of VoiceCallManager.get VoiceCallManager.set as_received _ _ _ VoiceCallManager_handler_shape
           VoiceCallManager_get_set_same VoiceCallManager_get_set_other
           VoiceCallManager_all_complete VoiceCallManager_name_of_inj this p s v).
Qed.

(** The pattern [{ value }] is the one step of a listener that can
    throw: when the second argument is undefined or null. *)
Lemma listener_throws_without_variant this name :
  exists e, VoiceCall.on_PropertyChanged this name JUndefined = Throw e.
Proof. eexists. reflexivity. Qed.





(** ** Names outside the [switch] *)

Lemma Modem_unknown this name fs :
  (forall p, Modem.name_of p <> name) ->
  exists outs,
    Modem.on_PropertyChanged this name (JObj fs) = Normal (this, outs)
    /\ emitted outs = [] /\ warned outs <> [].
Proof.
  intros H. eexists. split.
  - exact (handler_unknown Modem.all Modem.name_of Modem.set as_received _ _ _ Modem_handler_shape this name fs H).
  - split; [reflexivity | discriminate].
Qed.

Lemma VoiceCall_unknown this name fs :
  (forall p, VoiceCall.name_of p <> name) ->
  exists outs,
    VoiceCall.on_PropertyChanged this name (JObj fs) = Normal (this, outs)
    /\ emitted outs = [] /\ warned outs <> [].
Proof.
  intros H. eexists. split.
  - exact (converting_unknown VoiceCall.all VoiceCall.name_of VoiceCall.set
             VoiceCall.stored _ _ _ VoiceCall_handler_shape this name fs H).
  - split; [reflexivity | discriminate].
Qed.

Lemma Handsfree_unknown this name fs :
  (forall p, Handsfree.name_of p <> name) ->
  exists outs,
    Handsfree.on_PropertyChanged this name (JObj fs) = Normal (this, outs)
    /\ emitted outs = [] /\ warned outs <> [].
Proof.
  intros H. eexists. split.
  - exact (handler_unknown Handsfree.all Handsfree.name_of Handsfree.set as_received _ _ _ Handsfree_handler_shape
             this name fs H).
  - split; [reflexivity | discriminate].
Qed.

Lemma VoiceCallManager_unknown this name fs :
  (forall p, VoiceCallManager.name_of p <> name) ->
  exists outs,
    VoiceCallManager.on_PropertyChanged this name (JObj fs) = Normal (this, outs)
    /\ emitted outs = [] /\ warned outs <> [].
Proof.
  intros H. eexists. split.
  - exact (handler_unknown VoiceCallManager.all VoiceCallManager.name_of VoiceCallManager.set as_received _ _ _ VoiceCallManager_handler_shape
             this name fs H).
  - split; [reflexivity | discriminate].
Qed.

(** NetworkRegistration warns and keeps its fields as well, and then
    emits [change]: its [default] case ends in [break] where the other
    four end in [return]. *)
Lemma NetworkRegistration_unknown this name fs :
  (forall p, NetworkRegistration.name_of p <> name) ->
  exists outs,
    NetworkRegistration.on_PropertyChanged this name (JObj fs) = Normal (this, outs)
    /\ emitted outs = [NetworkRegistration.change] /\ warned outs <> [].
Proof.
  intros H. eexists. split.
  - exact (handler_unknown NetworkRegistration.all NetworkRegistration.name_of NetworkRegistration.set as_received _ _ _ NetworkRegistration_handler_shape
             this name fs H).
  - split; [reflexivity | discriminate].
Qed.

(** C5 (the code departs from it). The specification: a notification whose name
    the mirror does not model is logged and ignored, no field changes
    and no [change] event is emitted.  A NetworkRegistration that
    receives PropertyChanged("Capabilities", ...) warns, keeps its
    fields, and emits [change]. *)
Theorem C5_registration_emits_change_for_unknown_name :
  (forall p, NetworkRegistration.name_of p <> "Capabilities")
  /\ NetworkRegistration.on_PropertyChanged
       Examples.registration0 "Capabilities" (Variant "as" (JArr []))
     = Normal (Examples.registration0,
               [Warn "node-ofono: NetworkRegistration: Unhandled property change: Capabilities";
                Emit NetworkRegistration.change])
  /\ (exists outs,
        Modem.on_PropertyChanged Examples.modem0 "Capabilities" (Variant "as" (JArr []))
        = Normal (Examples.modem0, outs) /\ emitted outs = []).
Proof.
  split; [intros p; destruct p; discriminate|].
  split; [reflexivity|].
  eexists. split; reflexivity.
Qed.

(** ** Setters *)

Lemma spawn_returns {A} (promise : M A) w :
  exists w', spawn promise w = (Normal tt, w').
Proof.
  unfold spawn. destruct (promise w) as [[a|e] w']; eexists; reflexivity.
Qed.

Ltac setter_then_notification setter assign stores s x :=
  let this := fresh "this" in
  let w1 := fresh "w" in
  let E := fresh "E" in
  let this2 := fresh "this" in
  let H2 := fresh "H" in
  let G2 := fresh "G" in
  intros this; unfold setter, bind, ret;
  match goal with
  | |- context [spawn ?p ?w] => destruct (spawn_returns p w) as (w1 & E)
  end;
  destruct (stores (assign this) s x) as (this2 & H2 & G2 & _);
  exists (assign this), w1, this2; eexists;
  split; [rewrite E; reflexivity|];
  split; [reflexivity|];
  split; [exact H2 | exact G2].

(** C6. For each of the six writable properties: the setter stores its
    argument, and a PropertyChanged notification for the same property
    that follows leaves the snapshot at the notification's value,
    whatever the two values are. *)
Theorem C6_notification_wins_over_setter (v x : JsValue) (s : string) (w : World) :
  (forall this, exists this1 w1 this2 outs,
      Modem.set_online v this w = (Normal this1, w1)
      /\ Modem.online this1 = v
      /\ Modem.on_PropertyChanged this1 "Online" (Variant s x) = Normal (this2, outs)
      /\ Modem.online this2 = x)
  /\ (forall this, exists this1 w1 this2 outs,
      Modem.set_powered v this w = (Normal this1, w1)
      /\ Modem.powered this1 = v
      /\ Modem.on_PropertyChanged this1 "Powered" (Variant s x) = Normal (this2, outs)
      /\ Modem.powered this2 = x)
  /\ (forall this, exists this1 w1 this2 outs,
      Modem.set_lockdown v this w = (Normal this1, w1)
      /\ Modem.lockdown this1 = v
      /\ Modem.on_PropertyChanged this1 "Lockdown" (Variant s x) = Normal (this2, outs)
      /\ Modem.lockdown this2 = x)
  /\ (forall this, exists this1 w1 this2 outs,
      Handsfree.set_voiceRecognition v this w = (Normal this1, w1)
      /\ Handsfree.voiceRecognition this1 = v
      /\ Handsfree.on_PropertyChanged this1 "VoiceRecognition" (Variant s x)
         = Normal (this2, outs)
      /\ Handsfree.voiceRecognition this2 = x)
  /\ (forall this, exists this1 w1 this2 outs,
      Handsfree.set_echoCancellingNoiseReduction v this w = (Normal this1, w1)
      /\ Handsfree.echoCancellingNoiseReduction this1 = v
      /\ Handsfree.on_PropertyChanged this1 "EchoCancellingNoiseReduction" (Variant s x)
         = Normal (this2, outs)
      /\ Handsfree.echoCancellingNoiseReduction this2 = x)
  /\ (forall this, exists this1 w1 this2 outs,
      Handsfree.set_distractedDrivingReduction v this w = (Normal this1, w1)
      /\ Handsfree.distractedDrivingReduction this1 = v
      /\ Handsfree.on_PropertyChanged this1 "DistractedDrivingReduction" (Variant s x)
         = Normal (this2, outs)
      /\ Handsfree.distractedDrivingReduction this2 = x).
Proof.
  split; [setter_then_notification
            Modem.set_online (Modem.set Modem.Online v)
            (fun t => Modem_stores t Modem.Online) s x|].
  split; [setter_then_notification
            Modem.set_powered (Modem.set Modem.Powered v)
            (fun t => Modem_stores t Modem.Powered) s x|].
  split; [setter_then_notification
            Modem.set_lockdown (Modem.set Modem.Lockdown v)
            (fun t => Modem_stores t Modem.Lockdown) s x|].
  split; [setter_then_notification
            Handsfree.set_voiceRecognition
            (Handsfree.set Handsfree.VoiceRecognition v)
            (fun t => Handsfree_stores t Handsfree.VoiceRecognition) s x|].
  split; [setter_then_notification
            Handsfree.set_echoCancellingNoiseReduction
            (Handsfree.set Handsfree.EchoCancellingNoiseReduction v)
            (fun t => Handsfree_stores t Handsfree.EchoCancellingNoiseReduction) s x|].
  setter_then_notification
    Handsfree.set_distractedDrivingReduction
    (Handsfree.set Handsfree.DistractedDrivingReduction v)
    (fun t => Handsfree_stores t Handsfree.DistractedDrivingReduction) s x.
Qed.

(** ** The bus *)

Lemma bind_normal {A B} (c : M A) (k : A -> M B) w a w1 :
  c w = (Normal a, w1) -> bind c k w = k a w1.
Proof. intros H. unfold bind. now rewrite H. Qed.

Lemma bind_throw {A B} (c : M A) (k : A -> M B) w e w1 :
  c w = (Throw e, w1) -> bind c k w = (Throw e, w1).
Proof. intros H. unfold bind. now rewrite H. Qed.

Lemma bind_normal_inv {A B} (c : M A) (k : A -> M B) w b w' :
  bind c k w = (Normal b, w') ->
  exists a w1, c w = (Normal a, w1) /\ k a w1 = (Normal b, w').
Proof.
  unfold bind. destruct (c w) as [[a|e] w1]; intros H.
  - now exists a, w1.
  - discriminate.
Qed.

Lemma rpc_answer r w v :
  service w (length (trace w)) r = Answer v -> rpc r w = (Normal v, sent r w).
Proof. intros H. unfold rpc. now rewrite H. Qed.

Lemma rpc_fault r w e :
  service w (length (trace w)) r = Fault e -> rpc r w = (Throw e, sent r w).
Proof. intros H. unfold rpc. now rewrite H. Qed.

Lemma rpc_sends r w : snd (rpc r w) = sent r w.
Proof. unfold rpc. now destruct (service w (length (trace w)) r). Qed.

Lemma length_trace_sent r w : length (trace (sent r w)) = S (length (trace w)).
Proof. simpl. rewrite length_app. simpl. lia. Qed.

(** [getProxyObject] and [getInterface] in a row, as every method
    starts: one introspection, and the interface if the object has it. *)
Lemma interface_obtained w bus path iface :
  offers w bus path iface ->
  bind (getProxyObject bus "org.ofono" path) (fun proxy => getInterface proxy iface) w
  = (Normal (mkInterface bus path iface), sent (Introspect bus "org.ofono" path) w).
Proof.
  intros (ifaces & Hs & Hi).
  unfold getProxyObject.
  rewrite (bind_normal _ _ w (mkProxy bus path ifaces)
             (sent (Introspect bus "org.ofono" path) w)).
  - unfold getInterface. simpl. now rewrite Hi.
  - rewrite (bind_normal _ _ w ifaces (sent (Introspect bus "org.ofono" path) w));
      [reflexivity | now apply rpc_answer].
Qed.

Lemma interface_refused w bus path iface e :
  service w (length (trace w)) (Introspect bus "org.ofono" path) = Fault e ->
  bind (getProxyObject bus "org.ofono" path) (fun proxy => getInterface proxy iface) w
  = (Throw e, sent (Introspect bus "org.ofono" path) w).
Proof.
  intros Hs. apply bind_throw. unfold getProxyObject.
  apply bind_throw. now apply rpc_fault.
Qed.

(** ** The check of the modem's interfaces *)

Lemma is_str_true s x : is_str s x = true <-> x = JStr s.
Proof.
  destruct x; simpl; try (split; [discriminate | discriminate]).
  rewrite String.eqb_eq. split; congruence.
Qed.

Lemma index_from_absent s l i : ~ In (JStr s) l -> index_from s l i = (-1)%Z.
Proof.
  revert i. induction l as [|x l IH]; intros i H; [reflexivity|].
  simpl. destruct (is_str s x) eqn:E.
  - apply is_str_true in E. subst x. exfalso. apply H. now left.
  - apply IH. intros F. apply H. now right.
Qed.

Lemma index_from_present s l i :
  (0 <= i)%Z -> In (JStr s) l -> (0 <= index_from s l i)%Z.
Proof.
  revert i. induction l as [|x l IH]; intros i Hi H; [contradiction|].
  simpl. destruct (is_str s x) eqn:E; [exact Hi|].
  destruct H as [->|H].
  - simpl in E. rewrite String.eqb_refl in E. discriminate.
  - apply IH; [lia | exact H].
Qed.

(** C2. When the modem's interfaces list lacks the interface an entity
    stands on, [ofModem] throws an error naming the modem's path and
    the interface, and the world is as it was before: nothing was sent
    to the bus.  (A path without a string form cannot be named: there
    the template literal of the message throws, which [refusal]
    accounts for; the world is as it was before all the same.) *)
Theorem C2_missing_interface_fails_before_any_request
    (modem : Modem.t) (l : list JsValue) (w : World) :
  Modem.interfaces modem = JArr l ->
  (~ In (JStr "org.ofono.NetworkRegistration") l ->
   NetworkRegistration.ofModem modem w
   = (Throw (refusal "node-ofono: Network.ofModem(): Modem "
                    (Modem.path modem)
                    " does not support NetworkRegistration interface"), w))
  /\ (~ In (JStr "org.ofono.VoiceCallManager") l ->
      VoiceCallManager.ofModem modem w
      = (Throw (refusal "node-ofono: VoiceCallManager.ofModem(): Modem "
                       (Modem.path modem)
                       " does not support VoiceCallManager interface"), w))
  /\ (~ In (JStr "org.ofono.Handsfree") l ->
      Handsfree.ofModem modem w
      = (Throw (refusal "node-ofono: Handsfree.ofModem(): Modem "
                       (Modem.path modem)
                       " does not support Handsfree interface"), w)).
Proof.
  intros Hl. repeat split; intros H.
  - unfold NetworkRegistration.ofModem, refusal, bind, lift, throw. rewrite Hl.
    cbn [js_indexOf]. rewrite (index_from_absent _ _ _ H). cbn [Z.eqb Pos.eqb].
    now destruct (js_to_string (Modem.path modem)).
  - unfold VoiceCallManager.ofModem, refusal, bind, lift, throw. rewrite Hl.
    cbn [js_indexOf]. rewrite (index_from_absent _ _ _ H). cbn [Z.eqb Pos.eqb].
    now destruct (js_to_string (Modem.path modem)).
  - unfold Handsfree.ofModem, refusal, bind, lift, throw. rewrite Hl.
    cbn [js_indexOf]. rewrite (index_from_absent _ _ _ H). cbn [Z.eqb Pos.eqb].
    now destruct (js_to_string (Modem.path modem)).
Qed.

(** The modem of the end-to-end example, which has the
    VoiceCallManager interface only. *)
Lemma C2_witness :
  NetworkRegistration.ofModem Examples.modem0 (Examples.world Examples.obliging)
  = (Throw (Error "node-ofono: Network.ofModem(): Modem /modem0 does not support NetworkRegistration interface"),
     Examples.world Examples.obliging)
  /\ Handsfree.ofModem Examples.modem0 (Examples.world Examples.obliging)
     = (Throw (Error "node-ofono: Handsfree.ofModem(): Modem /modem0 does not support Handsfree interface"),
        Examples.world Examples.obliging).
Proof.
  destruct (C2_missing_interface_fails_before_any_request
              Examples.modem0 [JStr "org.ofono.VoiceCallManager"]
              (Examples.world Examples.obliging) eq_refl) as (N & _ & H).
  split.
  - apply N. simpl. intros [F|[]]. discriminate F.
  - apply H. simpl. intros [F|[]]. discriminate F.
Defined.

(** The same modem has the VoiceCallManager interface: the check
    passes and the manager is built. *)
Lemma interface_present_example :
  exists manager w',
    VoiceCallManager.ofModem Examples.modem0 (Examples.world Examples.obliging)
    = (Normal manager, w')
    /\ VoiceCallManager.bus manager = Modem.bus Examples.modem0
    /\ method_calls (trace w')
       = [MethodCall 0 (JStr "/modem0") "org.ofono.VoiceCallManager" "GetProperties" []].
Proof. do 2 eexists. split; [vm_compute; reflexivity|]. split; reflexivity. Qed.

(** ** Construction from a listing entry *)

Lemma entry_value_listing path props k :
  entry_value (JArr [path; JObj props]) k =
  match assoc k props with
  | Some entry => js_get entry "value"
  | None => Throw (TypeError "Cannot read properties of undefined (reading 'value')")
  end.
Proof. unfold entry_value. simpl. now destruct (assoc k props). Qed.

Lemma entry_value_opt_listing path props k :
  entry_value_opt (JArr [path; JObj props]) k =
  match assoc k props with
  | Some entry => js_get_opt entry "value"
  | None => Normal JUndefined
  end.
Proof. unfold entry_value_opt. simpl. now destruct (assoc k props). Qed.

Lemma js_get_value_of entry v : js_get entry "value" = Normal v -> value_of entry = v.
Proof.
  unfold value_of, js_get_opt. intros H.
  destruct entry; simpl in *; try discriminate; now inversion H.
Qed.

Lemma js_get_opt_value_of entry v :
  js_get_opt entry "value" = Normal v -> value_of entry = v.
Proof. unfold value_of. now intros ->. Qed.

Ltac cbind_inv H :=
  repeat match type of H with
         | cbind ?c _ = Normal _ =>
             let x := fresh "x" in
             let E := fresh "E" in
             destruct c as [x|] eqn:E; cbn [cbind] in H; [|discriminate H]
         end.

Ltac read_entry E :=
  first [ rewrite entry_value_listing in E | rewrite entry_value_opt_listing in E ];
  match type of E with
  | match assoc ?k ?props with _ => _ end = _ =>
      destruct (assoc k props) as [entry|];
      [ first [ apply js_get_value_of in E | apply js_get_opt_value_of in E ]
      | try discriminate E; try (injection E as <-) ]
  end.

(** A modem built from a listing entry reads back what the entry says:
    every getter returns the content of the property's entry, and null
    when an optional property has none. *)
Lemma Modem_reads_back path props bus w this w' :
  Modem.fromDBusObject (JArr [path; JObj props]) (Some bus) w = (Normal this, w') ->
  Modem.path this = path
  /\ forall p, Modem.get p this = modem_decoded p props.
Proof.
  unfold Modem.fromDBusObject, default_bus, bind at 1, ret, bind at 1, lift.
  destruct (Modem.arguments (JArr [path; JObj props])) as [[path' d]|e] eqn:A;
    [|discriminate].
  unfold Modem.new, default_bus, bind at 1, ret, bind.
  destruct (spawn_returns (Modem.listenForChanges
      {| Modem._path := fst (path', d);
         Modem._online := Modem.d_online (snd (path', d));
         Modem._powered := Modem.d_powered (snd (path', d));
         Modem._lockdown := Modem.d_lockdown (snd (path', d));
         Modem._emergency := coalesce (Modem.d_emergency (snd (path', d))) JNull;
         Modem._name := coalesce (Modem.d_name (snd (path', d))) JNull;
         Modem._serial := coalesce (Modem.d_serial (snd (path', d))) JNull;
         Modem._manufacturer := coalesce (Modem.d_manufacturer (snd (path', d))) JNull;
         Modem._model := coalesce (Modem.d_model (snd (path', d))) JNull;
         Modem._revision := coalesce (Modem.d_revision (snd (path', d))) JNull;
         Modem._interfaces := Modem.d_interfaces (snd (path', d));
         Modem._type := Modem.d_type (snd (path', d));
         Modem._bus := bus |}) w) as (w1 & ->).
  intros H. injection H as <- _.
  unfold Modem.arguments in A. cbind_inv A. injection A as <- <-.
  cbn [js_index nth] in E. injection E as <-.
  split; [reflexivity|].
  intros p. unfold modem_decoded.
  destruct p; cbn [Modem.get Modem.name_of modem_optional Modem.online Modem.powered
                   Modem.lockdown Modem.emergency Modem.name Modem.manufacturer
                   Modem.model Modem.revision Modem.serial Modem.interfaces
                   Modem.type Modem._online Modem._powered Modem._lockdown
                   Modem._emergency Modem._name Modem._manufacturer Modem._model
                   Modem._revision Modem._serial Modem._interfaces Modem._type
                   Modem.d_online Modem.d_powered Modem.d_lockdown Modem.d_emergency
                   Modem.d_name Modem.d_manufacturer Modem.d_model Modem.d_revision
                   Modem.d_serial Modem.d_interfaces Modem.d_type fst snd].
  - read_entry E0; now subst.
  - read_entry E1; now subst.
  - read_entry E2; now subst.
  - read_entry E3; now subst.
  - read_entry E4; now subst.
  - read_entry E5; now subst.
  - read_entry E6; now subst.
  - read_entry E7; now subst.
  - read_entry E8; now subst.
  - read_entry E9; now subst.
  - read_entry E10; now subst.
Qed.

(** The modem of the end-to-end example, from its listing entry. *)
Lemma Modem_reads_back_example :
  exists this w',
    Modem.fromDBusObject
      (JArr [JStr "/modem0";
             JObj [("Online", Variant "b" (JBool true));
                   ("Powered", Variant "b" (JBool true));
                   ("Lockdown", Variant "b" (JBool false));
                   ("Interfaces", Variant "as" (JArr [JStr "org.ofono.VoiceCallManager"]));
                   ("Type", Variant "s" (JStr "hardware"))]])
      (Some 0) (Examples.world Examples.obliging)
    = (Normal this, w')
    /\ this = Examples.modem0.
Proof. do 2 eexists. split; [vm_compute; reflexivity | reflexivity]. Qed.

(** C3 (the code departs from it). The specification: after construction from
    known data every getter returns the decoded form of the raw value,
    a call's State as the matching enum member, and an absent optional
    property reads back as null.  A call built from the listing entry
    of a call that is being dialed (State "dialing", no IncomingLine)
    has [state] undefined, not VoiceCallState.Dialing, and
    [incomingLine] undefined, not null. *)
Theorem C3_call_from_listing_entry :
  In ("Dialing", "dialing") VoiceCall.VoiceCallState
  /\ assoc "State" Examples.call_entries = Some (Variant "s" (JStr "dialing"))
  /\ assoc "IncomingLine" Examples.call_entries = None
  /\ exists call w',
       VoiceCall.fromDBusObject
         (JArr [Examples.call_path; Examples.call_properties])
         (Some 0) (Examples.world Examples.obliging)
       = (Normal call, w')
       /\ VoiceCall.lineIdentification call = JStr "112"
       /\ VoiceCall.state call = JUndefined
       /\ VoiceCall.state call <> JStr "dialing"
       /\ VoiceCall.incomingLine call = JUndefined
       /\ VoiceCall.incomingLine call <> JNull.
Proof.
  split; [simpl; tauto|]. split; [reflexivity|]. split; [reflexivity|].
  do 2 eexists. split; [vm_compute; reflexivity|].
  repeat split; discriminate.
Qed.

(** ** Construction from a path *)

(** ** Actions *)

(** A method that obtains the interface and calls one member sends two
    requests, the introspection and the call, whatever the reply to
    the call is. *)
Lemma action_trace w bus path iface member args :
  offers w bus path iface ->
  trace (snd (bind (bind (getProxyObject bus "org.ofono" path)
                         (fun proxy => getInterface proxy iface))
                   (fun i => _ <- call i member args ;; ret tt) w))
  = (trace w ++ [Introspect bus "org.ofono" path;
                 MethodCall bus path iface member args])%list.
Proof.
  intros Ho. erewrite bind_normal; [|now apply interface_obtained].
  unfold call, bind, ret, rpc. cbn [ci_bus ci_path ci_name].
  destruct (service _ _ _); cbn [snd sent trace]; now rewrite <- app_assoc.
Qed.

(** ** Tones *)

Lemma class_matches_tone_char c : TonesRegExp.class_matches c = true <-> tone_char c.
Proof.
  destruct c as [[] [] [] [] [] [] [] []];
    vm_compute; (split; [intros H; try discriminate H; lia | intros H; try reflexivity; lia]).
Qed.

(** The regular expression accepts exactly the strings made of the
    listed characters. *)
Lemma test_tone_chars s :
  TonesRegExp.test s = true <-> forall c, In c (list_ascii_of_string s) -> tone_char c.
Proof.
  unfold TonesRegExp.test. induction s as [|c s IH]; simpl.
  - split; [intros _ c [] | reflexivity].
  - rewrite andb_true_iff, IH, class_matches_tone_char. split.
    + intros [Hc Hs] x [<-|Hx]; [exact Hc | now apply Hs].
    + intros H. split; [apply H; now left | intros x Hx; apply H; now right].
Qed.

(** ** Which connection a child mirror gets *)

Ltac step H :=
  let a := fresh "a" in
  let w := fresh "w" in
  let H1 := fresh "S" in
  apply bind_normal_inv in H; destruct H as (a & w & H1 & H).

Lemma obtain_keeps_connections bus path iface w r w1 :
  bind (getProxyObject bus "org.ofono" path) (fun proxy => getInterface proxy iface) w
  = (r, w1) ->
  connections w1 = connections w.
Proof.
  unfold bind, getProxyObject, bind, rpc, ret, getInterface, throw.
  destruct (service w (length (trace w)) (Introspect bus "org.ofono" path)); cbn.
  - intros H. now injection H as _ <-.
  - destruct (has_interface v iface); intros H; now injection H as _ <-.
Qed.

Lemma call_keeps_connections i member args w r w1 :
  call i member args w = (r, w1) -> connections w1 = connections w.
Proof.
  unfold call, rpc. destruct (service _ _ _); intros H; now injection H as _ <-.
Qed.

Lemma lift_keeps_world {A} (c : Completion A) w r w1 :
  lift c w = (r, w1) -> w1 = w.
Proof. unfold lift. intros H. now injection H as _ <-. Qed.

(** The constructor of a call returns when the lookup of the state
    does, with the fields of its argument and the subscription
    started; it throws what the lookup throws, before anything else. *)
Lemma VoiceCall_new_inv path data b w this w' :
  VoiceCall.new path data (Some b) w = (Normal this, w') ->
  exists state,
    enum_lookup VoiceCall.VoiceCallState (VoiceCall.d_state data) = Normal state
    /\ this = VoiceCall.mk path
                (VoiceCall.d_lineIdentification data) (VoiceCall.d_incomingLine data)
                (VoiceCall.d_name data) (VoiceCall.d_multiparty data) state
                (VoiceCall.d_startTime data) (VoiceCall.d_information data)
                (VoiceCall.d_icon data) (VoiceCall.d_emergency data)
                (VoiceCall.d_remoteHeld data) (VoiceCall.d_remoteMultiparty data) b
    /\ w' = snd (spawn (VoiceCall.listenForChanges this) w).
Proof.
  unfold VoiceCall.new, default_bus. unfold bind at 1, ret. unfold bind at 1, lift.
  destruct (enum_lookup _ _) as [state|e]; [|discriminate].
  unfold bind.
  match goal with
  | |- context [spawn ?p ?w0] => destruct (spawn p w0) as [[[]|e] w1] eqn:S
  end; intros H; [|discriminate].
  injection H as <- <-. exists state. rewrite S. repeat split.
Qed.

Lemma VoiceCall_new_returns path data b w state :
  enum_lookup VoiceCall.VoiceCallState (VoiceCall.d_state data) = Normal state ->
  let this :=
    VoiceCall.mk path
      (VoiceCall.d_lineIdentification data) (VoiceCall.d_incomingLine data)
      (VoiceCall.d_name data) (VoiceCall.d_multiparty data) state
      (VoiceCall.d_startTime data) (VoiceCall.d_information data)
      (VoiceCall.d_icon data) (VoiceCall.d_emergency data)
      (VoiceCall.d_remoteHeld data) (VoiceCall.d_remoteMultiparty data) b in
  VoiceCall.new path data (Some b) w
  = (Normal this, snd (spawn (VoiceCall.listenForChanges this) w)).
Proof.
  intros H. cbv zeta.
  unfold VoiceCall.new, default_bus. unfold bind at 1, ret. unfold bind at 1, lift.
  rewrite H. unfold bind.
  match goal with
  | |- context [spawn ?p ?w0] => destruct (spawn_returns p w0) as (w1 & ->)
  end.
  reflexivity.
Qed.

Lemma VoiceCall_new_throws path data b w e :
  enum_lookup VoiceCall.VoiceCallState (VoiceCall.d_state data) = Throw e ->
  VoiceCall.new path data b w
  = (Throw e, match b with Some _ => w | None => opened w end).
Proof.
  intros H. unfold VoiceCall.new.
  destruct b; unfold default_bus, systemBus, bind, ret, lift; now rewrite H.
Qed.

Lemma VoiceCall_new_bus path data b w this w' :
  VoiceCall.new path data (Some b) w = (Normal this, w') -> VoiceCall._bus this = b.
Proof.
  intros H. apply VoiceCall_new_inv in H. destruct H as (state & _ & -> & _).
  reflexivity.
Qed.

Lemma Modem_new_bus path data b w this w' :
  Modem.new path data (Some b) w = (Normal this, w') -> Modem.bus this = b.
Proof.
  unfold Modem.new, default_bus, bind at 1, ret, bind.
  match goal with
  | |- context [spawn ?p ?w0] => destruct (spawn_returns p w0) as (w1 & ->)
  end.
  intros H. now injection H as <- _.
Qed.

Lemma VoiceCall_fromPath_bus path b w this w' :
  VoiceCall.fromPath path (Some b) w = (Normal this, w') -> VoiceCall._bus this = b.
Proof.
  unfold VoiceCall.fromPath, default_bus. intros H.
  step H. unfold ret in S. injection S as <- <-.
  do 4 step H. now apply VoiceCall_new_bus in H.
Qed.

(** Without a second argument the call gets a connection of its own,
    the one [systemBus()] opens. *)
Lemma VoiceCall_fromPath_default path w this w' :
  VoiceCall.fromPath path None w = (Normal this, w') ->
  VoiceCall._bus this = connections w.
Proof.
  unfold VoiceCall.fromPath, default_bus. intros H.
  step H. unfold systemBus in S. injection S as <- <-.
  do 4 step H. now apply VoiceCall_new_bus in H.
Qed.

Lemma VoiceCall_fromDBusObject_bus data b w this w' :
  VoiceCall.fromDBusObject data (Some b) w = (Normal this, w') ->
  VoiceCall._bus this = b.
Proof.
  unfold VoiceCall.fromDBusObject, default_bus. intros H.
  step H. unfold ret in S. injection S as <- <-.
  step H. now apply VoiceCall_new_bus in H.
Qed.

Lemma Modem_fromDBusObject_bus data b w this w' :
  Modem.fromDBusObject data (Some b) w = (Normal this, w') -> Modem.bus this = b.
Proof.
  unfold Modem.fromDBusObject, default_bus. intros H.
  step H. unfold ret in S. injection S as <- <-.
  step H. now apply Modem_new_bus in H.
Qed.

Lemma Modem_fromDBusObject_default data w this w' :
  Modem.fromDBusObject data None w = (Normal this, w') ->
  Modem.bus this = connections w.
Proof.
  unfold Modem.fromDBusObject, default_bus. intros H.
  step H. unfold systemBus in S. injection S as <- <-.
  step H. now apply Modem_new_bus in H.
Qed.

Lemma mapM_all {A B} (f : A -> M B) (P : B -> Prop) :
  (forall a w b w', f a w = (Normal b, w') -> P b) ->
  forall l w bs w', mapM f l w = (Normal bs, w') -> Forall P bs.
Proof.
  intros Hf. induction l as [|a l IH]; intros w bs w' H; simpl in H.
  - unfold ret in H. injection H as <- _. constructor.
  - step H. step H. unfold ret in H. inversion H; subst.
    constructor; [eapply Hf; eassumption | eapply IH; eassumption].
Qed.

(** The listings hand the parent's connection down. *)
Lemma getCalls_bus this w calls w' :
  VoiceCallManager.getCalls this w = (Normal calls, w') ->
  Forall (fun c => VoiceCall._bus c = VoiceCallManager.bus this) calls.
Proof.
  unfold VoiceCallManager.getCalls. intros H. do 3 step H.
  eapply mapM_all; [|exact H].
  intros ? ? ? ?. apply VoiceCall_fromDBusObject_bus.
Qed.

Lemma privateChat_bus this path w calls w' :
  VoiceCallManager.privateChat this path w = (Normal calls, w') ->
  Forall (fun c => VoiceCall._bus c = VoiceCallManager.bus this) calls.
Proof.
  unfold VoiceCallManager.privateChat. intros H. do 3 step H.
  eapply mapM_all; [|exact H].
  intros ? ? ? ?. apply VoiceCall_fromPath_bus.
Qed.

Lemma createMultiparty_bus this w calls w' :
  VoiceCallManager.createMultiparty this w = (Normal calls, w') ->
  Forall (fun c => VoiceCall._bus c = VoiceCallManager.bus this) calls.
Proof.
  unfold VoiceCallManager.createMultiparty. intros H. do 3 step H.
  eapply mapM_all; [|exact H].
  intros ? ? ? ?. apply VoiceCall_fromPath_bus.
Qed.

Lemma getModems_bus this w modems w' :
  Ofono.getModems this w = (Normal modems, w') ->
  Forall (fun m => Modem.bus m = Ofono.bus this) modems.
Proof.
  unfold Ofono.getModems. intros H. do 4 step H.
  eapply mapM_all; [|exact H].
  intros ? ? ? ?. apply Modem_fromDBusObject_bus.
Qed.

(** [dial] does not: whenever it returns a call, the call is on the
    connection opened for it, which no connection that existed is. *)
Lemma dial_opens_a_connection this number hideCallerID w call w' :
  VoiceCallManager.dial this number hideCallerID w = (Normal call, w') ->
  VoiceCall._bus call = connections w
  /\ (VoiceCallManager.bus this < connections w ->
      VoiceCall._bus call <> VoiceCallManager.bus this).
Proof.
  unfold VoiceCallManager.dial, VoiceCallManager.getInterface. intros H.
  step H. apply obtain_keeps_connections in S.
  step H. apply call_keeps_connections in S0.
  apply VoiceCall_fromPath_default in H.
  assert (VoiceCall._bus call = connections w) as E by congruence.
  split; [exact E | lia].
Qed.

(** Nor does the listener for ModemAdded. *)
Lemma ModemAdded_opens_a_connection this path modem w outs w' :
  Ofono.on_ModemAdded this path modem w = (Normal outs, w') ->
  exists m, outs = [Emit (Ofono.add path m)] /\ Modem.bus m = connections w.
Proof.
  unfold Ofono.on_ModemAdded. intros H. step H.
  unfold ret in H. injection H as <- _.
  exists a. split; [reflexivity|]. now apply Modem_fromDBusObject_default in S.
Qed.

(** The second argument of ModemAdded is the property dictionary, which
    has no entry 1: the listener throws, with the connection opened. *)
Lemma ModemAdded_with_properties :
  exists e w',
    Ofono.on_ModemAdded (Ofono.mk 0) (JStr "/modem0")
      (JObj [("Online", Variant "b" (JBool true));
             ("Powered", Variant "b" (JBool true));
             ("Lockdown", Variant "b" (JBool false));
             ("Interfaces", Variant "as" (JArr []));
             ("Type", Variant "s" (JStr "hardware"))])
      (Examples.world Examples.obliging)
    = (Throw (TypeError e), w')
    /\ connections w' = 2.
Proof. do 2 eexists. split; [vm_compute; reflexivity | reflexivity]. Qed.

(** C9 (the code departs from it). The specification: every child mirror is
    built on its parent's connection and no construction path opens a
    fresh one.  A manager on connection 0, the only one open, dials
    112: the call it returns is on connection 1, opened by
    [VoiceCall.fromPath(path)], which is given no connection. *)
Theorem C9_dial_builds_the_call_on_a_new_connection :
  exists call w',
    VoiceCallManager.dial Examples.manager0 (JStr "112") JUndefined
                          (Examples.world Examples.obliging)
    = (Normal call, w')
    /\ VoiceCallManager.bus Examples.manager0 = 0
    /\ connections (Examples.world Examples.obliging) = 1
    /\ VoiceCall._bus call = 1
    /\ connections w' = 2
    /\ trace w'
       = [Introspect 0 "org.ofono" (JStr "/ril_0");
          MethodCall 0 (JStr "/ril_0") "org.ofono.VoiceCallManager" "Dial"
                     [JStr "112"; JStr "default"];
          Introspect 1 "org.ofono" Examples.call_path;
          MethodCall 1 Examples.call_path "org.ofono.VoiceCall" "GetProperties" [];
          Introspect 1 "org.ofono" Examples.call_path].
Proof.
  do 2 eexists. split; [vm_compute; reflexivity|].
  repeat split.
Qed.

(* ================================================================= *)
(** * Further properties                                              *)
(* ================================================================= *)

(** ** What the listeners report *)

Section FeedOutputs.

Context {T P E : Type}.
Variable all : list P.
Variable name_of : P -> string.
Variable set : P -> JsValue -> T -> T.
Variable stored : P -> JsValue -> JsValue.
Variable known : list (Output E).
Variable unknown : string -> list (Output E).
Variable handler : T -> string -> JsValue -> Completion (T * list (Output E)).

Hypothesis handler_shape : forall this name arg,
  handler this name arg =
  cbind (js_get arg "value") (fun value =>
    match select name_of all name with
    | Some p => Normal (set p (stored p value) this, known)
    | None => Normal (this, unknown name)
    end).

Lemma feed_outputs this ns :
  exists this',
    deliver handler this (map signal_of ns)
    = Normal (this',
              flat_map (fun n => if has_case (select name_of all) (n_name n)
                                 then known else unknown (n_name n)) ns).
Proof.
  revert this. induction ns as [|n rest IH]; intros this.
  - exists this. reflexivity.
  - cbn [map flat_map]. unfold signal_of at 1. cbn [deliver].
    rewrite (handler_on_variant all name_of set stored known unknown handler
               handler_shape).
    unfold has_case at 1.
    destruct (select name_of all (n_name n)) as [p|]; cbn [cbind fst snd].
    + destruct (IH (set p (stored p (n_value n)) this)) as (t' & ->).
      cbn [cbind fst snd]. eexists. reflexivity.
    + destruct (IH this) as (t' & ->).
      cbn [cbind fst snd]. eexists. reflexivity.
Qed.

End FeedOutputs.

Lemma emitted_app {E} (a b : list (Output E)) :
  emitted (a ++ b) = (emitted a ++ emitted b)%list.
Proof. unfold emitted. apply flat_map_app. Qed.

Lemma warned_app {E} (a b : list (Output E)) :
  warned (a ++ b) = (warned a ++ warned b)%list.
Proof. unfold warned. apply flat_map_app. Qed.

Lemma emitted_flat_map {A E} (f : A -> list (Output E)) l :
  emitted (flat_map f l) = flat_map (fun a => emitted (f a)) l.
Proof.
  induction l as [|a l IH]; [reflexivity|].
  cbn [flat_map]. now rewrite emitted_app, IH.
Qed.

Lemma warned_flat_map {A E} (f : A -> list (Output E)) l :
  warned (flat_map f l) = flat_map (fun a => warned (f a)) l.
Proof.
  induction l as [|a l IH]; [reflexivity|].
  cbn [flat_map]. now rewrite warned_app, IH.
Qed.

Lemma flat_map_if {A B} (c : A -> bool) (f : A -> B) l :
  flat_map (fun a => if c a then [f a] else []) l = map f (filter c l).
Proof.
  induction l as [|a l IH]; [reflexivity|].
  cbn [flat_map filter]. rewrite IH. now destruct (c a).
Qed.

Lemma flat_map_unless {A B} (c : A -> bool) (f : A -> B) l :
  flat_map (fun a => if c a then [] else [f a]) l
  = map f (filter (fun a => negb (c a)) l).
Proof.
  induction l as [|a l IH]; [reflexivity|].
  cbn [flat_map filter]. rewrite IH. now destruct (c a).
Qed.

Lemma flat_map_none {A B} (l : list A) : flat_map (fun _ => @nil B) l = [].
Proof. induction l as [|a l IH]; [reflexivity | exact IH]. Qed.

Lemma flat_map_one {A B} (f : A -> B) l : flat_map (fun a => [f a]) l = map f l.
Proof. induction l as [|a l IH]; [reflexivity|]. cbn [flat_map map]. now rewrite IH. Qed.

Lemma emitted_cases {A E} (c : A -> bool) (k u : A -> list (Output E)) l :
  emitted (flat_map (fun a => if c a then k a else u a) l)
  = flat_map (fun a => if c a then emitted (k a) else emitted (u a)) l.
Proof.
  rewrite emitted_flat_map. apply flat_map_ext. intros a. now destruct (c a).
Qed.

Lemma warned_cases {A E} (c : A -> bool) (k u : A -> list (Output E)) l :
  warned (flat_map (fun a => if c a then k a else u a) l)
  = flat_map (fun a => if c a then warned (k a) else warned (u a)) l.
Proof.
  rewrite warned_flat_map. apply flat_map_ext. intros a. now destruct (c a).
Qed.

Ltac same_delivery D O :=
  rewrite D in O; injection O as -> ->.

(** X1. A modem that receives any sequence of PropertyChanged
    notifications ends with every property at the value of the last
    notification naming it, has emitted one [change] per notification
    whose name has a case, and has warned once, with the name, for each
    of the others. *)
Theorem Modem_feed this ns :
  exists this' outs,
    deliver Modem.on_PropertyChanged this (map signal_of ns) = Normal (this', outs)
    /\ (forall p, Modem.get p this' =
                  match last_value (Modem.name_of p) ns with
                  | Some v => v
                  | None => Modem.get p this
                  end)
    /\ emitted outs
       = map (fun _ => Modem.change)
             (filter (fun n => has_case Modem.case_of (n_name n)) ns)
    /\ warned outs
       = map (fun n => "node-ofono: Modem: Unhandled property change: " ++ n_name n)
             (filter (fun n => negb (has_case Modem.case_of (n_name n))) ns).
Proof.
  destruct (Modem_feed_order this ns) as (this' & outs & D & G).
  destruct (feed_outputs Modem.all Modem.name_of Modem.set as_received _ _ _
              Modem_handler_shape this ns) as (t & O).
  same_delivery D O.
  do 2 eexists. split; [exact D|]. split; [exact G|]. split.
  - rewrite emitted_cases. cbn [emitted warned flat_map app].
    exact (flat_map_if _ (fun _ => Modem.change) ns).
  - rewrite warned_cases. cbn [emitted warned flat_map app].
    exact (flat_map_unless
             _ (fun n => "node-ofono: Modem: Unhandled property change: " ++ n_name n) ns).
Qed.

Lemma flat_map_both {A B} (c : A -> bool) (f : A -> B) l :
  flat_map (fun a => if c a then [f a] else [f a]) l = map f l.
Proof.
  induction l as [|a l IH]; [reflexivity|].
  cbn [flat_map map]. rewrite IH. now destruct (c a).
Qed.

Lemma flat_map_neither {A B} (c : A -> bool) (l : list A) :
  flat_map (fun a => if c a then @nil B else []) l = [].
Proof.
  induction l as [|a l IH]; [reflexivity|].
  cbn [flat_map]. rewrite IH. now destruct (c a).
Qed.

(** A sequence with a State notification whose value has no string
    form: the listener throws when it comes to the first such. *)
Lemma VoiceCall_feed_throws this ns :
  (exists n, In n ns /\ n_name n = "State" /\ has_string_form (n_value n) = false) ->
  exists e, deliver VoiceCall.on_PropertyChanged this (map signal_of ns) = Throw e.
Proof.
  revert this. induction ns as [|n0 rest IH]; intros this (n & Hin & Hn & Hv).
  - contradiction.
  - cbn [map]. unfold signal_of at 1. cbn [deliver].
    destruct (String.eqb_spec (n_name n0) "State") as [E0|N0].
    + destruct (has_string_form (n_value n0)) eqn:F0.
      * destruct (enum_lookup_converts VoiceCall.VoiceCallState _ F0) as (r & Hr).
        destruct (VoiceCall_stores this VoiceCall.State (n_signature n0) (n_value n0) r Hr)
          as (t1 & H1 & _).
        cbn [VoiceCall.name_of] in H1. rewrite E0, H1. cbn [cbind fst snd].
        destruct (IH t1) as (e & ->).
        { destruct Hin as [<-|Hin]; [congruence|]. now exists n. }
        exists e. reflexivity.
      * destruct (enum_lookup_throws VoiceCall.VoiceCallState _ F0) as (e & He).
        exists e. rewrite E0.
        now rewrite (VoiceCall_State_throws this (n_signature n0) (n_value n0) e He).
    + destruct (VoiceCall_frame this (n_name n0)
                  [("signature", JStr (n_signature n0)); ("value", n_value n0)])
        as (t1 & o1 & H1 & _); [intros F; now elim N0|].
      unfold Variant. rewrite H1. cbn [cbind fst snd].
      destruct (IH t1) as (e & ->).
      { destruct Hin as [<-|Hin]; [congruence|]. now exists n. }
      exists e. reflexivity.
Qed.

(** X2. A call that receives a sequence of PropertyChanged
    notifications in which every value sent for State has a string
    form ends with every property other than State at the value of the
    last notification naming it and State at [VoiceCallState[value]]
    for the last State value; it has emitted one [change] per
    notification whose name has a case and warned once for each of the
    others.  A sequence in which some value sent for State has no
    string form makes the listener throw. *)
Theorem VoiceCall_feed this ns :
  ((forall n, In n ns -> n_name n = "State" -> has_string_form (n_value n) = true) ->
   exists this' outs,
     deliver VoiceCall.on_PropertyChanged this (map signal_of ns) = Normal (this', outs)
     /\ (forall p, p <> VoiceCall.State ->
                   VoiceCall.get p this' =
                   match last_value (VoiceCall.name_of p) ns with
                   | Some v => v
                   | None => VoiceCall.get p this
                   end)
     /\ match last_value "State" ns with
        | Some v => enum_lookup VoiceCall.VoiceCallState v
                    = Normal (VoiceCall.state this')
        | None => VoiceCall.state this' = VoiceCall.state this
        end
     /\ emitted outs
        = map (fun _ => VoiceCall.change)
              (filter (fun n => has_case VoiceCall.case_of (n_name n)) ns)
     /\ warned outs
        = map (fun n => "node-ofono: VoiceCall: Unhandled property change: " ++ n_name n)
              (filter (fun n => negb (has_case VoiceCall.case_of (n_name n))) ns))
  /\ ((exists n, In n ns /\ n_name n = "State" /\ has_string_form (n_value n) = false) ->
      exists e, deliver VoiceCall.on_PropertyChanged this (map signal_of ns) = Throw e).
Proof.
  split; [|apply VoiceCall_feed_throws].
  intros Hs.
  destruct (converting_feed VoiceCall.all VoiceCall.name_of VoiceCall.get VoiceCall.set
              VoiceCall.stored _ _ _ VoiceCall_handler_shape
              VoiceCall_get_set_same VoiceCall_get_set_other VoiceCall_all_complete
              VoiceCall_name_of_inj this ns) as (this' & D & G).
  { intros n p Hin C. apply VoiceCall_stored_converts. intros ->.
    apply Hs; [exact Hin|]. now apply VoiceCall_case_of_State. }
  do 2 eexists. split; [exact D|]. split; [|split; [|split]].
  - intros p Hp. specialize (G p).
    destruct (last_value (VoiceCall.name_of p) ns); [|exact G].
    rewrite (VoiceCall_stored_other p _ Hp) in G. now injection G as <-.
  - exact (G VoiceCall.State).
  - rewrite emitted_cases. cbn [emitted warned flat_map app].
    exact (flat_map_if _ (fun _ => VoiceCall.change) ns).
  - rewrite warned_cases. cbn [emitted warned flat_map app].
    exact (flat_map_unless
             _ (fun n => "node-ofono: VoiceCall: Unhandled property change: "
                         ++ n_name n) ns).
Qed.

Lemma VoiceCall_feed_witness :
  (exists this' outs,
     deliver VoiceCall.on_PropertyChanged Examples.call0
             (map signal_of [mkNotification "State" "s" (JStr "Held");
                             mkNotification "Name" "s" (JStr "Ada");
                             mkNotification "Colour" "s" (JStr "red")])
     = Normal (this', outs)
     /\ VoiceCall.name this' = JStr "Ada"
     /\ VoiceCall.state this' = JStr "held"
     /\ emitted outs = [VoiceCall.change; VoiceCall.change])
  /\ (exists e,
     deliver VoiceCall.on_PropertyChanged Examples.call0
             (map signal_of
                  [mkNotification "Name" "s" (JStr "Ada");
                   mkNotification "State" "a{sv}"
                     (JObj [("toString", Variant "s" (JStr "held"))])])
     = Throw e).
Proof.
  split.
  - destruct (VoiceCall_feed Examples.call0
                [mkNotification "State" "s" (JStr "Held");
                 mkNotification "Name" "s" (JStr "Ada");
                 mkNotification "Colour" "s" (JStr "red")]) as (H & _).
    destruct H as (this' & outs & D & F & S & Em & _).
    { intros n Hin _. cbn [In] in Hin.
      repeat (destruct Hin as [<-|Hin]; [reflexivity|]). contradiction. }
    exists this', outs. split; [exact D|]. split; [|split].
    + exact (F VoiceCall.Name ltac:(discriminate)).
    + cbn [last_value n_name n_value String.eqb Ascii.eqb Bool.eqb] in S.
      change (Normal (JStr "held") = Normal (VoiceCall.state this')) in S.
      injection S as S. symmetry. exact S.
    + exact Em.
  - destruct (VoiceCall_feed Examples.call0
                [mkNotification "Name" "s" (JStr "Ada");
                 mkNotification "State" "a{sv}"
                   (JObj [("toString", Variant "s" (JStr "held"))])]) as (_ & H).
    apply H. eexists. split; [right; left; reflexivity|]. split; reflexivity.
Defined.

(** X3. A network registration that receives any sequence of
    PropertyChanged notifications ends with every property at the value
    of the last notification naming it; it has emitted one [change] for
    every notification, with a case or without, and warned once for
    each one without. *)
Theorem NetworkRegistration_feed this ns :
  exists this' outs,
    deliver NetworkRegistration.on_PropertyChanged this (map signal_of ns)
    = Normal (this', outs)
    /\ (forall p, NetworkRegistration.get p this' =
                  match last_value (NetworkRegistration.name_of p) ns with
                  | Some v => v
                  | None => NetworkRegistration.get p this
                  end)
    /\ emitted outs = map (fun _ => NetworkRegistration.change) ns
    /\ warned outs
       = map (fun n => "node-ofono: NetworkRegistration: Unhandled property change: "
                       ++ n_name n)
             (filter (fun n => negb (has_case NetworkRegistration.case_of (n_name n)))
                     ns).
Proof.
  destruct (NetworkRegistration_feed_order this ns) as (this' & outs & D & G).
  destruct (feed_outputs NetworkRegistration.all NetworkRegistration.name_of
              NetworkRegistration.set as_received _ _ _
              NetworkRegistration_handler_shape this ns) as (t & O).
  same_delivery D O.
  do 2 eexists. split; [exact D|]. split; [exact G|]. split.
  - rewrite emitted_cases. cbn [emitted warned flat_map app].
    exact (flat_map_both _ (fun _ => NetworkRegistration.change) ns).
  - rewrite warned_cases. cbn [emitted warned flat_map app].
    exact (flat_map_unless
             _ (fun n => "node-ofono: NetworkRegistration: Unhandled property change: "
                         ++ n_name n) ns).
Qed.

(** X4. A handsfree mirror that receives any sequence of
    PropertyChanged notifications ends with every property at the value
    of the last notification naming it (Features too: the array as
    received, not the record of flags the constructor builds); it has
    emitted one [change] per notification whose name has a case and
    warned once for each of the others. *)
Theorem Handsfree_feed this ns :
  exists this' outs,
    deliver Handsfree.on_PropertyChanged this (map signal_of ns) = Normal (this', outs)
    /\ (forall p, Handsfree.get p this' =
                  match last_value (Handsfree.name_of p) ns with
                  | Some v => v
                  | None => Handsfree.get p this
                  end)
    /\ emitted outs
       = map (fun _ => Handsfree.change)
             (filter (fun n => has_case Handsfree.case_of (n_name n)) ns)
    /\ warned outs
       = map (fun n => "node-ofono: Handsfree: Unhandled property change: " ++ n_name n)
             (filter (fun n => negb (has_case Handsfree.case_of (n_name n))) ns).
Proof.
  destruct (Handsfree_feed_order this ns) as (this' & outs & D & G).
  destruct (feed_outputs Handsfree.all Handsfree.name_of Handsfree.set
              as_received _ _ _ Handsfree_handler_shape this ns) as (t & O).
  same_delivery D O.
  do 2 eexists. split; [exact D|]. split; [exact G|]. split.
  - rewrite emitted_cases. cbn [emitted warned flat_map app].
    exact (flat_map_if _ (fun _ => Handsfree.change) ns).
  - rewrite warned_cases. cbn [emitted warned flat_map app].
    exact (flat_map_unless
             _ (fun n => "node-ofono: Handsfree: Unhandled property change: "
                         ++ n_name n) ns).
Qed.

(** X5. A voice call manager that receives any sequence of
    PropertyChanged notifications ends with [emergencyNumbers] at the
    value of the last EmergencyNumbers notification, and has emitted
    nothing, no [change] either; it has warned once for each
    notification under another name. *)
Theorem VoiceCallManager_feed this ns :
  exists this' outs,
    deliver VoiceCallManager.on_PropertyChanged this (map signal_of ns)
    = Normal (this', outs)
    /\ VoiceCallManager.emergencyNumbers this' =
       match last_value "EmergencyNumbers" ns with
       | Some v => v
       | None => VoiceCallManager.emergencyNumbers this
       end
    /\ VoiceCallManager.path this' = VoiceCallManager.path this
    /\ VoiceCallManager.bus this' = VoiceCallManager.bus this
    /\ emitted outs = []
    /\ warned outs
       = map (fun n => "node-ofono: VoiceCallManager: unhandled property change: "
                       ++ n_name n)
             (filter (fun n => negb (String.eqb (n_name n) "EmergencyNumbers")) ns).
Proof.
  destruct (VoiceCallManager_feed_order this ns) as (this' & outs & D & G).
  destruct (feed_outputs VoiceCallManager.all VoiceCallManager.name_of
              VoiceCallManager.set as_received _ _ _
              VoiceCallManager_handler_shape this ns) as (t & O).
  same_delivery D O.
  do 2 eexists. split; [exact D|].
  split; [exact (G VoiceCallManager.EmergencyNumbers)|].
  assert (forall (l : list Notification) (m m' : VoiceCallManager.t) o,
             deliver VoiceCallManager.on_PropertyChanged m (map signal_of l)
             = Normal (m', o) ->
             VoiceCallManager.path m' = VoiceCallManager.path m
             /\ VoiceCallManager.bus m' = VoiceCallManager.bus m) as Same.
  { induction l as [|n l IH]; intros m m' o H.
    - cbn in H. injection H as <- _. split; reflexivity.
    - cbn [map] in H. unfold signal_of at 1 in H. cbn [deliver] in H.
      rewrite (handler_on_variant VoiceCallManager.all VoiceCallManager.name_of
                 VoiceCallManager.set as_received _ _ _
                 VoiceCallManager_handler_shape) in H.
      destruct (select _ _ (n_name n)) as [p|]; cbn [cbind fst snd] in H.
      + destruct (deliver _ _ _) as [[m1 o1]|] eqn:R in H; [|discriminate].
        cbn [cbind fst snd] in H. injection H as <- _.
        apply IH in R. exact R.
      + destruct (deliver _ _ _) as [[m1 o1]|] eqn:R in H; [|discriminate].
        cbn [cbind fst snd] in H. injection H as <- _.
        apply IH in R. exact R. }
  destruct (Same _ _ _ _ D) as (Hp & Hb).
  split; [exact Hp|]. split; [exact Hb|]. split.
  - rewrite emitted_cases. cbn [emitted warned flat_map app].
    apply flat_map_neither.
  - rewrite warned_cases. cbn [emitted warned flat_map app].
    rewrite (flat_map_unless
               _ (fun n => "node-ofono: VoiceCallManager: unhandled property change: "
                           ++ n_name n) ns).
    f_equal. apply filter_ext. intros n.
    unfold has_case, select, VoiceCallManager.all, VoiceCallManager.name_of.
    cbn [find]. now destruct (String.eqb (n_name n) "EmergencyNumbers").
Qed.

(** ** Computations that open no connection *)

Lemma keeps_ret {A} (a : A) : keeps_connections (ret a).
Proof. intros w r w' H. unfold ret in H. now injection H as _ <-. Qed.

Lemma keeps_throw {A} e : keeps_connections (@throw A e).
Proof. intros w r w' H. unfold throw in H. now injection H as _ <-. Qed.

Lemma keeps_lift {A} (c : Completion A) : keeps_connections (lift c).
Proof. intros w r w' H. unfold lift in H. now injection H as _ <-. Qed.

Lemma keeps_rpc r : keeps_connections (rpc r).
Proof.
  intros w x w' H. unfold rpc in H.
  destruct (service w (length (trace w)) r); now injection H as _ <-.
Qed.

Lemma keeps_on i signal : keeps_connections (on i signal).
Proof. intros w r w' H. unfold on in H. now injection H as _ <-. Qed.

Lemma keeps_bind {A B} (c : M A) (k : A -> M B) :
  keeps_connections c -> (forall a, keeps_connections (k a)) ->
  keeps_connections (bind c k).
Proof.
  intros Hc Hk w r w' H. unfold bind in H.
  destruct (c w) as [[a|e] w1] eqn:C.
  - apply Hk in H. apply Hc in C. congruence.
  - injection H as _ <-. now apply Hc in C.
Qed.

Lemma keeps_spawn {A} (c : M A) : keeps_connections c -> keeps_connections (spawn c).
Proof.
  intros Hc w r w' H. unfold spawn in H.
  destruct (c w) as [[a|e] w1] eqn:C; injection H as _ <-; now apply Hc in C.
Qed.

Lemma keeps_given_bus b : keeps_connections (default_bus (Some b)).
Proof. apply keeps_ret. Qed.

Lemma keeps_getProxyObject bus svc path : keeps_connections (getProxyObject bus svc path).
Proof.
  unfold getProxyObject. apply keeps_bind; [apply keeps_rpc | intros; apply keeps_ret].
Qed.

Lemma keeps_getInterface p name : keeps_connections (getInterface p name).
Proof.
  unfold getInterface. destruct (has_interface _ _); [apply keeps_ret | apply keeps_throw].
Qed.

Lemma keeps_call i member args : keeps_connections (call i member args).
Proof. apply keeps_rpc. Qed.

Lemma keeps_mapM {A B} (f : A -> M B) l :
  (forall a, keeps_connections (f a)) -> keeps_connections (mapM f l).
Proof.
  intros Hf. induction l as [|a l IH]; cbn [mapM].
  - apply keeps_ret.
  - apply keeps_bind; [apply Hf|]. intros b.
    apply keeps_bind; [exact IH|]. intros bs. apply keeps_ret.
Qed.

Ltac keeps :=
  repeat first
    [ apply keeps_ret | apply keeps_throw | apply keeps_lift | apply keeps_rpc
    | apply keeps_on | apply keeps_given_bus | apply keeps_getProxyObject
    | apply keeps_getInterface | apply keeps_call
    | apply keeps_spawn
    | apply keeps_mapM; intros ?
    | apply keeps_bind; [|intros ?]
    | match goal with
      | |- keeps_connections (if ?c then _ else _) => destruct c
      end ].

Lemma keeps_Modem_listenForChanges this : keeps_connections (Modem.listenForChanges this).
Proof. unfold Modem.listenForChanges. keeps. Qed.

Lemma keeps_Modem_new path data b : keeps_connections (Modem.new path data (Some b)).
Proof. unfold Modem.new. keeps; try apply keeps_Modem_listenForChanges. Qed.

Lemma keeps_Modem_fromDBusObject data b :
  keeps_connections (Modem.fromDBusObject data (Some b)).
Proof. unfold Modem.fromDBusObject. keeps; try apply keeps_Modem_new. Qed.

Lemma keeps_VoiceCall_getInterface this : keeps_connections (VoiceCall.getInterface this).
Proof. unfold VoiceCall.getInterface. keeps. Qed.

Lemma keeps_VoiceCall_listenForChanges this :
  keeps_connections (VoiceCall.listenForChanges this).
Proof. unfold VoiceCall.listenForChanges. keeps; try apply keeps_VoiceCall_getInterface. Qed.

Lemma keeps_VoiceCall_new path data b : keeps_connections (VoiceCall.new path data (Some b)).
Proof. unfold VoiceCall.new. keeps; try apply keeps_VoiceCall_listenForChanges. Qed.

Lemma keeps_VoiceCall_fromDBusObject data b :
  keeps_connections (VoiceCall.fromDBusObject data (Some b)).
Proof. unfold VoiceCall.fromDBusObject. keeps; try apply keeps_VoiceCall_new. Qed.

Lemma keeps_VoiceCall_fromPath path b :
  keeps_connections (VoiceCall.fromPath path (Some b)).
Proof. unfold VoiceCall.fromPath. keeps; try apply keeps_VoiceCall_new. Qed.

Lemma keeps_NetworkRegistration_new path data b :
  keeps_connections (NetworkRegistration.new path data (Some b)).
Proof.
  unfold NetworkRegistration.new, NetworkRegistration.listenForChanges,
    NetworkRegistration.getInterface. keeps.
Qed.

Lemma keeps_Handsfree_new path data b :
  keeps_connections (Handsfree.new path data (Some b)).
Proof.
  unfold Handsfree.new, Handsfree.listenForChanges, Handsfree.getInterface. keeps.
Qed.

Lemma keeps_VoiceCallManager_getInterface this :
  keeps_connections (VoiceCallManager.getInterface this).
Proof. unfold VoiceCallManager.getInterface. keeps. Qed.

Lemma keeps_VoiceCallManager_new path numbers b :
  keeps_connections (VoiceCallManager.new path numbers (Some b)).
Proof.
  unfold VoiceCallManager.new, VoiceCallManager.listenForChanges. keeps;
    try apply keeps_VoiceCallManager_getInterface.
Qed.

(** ** Construction from known data *)

Lemma bind_assoc {A B C} (c : M A) (f : A -> M B) (g : B -> M C) w :
  bind (bind c f) g w = bind c (fun a => bind (f a) g) w.
Proof. unfold bind. destruct (c w) as [[a|e] w1]; reflexivity. Qed.

(** What becomes of the subscription a modem's constructor starts. *)
Lemma Modem_subscription this w :
  let introspect := Introspect (Modem.bus this) "org.ofono" (Modem.path this) in
  let w' := snd (spawn (Modem.listenForChanges this) w) in
  trace w' = (trace w ++ [introspect])%list
  /\ (offers w (Modem.bus this) (Modem.path this) "org.ofono.Modem" ->
      listeners w'
      = (listeners w ++ [listener_of (Modem.bus this) (Modem.path this)
                                     "org.ofono.Modem" "PropertyChanged"])%list
      /\ unhandled w' = unhandled w)
  /\ (forall e,
      service w (length (trace w)) introspect = Fault e ->
      listeners w' = listeners w /\ unhandled w' = (unhandled w ++ [e])%list).
Proof.
  cbv zeta. unfold spawn, Modem.listenForChanges.
  rewrite <- bind_assoc.
  split; [|split].
  - unfold bind, getProxyObject, bind, rpc, ret, getInterface, throw, on.
    destruct (service w _ _) as [e|v]; [reflexivity|].
    cbn. destruct (has_interface v "org.ofono.Modem"); reflexivity.
  - intros Ho. erewrite bind_normal; [|apply interface_obtained; exact Ho].
    split; reflexivity.
  - intros e He. erewrite bind_throw; [|apply interface_refused; exact He].
    split; reflexivity.
Qed.

Lemma Modem_new_spawns path data b w this w' :
  Modem.new path data (Some b) w = (Normal this, w') ->
  Modem.path this = path /\ Modem.bus this = b
  /\ w' = snd (spawn (Modem.listenForChanges this) w).
Proof.
  unfold Modem.new, default_bus, bind at 1, ret, bind.
  match goal with
  | |- context [spawn ?p ?w0] => destruct (spawn p w0) as [[[]|e] w1] eqn:S
  end; intros H; [|discriminate].
  injection H as <- <-. rewrite S. repeat split.
Qed.

(** X6. A modem built by [fromDBusObject] from a listing entry (a path
    and a property dictionary) on a given connection has that path and
    connection; every getter returns the content of the property's
    entry, and null for an optional property without entry.  The
    construction sends one introspection and no method call, opens no
    connection, and leaves the PropertyChanged listener registered when
    the object answers with the Modem interface; when the introspection
    fails no listener is registered and the failure is an unhandled
    rejection, the modem being returned all the same. *)
Theorem Modem_from_listing_entry path props bus w this w' :
  Modem.fromDBusObject (JArr [path; JObj props]) (Some bus) w = (Normal this, w') ->
  Modem.path this = path
  /\ Modem.bus this = bus
  /\ (forall p, Modem.get p this = modem_decoded p props)
  /\ trace w' = (trace w ++ [Introspect bus "org.ofono" path])%list
  /\ connections w' = connections w
  /\ (offers w bus path "org.ofono.Modem" ->
      listeners w'
      = (listeners w ++ [listener_of bus path "org.ofono.Modem" "PropertyChanged"])%list
      /\ unhandled w' = unhandled w)
  /\ (forall e,
      service w (length (trace w)) (Introspect bus "org.ofono" path) = Fault e ->
      listeners w' = listeners w /\ unhandled w' = (unhandled w ++ [e])%list).
Proof.
  intros H.
  destruct (Modem_reads_back _ _ _ _ _ _ H) as (Hp & Hg).
  pose proof (keeps_Modem_fromDBusObject _ _ _ _ _ H) as Hc.
  unfold Modem.fromDBusObject, default_bus in H.
  step H. unfold ret in S. injection S as <- <-.
  step H. apply lift_keeps_world in S. subst w0.
  apply Modem_new_spawns in H. destruct H as (_ & Hb & ->).
  destruct (Modem_subscription this w) as (Ht & Ho & Hf).
  rewrite Hb, Hp in Ht, Ho, Hf.
  split; [exact Hp|]. split; [exact Hb|]. split; [exact Hg|].
  split; [exact Ht|]. split; [exact Hc|]. split; [exact Ho | exact Hf].
Qed.

Lemma Modem_from_listing_entry_witness :
  exists this w',
    Modem.fromDBusObject (JArr [JStr "/modem0"; JObj MoreExamples.modem_entries])
                         (Some 0) (Examples.world MoreExamples.telephony)
    = (Normal this, w')
    /\ Modem.online this = JBool true
    /\ Modem.serial this = JNull
    /\ listeners w' = [listener_of 0 (JStr "/modem0") "org.ofono.Modem" "PropertyChanged"].
Proof.
  do 2 eexists. split; [vm_compute; reflexivity|].
  destruct (Modem_from_listing_entry
              (JStr "/modem0") MoreExamples.modem_entries 0
              (Examples.world MoreExamples.telephony) _ _
              ltac:(vm_compute; reflexivity))
    as (_ & _ & G & _ & _ & L & _).
  split; [exact (G Modem.Online)|]. split; [exact (G Modem.Serial)|].
  apply L. exists Examples.all_interfaces. split; reflexivity.
Defined.

(** Reading an entry either gives a value or throws a TypeError. *)
Lemma js_get_total o k :
  (exists v, js_get o k = Normal v) \/ (exists m, js_get o k = Throw (TypeError m)).
Proof. destruct o; cbn; eauto. Qed.

Lemma js_index_total o i :
  (exists v, js_index o i = Normal v) \/ (exists m, js_index o i = Throw (TypeError m)).
Proof. destruct o; cbn; eauto. Qed.

Lemma entry_total data k :
  (exists v, entry_value data k = Normal v)
  \/ (exists m, entry_value data k = Throw (TypeError m)).
Proof.
  unfold entry_value.
  destruct (js_index_total data 1) as [[o ->]|[m ->]]; cbn [cbind]; [|eauto].
  destruct (js_get_total o k) as [[p ->]|[m ->]]; cbn [cbind]; [|eauto].
  apply js_get_total.
Qed.

Lemma entry_opt_total data k :
  (exists v, entry_value_opt data k = Normal v)
  \/ (exists m, entry_value_opt data k = Throw (TypeError m)).
Proof.
  unfold entry_value_opt.
  destruct (js_index_total data 1) as [[o ->]|[m ->]]; cbn [cbind]; [|eauto].
  destruct (js_get_total o k) as [[p ->]|[m ->]]; cbn [cbind]; [|eauto].
  unfold js_get_opt. destruct (nullish p); [eauto | apply js_get_total].
Qed.

Lemma member_total props k :
  (exists v, member_value props k = Normal v)
  \/ (exists m, member_value props k = Throw (TypeError m)).
Proof.
  unfold member_value.
  destruct (js_get_total props k) as [[p ->]|[m ->]]; cbn [cbind]; [|eauto].
  apply js_get_total.
Qed.

Lemma member_opt_total props k :
  (exists v, member_value_opt props k = Normal v)
  \/ (exists m, member_value_opt props k = Throw (TypeError m)).
Proof.
  unfold member_value_opt.
  destruct (js_get_total props k) as [[p ->]|[m ->]]; cbn [cbind]; [|eauto].
  unfold js_get_opt. destruct (nullish p); [eauto | apply js_get_total].
Qed.

Lemma member_value_absent fs k :
  assoc k fs = None ->
  member_value (JObj fs) k
  = Throw (TypeError "Cannot read properties of undefined (reading 'value')").
Proof. intros H. unfold member_value. cbn. now rewrite H. Qed.

Ltac walk_entries Hk :=
  repeat match goal with
         | |- context [cbind (entry_value ?d ?k) _] =>
             first
               [ rewrite (entry_value_listing _ _ k), Hk; cbn [cbind]
               | let v := fresh "v" in
                 let m := fresh "m" in
                 destruct (entry_total d k) as [[v ->]|[m ->]]; cbn [cbind];
                 [|eexists; reflexivity] ]
         | |- context [cbind (entry_value_opt ?d ?k) _] =>
             let v := fresh "v" in
             let m := fresh "m" in
             destruct (entry_opt_total d k) as [[v ->]|[m ->]]; cbn [cbind];
             [|eexists; reflexivity]
         | |- context [cbind (member_value ?d ?k) _] =>
             first
               [ rewrite (member_value_absent _ k Hk); cbn [cbind]
               | let v := fresh "v" in
                 let m := fresh "m" in
                 destruct (member_total d k) as [[v ->]|[m ->]]; cbn [cbind];
                 [|eexists; reflexivity] ]
         | |- context [cbind (member_value_opt ?d ?k) _] =>
             let v := fresh "v" in
             let m := fresh "m" in
             destruct (member_opt_total d k) as [[v ->]|[m ->]]; cbn [cbind];
             [|eexists; reflexivity]
         end;
  try (eexists; reflexivity).

(** X7. A listing entry whose dictionary lacks one of Online, Powered,
    Lockdown, Interfaces and Type gives no modem: [fromDBusObject]
    throws a TypeError, and nothing has been sent or registered.  With
    a connection given none is opened; without one, the default
    [systemBus()] has opened one before the entry is read. *)
Theorem Modem_entry_without_mandatory_property path props bus w k :
  In k modem_mandatory ->
  assoc k props = None ->
  exists msg,
    Modem.fromDBusObject (JArr [path; JObj props]) bus w
    = (Throw (TypeError msg),
       match bus with
       | Some _ => w
       | None => opened w
       end).
Proof.
  intros Hin Hk.
  assert (exists msg, Modem.arguments (JArr [path; JObj props]) = Throw (TypeError msg))
    as (msg & A).
  { unfold Modem.arguments. cbn [js_index nth cbind].
    cbn in Hin.
    destruct Hin as [<-|[<-|[<-|[<-|[<-|[]]]]]]; walk_entries Hk. }
  exists msg.
  destruct bus; unfold Modem.fromDBusObject, default_bus, systemBus, bind, ret, lift;
    now rewrite A.
Qed.

Lemma Modem_entry_without_mandatory_property_witness :
  (exists msg,
     Modem.fromDBusObject
       (JArr [JStr "/modem0"; JObj [("Online", Variant "b" (JBool true))]])
       (Some 0) (Examples.world MoreExamples.telephony)
     = (Throw (TypeError msg), Examples.world MoreExamples.telephony))
  /\ (exists msg w',
     Modem.fromDBusObject
       (JArr [JStr "/modem0"; JObj [("Online", Variant "b" (JBool true))]])
       None (Examples.world MoreExamples.telephony)
     = (Throw (TypeError msg), w')
     /\ connections w' = 2
     /\ trace w' = []).
Proof.
  split.
  - apply (Modem_entry_without_mandatory_property
             (JStr "/modem0") [("Online", Variant "b" (JBool true))] (Some 0)
             (Examples.world MoreExamples.telephony) "Powered").
    + simpl. tauto.
    + reflexivity.
  - destruct (Modem_entry_without_mandatory_property
                (JStr "/modem0") [("Online", Variant "b" (JBool true))] None
                (Examples.world MoreExamples.telephony) "Powered") as (msg & E).
    + simpl. tauto.
    + reflexivity.
    + exists msg. eexists. split; [exact E|]. split; reflexivity.
Defined.

(** ** Writes *)

Lemma write_effects iface name s v bus path w :
  exists w',
    spawn (bind (bind (getProxyObject bus "org.ofono" path)
                      (fun proxy => getInterface proxy iface))
                (fun i => _ <- call i "SetProperty" [JStr name; Variant s v] ;; ret tt))
          w
    = (Normal tt, w')
    /\ written iface name s v bus path w w'.
Proof.
  match goal with
  | |- context [spawn ?p w] => destruct (spawn p w) as [r w'] eqn:S
  end.
  assert (r = Normal tt) as ->.
  { match type of S with
    | spawn ?p w = _ => destruct (spawn_returns p w) as (w1 & E)
    end.
    congruence. }
  exists w'. split; [reflexivity|].
  unfold written. split; [|split].
  - revert S. apply keeps_spawn. keeps.
  - intros Ho. revert S. unfold spawn.
    erewrite bind_normal; [|apply interface_obtained; exact Ho].
    unfold bind, call, rpc, ret. cbn [ci_bus ci_path ci_name].
    change (service (sent (Introspect bus "org.ofono" path) w)) with (service w).
    rewrite length_trace_sent.
    destruct (service w (S (length (trace w))) _) as [e|x] eqn:R;
      intros S; injection S as <-; cbn [trace sent rejected unhandled].
    + split; [now rewrite <- app_assoc|].
      split; intros ? E; [now injection E as <- | discriminate].
    + split; [now rewrite <- app_assoc|].
      split; intros ? E; [discriminate | reflexivity].
  - intros e He. revert S. unfold spawn.
    erewrite bind_throw; [|apply interface_refused; exact He].
    intros S. injection S as <-. split; reflexivity.
Qed.

Lemma spawn_ext {A} (c c' : M A) w : c w = c' w -> spawn c w = spawn c' w.
Proof. intros H. unfold spawn. now rewrite H. Qed.

Lemma Modem_setProperty_shape this prop s v w :
  Modem.setProperty this prop s v w
  = bind (bind (getProxyObject (Modem.bus this) "org.ofono" (Modem.path this))
               (fun proxy => getInterface proxy "org.ofono.Modem"))
         (fun i => _ <- call i "SetProperty" [JStr prop; Variant s v] ;; ret tt) w.
Proof. unfold Modem.setProperty. now rewrite bind_assoc. Qed.

Ltac modem_setter setter p name v this w :=
  let w1 := fresh "w" in
  let E := fresh "E" in
  let W := fresh "W" in
  destruct (write_effects "org.ofono.Modem" name "b" v
              (Modem.bus (Modem.set p v this)) (Modem.path (Modem.set p v this)) w)
    as (w1 & E & W);
  exists (Modem.set p v this), w1;
  split;
  [ unfold setter, bind at 1;
    rewrite (spawn_ext _ _ _ (Modem_setProperty_shape _ _ _ _ _)), E; reflexivity
  | split; [reflexivity|]; split; [|exact W];
    intros q Hq; apply Modem_get_set_other; congruence ].

(** X8. Each of the three setters of a modem returns at once with the
    field at the value given and every other property as it was; the
    write it starts sends SetProperty with the property's name and the
    value in a Variant of signature "b", opens no connection, and when
    it fails, at the introspection or at the call, the failure is an
    unhandled rejection and the field keeps the value given. *)
Theorem Modem_setters v this w :
  (exists this' w',
      Modem.set_online v this w = (Normal this', w')
      /\ Modem.online this' = v
      /\ (forall q, q <> Modem.Online -> Modem.get q this' = Modem.get q this)
      /\ written "org.ofono.Modem" "Online" "b" v (Modem.bus this) (Modem.path this) w w')
  /\ (exists this' w',
      Modem.set_powered v this w = (Normal this', w')
      /\ Modem.powered this' = v
      /\ (forall q, q <> Modem.Powered -> Modem.get q this' = Modem.get q this)
      /\ written "org.ofono.Modem" "Powered" "b" v (Modem.bus this) (Modem.path this) w w')
  /\ (exists this' w',
      Modem.set_lockdown v this w = (Normal this', w')
      /\ Modem.lockdown this' = v
      /\ (forall q, q <> Modem.Lockdown -> Modem.get q this' = Modem.get q this)
      /\ written "org.ofono.Modem" "Lockdown" "b" v (Modem.bus this) (Modem.path this) w w').
Proof.
  split; [|split].
  - modem_setter Modem.set_online Modem.Online "Online" v this w.
  - modem_setter Modem.set_powered Modem.Powered "Powered" v this w.
  - modem_setter Modem.set_lockdown Modem.Lockdown "Lockdown" v this w.
Qed.

Lemma Modem_setters_witness :
  exists this' w',
    Modem.set_online (JBool false) Examples.modem0
                     (Examples.world MoreExamples.refusing)
    = (Normal this', w')
    /\ Modem.online this' = JBool false
    /\ Modem.powered this' = JBool true
    /\ unhandled w' = [DBusError "org.ofono.Error.Failed"].
Proof.
  destruct (Modem_setters (JBool false) Examples.modem0
              (Examples.world MoreExamples.refusing))
    as ((this' & w' & E & O & F & W) & _).
  exists this', w'. split; [exact E|]. split; [exact O|]. split.
  - exact (F Modem.Powered ltac:(discriminate)).
  - destruct W as (_ & Wo & _). destruct Wo as (_ & Wf & _).
    + exists Examples.all_interfaces. split; reflexivity.
    + exact (Wf (DBusError "org.ofono.Error.Failed") eq_refl).
Defined.

Ltac handsfree_setter setter p name v this w :=
  let w1 := fresh "w" in
  let E := fresh "E" in
  let W := fresh "W" in
  destruct (write_effects "org.ofono.Handsfree" name "b" v
              (Handsfree._bus (Handsfree.set p v this))
              (Handsfree._path (Handsfree.set p v this)) w)
    as (w1 & E & W);
  exists (Handsfree.set p v this), w1;
  split;
  [ unfold setter, bind at 1, Handsfree.setProperty, Handsfree.getInterface;
    rewrite E; reflexivity
  | split; [reflexivity|]; split; [|exact W];
    intros q Hq; apply Handsfree_get_set_other; congruence ].

(** X9. Each of the three setters of a handsfree mirror returns at
    once with the field at the value given, null included, and every
    other property as it was; the write it starts sends SetProperty
    with the property's name and the value in a Variant of signature
    "b", opens no connection, and when it fails the failure is an
    unhandled rejection and the field keeps the value given. *)
Theorem Handsfree_setters v this w :
  (exists this' w',
      Handsfree.set_voiceRecognition v this w = (Normal this', w')
      /\ Handsfree.voiceRecognition this' = v
      /\ (forall q, q <> Handsfree.VoiceRecognition ->
                    Handsfree.get q this' = Handsfree.get q this)
      /\ written "org.ofono.Handsfree" "VoiceRecognition" "b" v
                 (Handsfree._bus this) (Handsfree._path this) w w')
  /\ (exists this' w',
      Handsfree.set_echoCancellingNoiseReduction v this w = (Normal this', w')
      /\ Handsfree.echoCancellingNoiseReduction this' = v
      /\ (forall q, q <> Handsfree.EchoCancellingNoiseReduction ->
                    Handsfree.get q this' = Handsfree.get q this)
      /\ written "org.ofono.Handsfree" "EchoCancellingNoiseReduction" "b" v
                 (Handsfree._bus this) (Handsfree._path this) w w')
  /\ (exists this' w',
      Handsfree.set_distractedDrivingReduction v this w = (Normal this', w')
      /\ Handsfree.distractedDrivingReduction this' = v
      /\ (forall q, q <> Handsfree.DistractedDrivingReduction ->
                    Handsfree.get q this' = Handsfree.get q this)
      /\ written "org.ofono.Handsfree" "DistractedDrivingReduction" "b" v
                 (Handsfree._bus this) (Handsfree._path this) w w').
Proof.
  split; [|split].
  - handsfree_setter Handsfree.set_voiceRecognition Handsfree.VoiceRecognition
      "VoiceRecognition" v this w.
  - handsfree_setter Handsfree.set_echoCancellingNoiseReduction
      Handsfree.EchoCancellingNoiseReduction "EchoCancellingNoiseReduction" v this w.
  - handsfree_setter Handsfree.set_distractedDrivingReduction
      Handsfree.DistractedDrivingReduction "DistractedDrivingReduction" v this w.
Qed.

Lemma Handsfree_setters_witness :
  exists this' w',
    Handsfree.set_echoCancellingNoiseReduction JNull Examples.handsfree0
                                               (Examples.world MoreExamples.telephony)
    = (Normal this', w')
    /\ Handsfree.echoCancellingNoiseReduction this' = JNull
    /\ Handsfree.batteryChargeLevel this' = JNum 5
    /\ trace w'
       = [Introspect 0 "org.ofono" (JStr "/hfp_0");
          MethodCall 0 (JStr "/hfp_0") "org.ofono.Handsfree" "SetProperty"
                     [JStr "EchoCancellingNoiseReduction"; Variant "b" JNull]].
Proof.
  destruct (Handsfree_setters JNull Examples.handsfree0
              (Examples.world MoreExamples.telephony))
    as (_ & (this' & w' & E & O & F & W) & _).
  exists this', w'. split; [exact E|]. split; [exact O|]. split.
  - exact (F Handsfree.BatteryChargeLevel ltac:(discriminate)).
  - destruct W as (_ & Wo & _). destruct Wo as (Wt & _).
    + exists Examples.all_interfaces. split; reflexivity.
    + exact Wt.
Defined.

(** ** A call's state *)

Lemma VoiceCallState_lookup s :
  exists r,
    enum_lookup VoiceCall.VoiceCallState (JStr s) = Normal r
    /\ r <> JStr s
    /\ (forall m, r = JStr m <-> In (s, m) VoiceCall.VoiceCallState)
    /\ (In s (map snd VoiceCall.VoiceCallState) -> r = JUndefined).
Proof.
  unfold enum_lookup. cbn [js_to_string cbind]. eexists. split; [reflexivity|].
  unfold VoiceCall.VoiceCallState.
  cbn [find fst snd map].
  repeat match goal with
         | |- context [String.eqb s ?k] =>
             destruct (String.eqb_spec s k) as [->|?];
             [ split; [discriminate|]; split;
               [ intros m; split;
                 [ intros H; injection H as <-; cbn; tauto
                 | cbn; intros H;
                   repeat (destruct H as [H|H];
                           [try discriminate H; injection H as <-; reflexivity|]);
                   contradiction ]
               | cbn; intros H;
                 repeat (destruct H as [H|H]; [discriminate H|]); contradiction ]
             | ]
         end.
  assert (forall m, ~ In (s, m)
            [("Active", "active"); ("Held", "held"); ("Dialing", "dialing");
             ("Alerting", "alerting"); ("Incoming", "incoming");
             ("Waiting", "waiting"); ("Disconnected", "disconnected")]) as NotIn.
  { intros m H. cbn in H.
    repeat (destruct H as [H|H]; [injection H as E _; congruence|]). contradiction. }
  destruct (mem s object_prototype_keys) eqn:K.
  - split; [discriminate|]. split.
    + intros m. split; [discriminate | intros H; now apply NotIn in H].
    + cbn. intros H.
      repeat (destruct H as [H|H]; [subst s; discriminate K|]). contradiction.
  - split; [discriminate|]. split; [|reflexivity].
    intros m. split; [discriminate | intros H; now apply NotIn in H].
Qed.

(** X10. After a State notification carrying any string, a call's
    [state] is never that string; it is a member of VoiceCallState
    exactly when the string is the member's name (Active, Held, ...),
    and it is undefined for each of the members' values, the words
    active, held, dialing, alerting, incoming, waiting and
    disconnected.  The other properties keep their values and one
    [change] is emitted. *)
Theorem VoiceCall_state_after_notification this signature s :
  exists this',
    VoiceCall.on_PropertyChanged this "State" (Variant signature (JStr s))
    = Normal (this', [Emit VoiceCall.change])
    /\ VoiceCall.state this' <> JStr s
    /\ (forall m, VoiceCall.state this' = JStr m <-> In (s, m) VoiceCall.VoiceCallState)
    /\ (In s (map snd VoiceCall.VoiceCallState) -> VoiceCall.state this' = JUndefined)
    /\ (forall q, q <> VoiceCall.State -> VoiceCall.get q this' = VoiceCall.get q this).
Proof.
  destruct (VoiceCallState_lookup s) as (r & Hr & A & B & C).
  destruct (VoiceCall_stores this VoiceCall.State signature (JStr s) r Hr)
    as (this' & H & G & F).
  exists this'. split; [exact H|].
  change (VoiceCall.get VoiceCall.State this') with (VoiceCall.state this') in G.
  rewrite G.
  split; [exact A|]. split; [exact B|]. split; [exact C | exact F].
Qed.

Lemma VoiceCall_state_after_notification_witness :
  exists this',
    VoiceCall.on_PropertyChanged Examples.call0 "State" (Variant "s" (JStr "held"))
    = Normal (this', [Emit VoiceCall.change])
    /\ VoiceCall.state this' = JUndefined
    /\ VoiceCall.name this' = JStr "".
Proof.
  destruct (VoiceCall_state_after_notification Examples.call0 "s" "held")
    as (this' & H & _ & _ & U & F).
  exists this'. split; [exact H|]. split.
  - apply U. simpl. tauto.
  - exact (F VoiceCall.Name ltac:(discriminate)).
Defined.

(** ** A call built from its path *)

Lemma VoiceCall_new_spawns path data b w this w' :
  VoiceCall.new path data (Some b) w = (Normal this, w') ->
  VoiceCall.path this = path /\ VoiceCall._bus this = b
  /\ w' = snd (spawn (VoiceCall.listenForChanges this) w).
Proof.
  intros H. apply VoiceCall_new_inv in H. destruct H as (state & _ & Ht & Hw).
  rewrite Ht at 1 2. repeat split. exact Hw.
Qed.

(** The subscription of a call registers two listeners or none. *)
Lemma VoiceCall_subscription this w :
  let introspect := Introspect (VoiceCall._bus this) "org.ofono" (VoiceCall.path this) in
  let w' := snd (spawn (VoiceCall.listenForChanges this) w) in
  trace w' = (trace w ++ [introspect])%list
  /\ (offers w (VoiceCall._bus this) (VoiceCall.path this) "org.ofono.VoiceCall" ->
      listeners w'
      = (listeners w ++
         [listener_of (VoiceCall._bus this) (VoiceCall.path this)
                      "org.ofono.VoiceCall" "DisconnectReason";
          listener_of (VoiceCall._bus this) (VoiceCall.path this)
                      "org.ofono.VoiceCall" "PropertyChanged"])%list
      /\ unhandled w' = unhandled w)
  /\ (forall e,
      service w (length (trace w)) introspect = Fault e ->
      listeners w' = listeners w /\ unhandled w' = (unhandled w ++ [e])%list).
Proof.
  cbv zeta. unfold spawn, VoiceCall.listenForChanges, VoiceCall.getInterface.
  split; [|split].
  - unfold bind, getProxyObject, bind, rpc, ret, Bus.getInterface, throw, on.
    destruct (service w _ _) as [e|v]; [reflexivity|].
    cbn. destruct (has_interface v "org.ofono.VoiceCall"); reflexivity.
  - intros Ho. erewrite bind_normal; [|apply interface_obtained; exact Ho].
    split; [|reflexivity].
    cbn. now rewrite <- app_assoc.
  - intros e He. erewrite bind_throw; [|apply interface_refused; exact He].
    split; reflexivity.
Qed.

Lemma obtained_world bus path iface w i w1 :
  bind (getProxyObject bus "org.ofono" path) (fun proxy => getInterface proxy iface) w
  = (Normal i, w1) ->
  i = mkInterface bus path iface
  /\ w1 = sent (Introspect bus "org.ofono" path) w
  /\ offers w bus path iface.
Proof.
  unfold bind, getProxyObject, bind, rpc, ret, getInterface, throw, offers.
  destruct (service w (length (trace w)) (Introspect bus "org.ofono" path))
    as [e|v] eqn:R; [discriminate|].
  cbn. destruct (has_interface v iface) eqn:Hi; [|discriminate].
  intros H. injection H as <- <-. repeat split. now exists v.
Qed.

Lemma call_world i member args w r w1 :
  call i member args w = (r, w1) ->
  w1 = sent (MethodCall (ci_bus i) (ci_path i) (ci_name i) member args) w.
Proof.
  unfold call, rpc. destruct (service _ _ _); intros H; now injection H as _ <-.
Qed.

(** X11. When [fromPath] returns a call on a given connection, the
    call has the path and the connection asked for; three requests
    went out, the introspection, GetProperties and the introspection
    of the subscription, and no connection was opened.  If that last
    introspection is answered with the VoiceCall interface the
    listeners for DisconnectReason and PropertyChanged are registered,
    in this order; if it fails neither is, and the failure is an
    unhandled rejection. *)
Theorem VoiceCall_fromPath_effects path bus w this w' :
  VoiceCall.fromPath path (Some bus) w = (Normal this, w') ->
  let introspect := Introspect bus "org.ofono" path in
  let fetch := MethodCall bus path "org.ofono.VoiceCall" "GetProperties" [] in
  VoiceCall.path this = path
  /\ VoiceCall._bus this = bus
  /\ connections w' = connections w
  /\ trace w' = (trace w ++ [introspect; fetch; introspect])%list
  /\ (forall ifaces,
      service w (S (S (length (trace w)))) introspect = Answer ifaces ->
      has_interface ifaces "org.ofono.VoiceCall" = true ->
      listeners w'
      = (listeners w ++
         [listener_of bus path "org.ofono.VoiceCall" "DisconnectReason";
          listener_of bus path "org.ofono.VoiceCall" "PropertyChanged"])%list
      /\ unhandled w' = unhandled w)
  /\ (forall e,
      service w (S (S (length (trace w)))) introspect = Fault e ->
      listeners w' = listeners w /\ unhandled w' = (unhandled w ++ [e])%list).
Proof.
  intros H. cbv zeta.
  pose proof (keeps_VoiceCall_fromPath _ _ _ _ _ H) as Hc.
  unfold VoiceCall.fromPath, default_bus in H.
  step H. unfold ret in S. injection S as <- <-.
  rewrite <- bind_assoc in H.
  step H. apply obtained_world in S. destruct S as (-> & -> & _).
  step H. apply call_world in S. cbn [ci_bus ci_path ci_name] in S. subst.
  step H. apply lift_keeps_world in S. subst.
  apply VoiceCall_new_spawns in H. destruct H as (Hp & Hb & ->).
  match goal with
  | |- context [spawn _ ?w2] =>
      destruct (VoiceCall_subscription this w2) as (Ht & Ho & Hf)
  end.
  rewrite Hb, Hp in Ht, Ho, Hf.
  split; [exact Hp|]. split; [exact Hb|]. split; [exact Hc|].
  split.
  { rewrite Ht. cbn [trace sent]. now rewrite <- !app_assoc. }
  assert (forall x y z, length (trace (sent x (sent y z))) = S (S (length (trace z))))
    as L by (intros; now rewrite !length_trace_sent).
  split.
  - intros ifaces Hs Hi. apply Ho. exists ifaces. split; [|exact Hi].
    rewrite L. exact Hs.
  - intros e He. apply Hf. rewrite L. exact He.
Qed.

Lemma VoiceCall_fromPath_effects_witness :
  exists this w',
    VoiceCall.fromPath Examples.call_path (Some 0) (Examples.world MoreExamples.telephony)
    = (Normal this, w')
    /\ VoiceCall.path this = Examples.call_path
    /\ listeners w'
       = [listener_of 0 Examples.call_path "org.ofono.VoiceCall" "DisconnectReason";
          listener_of 0 Examples.call_path "org.ofono.VoiceCall" "PropertyChanged"].
Proof.
  do 2 eexists. split; [vm_compute; reflexivity|].
  destruct (VoiceCall_fromPath_effects
              Examples.call_path 0 (Examples.world MoreExamples.telephony) _ _
              ltac:(vm_compute; reflexivity))
    as (P & _ & _ & _ & L & _).
  split; [exact P|].
  apply (L Examples.all_interfaces); reflexivity.
Defined.

(** X12. When the reply to GetProperties lacks one of the properties
    [fromPath] reads without [?.] (LineIdentification, Name,
    Multiparty, State, Emergency, RemoteHeld, RemoteMultiparty),
    [fromPath] throws a TypeError: no call is returned, the two
    requests of the fetch are all that was sent, and no listener is
    registered. *)
Theorem VoiceCall_fromPath_without_mandatory_property path bus w fs k :
  let introspect := Introspect bus "org.ofono" path in
  let fetch := MethodCall bus path "org.ofono.VoiceCall" "GetProperties" [] in
  offers w bus path "org.ofono.VoiceCall" ->
  service w (S (length (trace w))) fetch = Answer (JObj fs) ->
  In k call_mandatory ->
  assoc k fs = None ->
  exists msg,
    VoiceCall.fromPath path (Some bus) w
    = (Throw (TypeError msg), sent fetch (sent introspect w)).
Proof.
  intros introspect fetch Ho Hs Hin Hk.
  assert (exists msg, VoiceCall.fetched (JObj fs) = Throw (TypeError msg)) as (msg & A).
  { unfold VoiceCall.fetched. cbn in Hin.
    destruct Hin as [<-|[<-|[<-|[<-|[<-|[<-|[<-|[]]]]]]]]; walk_entries Hk. }
  exists msg. unfold VoiceCall.fromPath, default_bus.
  unfold bind at 1, ret. rewrite <- bind_assoc.
  erewrite bind_normal; [|apply interface_obtained; exact Ho].
  erewrite bind_normal;
    [|unfold call; apply rpc_answer; rewrite length_trace_sent; exact Hs].
  unfold bind, lift. now rewrite A.
Qed.

Lemma VoiceCall_fromPath_without_mandatory_property_witness :
  exists msg,
    VoiceCall.fromPath Examples.call_path (Some 0) (Examples.world MoreExamples.scant)
    = (Throw (TypeError msg),
       sent (MethodCall 0 Examples.call_path "org.ofono.VoiceCall" "GetProperties" [])
            (sent (Introspect 0 "org.ofono" Examples.call_path)
                  (Examples.world MoreExamples.scant))).
Proof.
  apply (VoiceCall_fromPath_without_mandatory_property
           Examples.call_path 0 (Examples.world MoreExamples.scant)
           [("Name", Variant "s" (JStr ""))] "State").
  - exists Examples.all_interfaces. split; reflexivity.
  - reflexivity.
  - simpl. tauto.
  - reflexivity.
Defined.

(** ** Actions, one call each *)

Lemma action_performs w bus path iface member args :
  performs (bind (bind (getProxyObject bus "org.ofono" path)
                       (fun proxy => getInterface proxy iface))
                 (fun i => _ <- call i member args ;; ret tt))
           bus path iface member args w.
Proof.
  unfold performs. split.
  - intros e He. apply bind_throw. apply interface_refused. exact He.
  - intros Ho. split.
    + intros e He. erewrite bind_normal; [|apply interface_obtained; exact Ho].
      apply bind_throw. unfold call. cbn [ci_bus ci_path ci_name].
      apply rpc_fault. rewrite length_trace_sent. exact He.
    + intros x Hx. erewrite bind_normal; [|apply interface_obtained; exact Ho].
      erewrite bind_normal; [reflexivity|].
      unfold call. cbn [ci_bus ci_path ci_name].
      apply rpc_answer. rewrite length_trace_sent. exact Hx.
Qed.

(** X13. [deflect] calls Deflect with the number it is given and
    [hangup] calls Hangup with no argument, each once and on the call's
    own path and connection; either rejects with the error of the bus
    when the introspection or the call fails, and after a failed
    introspection no call is sent. *)
Theorem VoiceCall_deflect_and_hangup this number w :
  performs (VoiceCall.deflect this number)
           (VoiceCall._bus this) (VoiceCall.path this)
           "org.ofono.VoiceCall" "Deflect" [number] w
  /\ performs (VoiceCall.hangup this)
              (VoiceCall._bus this) (VoiceCall.path this)
              "org.ofono.VoiceCall" "Hangup" [] w.
Proof.
  split.
  - exact (action_performs w _ _ "org.ofono.VoiceCall" "Deflect" [number]).
  - exact (action_performs w _ _ "org.ofono.VoiceCall" "Hangup" []).
Qed.

Lemma VoiceCall_deflect_and_hangup_witness :
  VoiceCall.deflect Examples.call0 (JStr "5551234567")
                    (Examples.world MoreExamples.telephony)
  = (Normal tt,
     sent (MethodCall 0 Examples.call_path "org.ofono.VoiceCall" "Deflect"
                      [JStr "5551234567"])
          (sent (Introspect 0 "org.ofono" Examples.call_path)
                (Examples.world MoreExamples.telephony)))
  /\ VoiceCall.hangup Examples.call0 (Examples.world MoreExamples.silent)
     = (Throw (DBusError "org.freedesktop.DBus.Error.ServiceUnknown"),
        sent (Introspect 0 "org.ofono" Examples.call_path)
             (Examples.world MoreExamples.silent)).
Proof.
  split.
  - destruct (VoiceCall_deflect_and_hangup Examples.call0 (JStr "5551234567")
                (Examples.world MoreExamples.telephony)) as ((_ & D) & _).
    destruct D as (_ & A).
    + exists Examples.all_interfaces. split; reflexivity.
    + apply (A JUndefined). reflexivity.
  - destruct (VoiceCall_deflect_and_hangup Examples.call0 JUndefined
                (Examples.world MoreExamples.silent)) as (_ & (F & _)).
    apply F. reflexivity.
Defined.

(** X14. Seven actions of the manager call the method of their own
    name, with no argument, once, on the manager's path and
    connection: transfer, releaseAndAnswer, releaseAndSwap,
    holdAndAnswer, hangupAll, hangupMultiparty and dialLast.  Each
    rejects with the error of the bus when the introspection or the
    call fails. *)
Theorem VoiceCallManager_actions this w :
  let acts (action : VoiceCallManager.t -> M unit) (member : string) :=
    performs (action this) (VoiceCallManager.bus this) (VoiceCallManager.path this)
             "org.ofono.VoiceCallManager" member [] w in
  acts VoiceCallManager.transfer "Transfer"
  /\ acts VoiceCallManager.releaseAndAnswer "ReleaseAndAnswer"
  /\ acts VoiceCallManager.releaseAndSwap "ReleaseAndSwap"
  /\ acts VoiceCallManager.holdAndAnswer "HoldAndAnswer"
  /\ acts VoiceCallManager.hangupAll "HangupAll"
  /\ acts VoiceCallManager.hangupMultiparty "HangupMultiparty"
  /\ acts VoiceCallManager.dialLast "DialLast".
Proof.
  cbv zeta.
  split; [exact (action_performs w _ _ "org.ofono.VoiceCallManager" "Transfer" [])|].
  split; [exact (action_performs w _ _ "org.ofono.VoiceCallManager" "ReleaseAndAnswer" [])|].
  split; [exact (action_performs w _ _ "org.ofono.VoiceCallManager" "ReleaseAndSwap" [])|].
  split; [exact (action_performs w _ _ "org.ofono.VoiceCallManager" "HoldAndAnswer" [])|].
  split; [exact (action_performs w _ _ "org.ofono.VoiceCallManager" "HangupAll" [])|].
  split; [exact (action_performs w _ _ "org.ofono.VoiceCallManager" "HangupMultiparty" [])|].
  exact (action_performs w _ _ "org.ofono.VoiceCallManager" "DialLast" []).
Qed.

Lemma VoiceCallManager_actions_witness :
  VoiceCallManager.hangupAll Examples.manager0 (Examples.world MoreExamples.refusing)
  = (Throw (DBusError "org.ofono.Error.Failed"),
     sent (MethodCall 0 (JStr "/ril_0") "org.ofono.VoiceCallManager" "HangupAll" [])
          (sent (Introspect 0 "org.ofono" (JStr "/ril_0"))
                (Examples.world MoreExamples.refusing))).
Proof.
  destruct (VoiceCallManager_actions Examples.manager0
              (Examples.world MoreExamples.refusing))
    as (_ & _ & _ & _ & (_ & H) & _).
  destruct H as (F & _).
  - exists Examples.all_interfaces. split; reflexivity.
  - apply F. reflexivity.
Defined.

(** ** Entities built on a modem *)

Lemma NetworkRegistration_new_fields path data b w this w' :
  NetworkRegistration.new path data (Some b) w = (Normal this, w') ->
  NetworkRegistration._path this = path /\ NetworkRegistration._bus this = b.
Proof.
  unfold NetworkRegistration.new, default_bus. intros H.
  step H. unfold ret in S. injection S as <- <-.
  do 4 step H. unfold ret in H. injection H as <- _. split; reflexivity.
Qed.

Lemma Handsfree_new_fields path data b w this w' :
  Handsfree.new path data (Some b) w = (Normal this, w') ->
  Handsfree._path this = path /\ Handsfree._bus this = b.
Proof.
  unfold Handsfree.new, default_bus. intros H.
  step H. unfold ret in S. injection S as <- <-.
  step H. step H. unfold ret in H. injection H as <- _. split; reflexivity.
Qed.

Lemma VoiceCallManager_new_fields path numbers b w this w' :
  VoiceCallManager.new path numbers (Some b) w = (Normal this, w') ->
  VoiceCallManager.path this = path /\ VoiceCallManager.bus this = b
  /\ VoiceCallManager.emergencyNumbers this = numbers.
Proof.
  unfold VoiceCallManager.new, default_bus. intros H.
  step H. unfold ret in S. injection S as <- <-.
  step H. unfold ret in H. injection H as <- _. repeat split.
Qed.

Lemma keeps_NetworkRegistration_ofModem modem :
  keeps_connections (NetworkRegistration.ofModem modem).
Proof.
  unfold NetworkRegistration.ofModem. keeps; try apply keeps_NetworkRegistration_new.
Qed.

Lemma keeps_Handsfree_ofModem modem : keeps_connections (Handsfree.ofModem modem).
Proof. unfold Handsfree.ofModem. keeps; try apply keeps_Handsfree_new. Qed.

Lemma keeps_VoiceCallManager_ofModem modem :
  keeps_connections (VoiceCallManager.ofModem modem).
Proof.
  unfold VoiceCallManager.ofModem. keeps; try apply keeps_VoiceCallManager_new.
Qed.

Lemma listed_when_found s l : index_from s l 0 <> (-1)%Z -> In (JStr s) l.
Proof.
  intros H. destruct (existsb (is_str s) l) eqn:E.
  - apply existsb_exists in E. destruct E as (x & Hx & Hs).
    apply is_str_true in Hs. now subst x.
  - exfalso. apply H. apply index_from_absent. intros Hin.
    assert (existsb (is_str s) l = true) as T.
    { apply existsb_exists. exists (JStr s). split; [exact Hin|]. now apply is_str_true. }
    congruence.
Qed.

Ltac built_on_modem H new_fields :=
  step H;
  match goal with
  | S : lift (js_indexOf _ _) _ = _ |- _ =>
      unfold lift in S; injection S as S ?; subst
  end;
  match type of H with
  | (if (?i =? -1)%Z then _ else _) _ = _ =>
      destruct (Z.eqb_spec i (-1)) as [?|Hi];
      [ exfalso; revert H; unfold bind, lift, throw;
        destruct (js_to_string _); discriminate |]
  end;
  do 4 step H; apply new_fields in H.

(** X15. When [ofModem] returns a NetworkRegistration, a Handsfree or
    a VoiceCallManager, the entity has the modem's path and
    connection, no connection was opened on the way, and the modem's
    interfaces, when they are an array, list the entity's interface. *)
Theorem ofModem_builds_on_the_modem modem w :
  (forall this w',
      NetworkRegistration.ofModem modem w = (Normal this, w') ->
      NetworkRegistration._path this = Modem.path modem
      /\ NetworkRegistration._bus this = Modem.bus modem
      /\ connections w' = connections w
      /\ forall l, Modem.interfaces modem = JArr l ->
                   In (JStr "org.ofono.NetworkRegistration") l)
  /\ (forall this w',
      Handsfree.ofModem modem w = (Normal this, w') ->
      Handsfree._path this = Modem.path modem
      /\ Handsfree._bus this = Modem.bus modem
      /\ connections w' = connections w
      /\ forall l, Modem.interfaces modem = JArr l -> In (JStr "org.ofono.Handsfree") l)
  /\ (forall this w',
      VoiceCallManager.ofModem modem w = (Normal this, w') ->
      VoiceCallManager.path this = Modem.path modem
      /\ VoiceCallManager.bus this = Modem.bus modem
      /\ connections w' = connections w
      /\ forall l, Modem.interfaces modem = JArr l ->
                   In (JStr "org.ofono.VoiceCallManager") l).
Proof.
  split; [|split]; intros this w' H.
  - pose proof (keeps_NetworkRegistration_ofModem _ _ _ _ H) as Hc.
    unfold NetworkRegistration.ofModem in H.
    built_on_modem H NetworkRegistration_new_fields.
    destruct H as (Hp & Hb).
    split; [exact Hp|]. split; [exact Hb|]. split; [exact Hc|].
    intros l Hl. rewrite Hl in S. cbn in S. injection S as <-.
    now apply listed_when_found.
  - pose proof (keeps_Handsfree_ofModem _ _ _ _ H) as Hc.
    unfold Handsfree.ofModem in H.
    built_on_modem H Handsfree_new_fields.
    destruct H as (Hp & Hb).
    split; [exact Hp|]. split; [exact Hb|]. split; [exact Hc|].
    intros l Hl. rewrite Hl in S. cbn in S. injection S as <-.
    now apply listed_when_found.
  - pose proof (keeps_VoiceCallManager_ofModem _ _ _ _ H) as Hc.
    unfold VoiceCallManager.ofModem in H.
    built_on_modem H VoiceCallManager_new_fields.
    destruct H as (Hp & Hb & _).
    split; [exact Hp|]. split; [exact Hb|]. split; [exact Hc|].
    intros l Hl. rewrite Hl in S. cbn in S. injection S as <-.
    now apply listed_when_found.
Qed.

Lemma ofModem_builds_on_the_modem_witness :
  (exists this w',
      NetworkRegistration.ofModem MoreExamples.modem1
                                  (Examples.world MoreExamples.telephony)
      = (Normal this, w')
      /\ NetworkRegistration._path this = JStr "/modem1"
      /\ connections w' = 1)
  /\ (exists this w',
      Handsfree.ofModem MoreExamples.modem1 (Examples.world MoreExamples.telephony)
      = (Normal this, w')
      /\ Handsfree._bus this = 0)
  /\ (exists this w',
      VoiceCallManager.ofModem MoreExamples.modem1
                               (Examples.world MoreExamples.telephony)
      = (Normal this, w')
      /\ VoiceCallManager.path this = JStr "/modem1").
Proof.
  destruct (ofModem_builds_on_the_modem MoreExamples.modem1
              (Examples.world MoreExamples.telephony)) as (N & H & V).
  split; [|split].
  - do 2 eexists. split; [vm_compute; reflexivity|].
    destruct (N _ _ ltac:(vm_compute; reflexivity)) as (P & _ & C & _).
    split; [exact P | exact C].
  - do 2 eexists. split; [vm_compute; reflexivity|].
    destruct (H _ _ ltac:(vm_compute; reflexivity)) as (_ & B & _).
    exact B.
  - do 2 eexists. split; [vm_compute; reflexivity|].
    destruct (V _ _ ltac:(vm_compute; reflexivity)) as (P & _).
    exact P.
Defined.

(** ** What the constructors compute *)

Lemma existsb_is_str s l : existsb (is_str s) l = true <-> In (JStr s) l.
Proof.
  rewrite existsb_exists. split.
  - intros (x & Hx & Hs). apply is_str_true in Hs. now subst.
  - intros H. exists (JStr s). split; [exact H | now apply is_str_true].
Qed.

(** The constructor of a network registration looks up Mode, then
    Status, then builds the technology, and starts the subscription
    once all three are there. *)
Lemma NetworkRegistration_new_returns path data b w mode status technology :
  enum_lookup NetworkRegistration.NetworkRegistrationMode
              (NetworkRegistration.d_mode data) = Normal mode ->
  enum_lookup NetworkRegistration.NetworkRegistrationStatus
              (NetworkRegistration.d_status data) = Normal status ->
  (if truthy (NetworkRegistration.d_technology data)
   then NetworkRegistration.constructTechnology (NetworkRegistration.d_technology data)
   else Normal JNull) = Normal technology ->
  exists this w',
    NetworkRegistration.new path data (Some b) w = (Normal this, w')
    /\ NetworkRegistration.mode this = mode
    /\ NetworkRegistration.status this = status
    /\ NetworkRegistration.technology this = technology.
Proof.
  intros Hm Hs Ht.
  unfold NetworkRegistration.new, default_bus.
  unfold bind at 1, ret. unfold bind at 1, lift. rewrite Hm.
  unfold bind at 1. rewrite Hs. unfold bind at 1. rewrite Ht. unfold bind.
  match goal with
  | |- context [spawn ?p ?w0] => destruct (spawn_returns p w0) as (w1 & ->)
  end.
  do 2 eexists. split; [reflexivity|]. repeat split.
Qed.

Lemma NetworkRegistration_new_throws path data b w mode status e :
  enum_lookup NetworkRegistration.NetworkRegistrationMode
              (NetworkRegistration.d_mode data) = Normal mode ->
  enum_lookup NetworkRegistration.NetworkRegistrationStatus
              (NetworkRegistration.d_status data) = Normal status ->
  (if truthy (NetworkRegistration.d_technology data)
   then NetworkRegistration.constructTechnology (NetworkRegistration.d_technology data)
   else Normal JNull) = Throw e ->
  NetworkRegistration.new path data (Some b) w = (Throw e, w).
Proof.
  intros Hm Hs Ht.
  unfold NetworkRegistration.new, default_bus.
  unfold bind at 1, ret. unfold bind at 1, lift. rewrite Hm.
  unfold bind at 1. rewrite Hs. unfold bind at 1. now rewrite Ht.
Qed.

(** X16. The constructor of a network registration, handed a Mode and
    a Status that have a string form, gives [technology] null when the
    Technology it is handed is absent, null, or otherwise falsy; for an
    array it gives a record of five flags, each true exactly when the
    array holds the lower-case word (gsm, edge, umts, hspa, lte); for
    [true], a number other than zero or a dictionary it throws a
    TypeError, and then no request is sent and no listener
    registered. *)
Theorem NetworkRegistration_technology path data bus w :
  has_string_form (NetworkRegistration.d_mode data) = true ->
  has_string_form (NetworkRegistration.d_status data) = true ->
  (truthy (NetworkRegistration.d_technology data) = false ->
   exists this w',
     NetworkRegistration.new path data (Some bus) w = (Normal this, w')
     /\ NetworkRegistration.technology this = JNull)
  /\ (forall l,
      NetworkRegistration.d_technology data = JArr l ->
      exists this w' gsm edge umts hspa lte,
        NetworkRegistration.new path data (Some bus) w = (Normal this, w')
        /\ NetworkRegistration.technology this
           = JObj [("GSM", JBool gsm); ("EDGE", JBool edge); ("UMTS", JBool umts);
                   ("HSPA", JBool hspa); ("LTE", JBool lte)]
        /\ (gsm = true <-> In (JStr "gsm") l)
        /\ (edge = true <-> In (JStr "edge") l)
        /\ (umts = true <-> In (JStr "umts") l)
        /\ (hspa = true <-> In (JStr "hspa") l)
        /\ (lte = true <-> In (JStr "lte") l))
  /\ (truthy (NetworkRegistration.d_technology data) = true ->
      lacks_includes (NetworkRegistration.d_technology data) = true ->
      exists msg,
        NetworkRegistration.new path data (Some bus) w = (Throw (TypeError msg), w)).
Proof.
  intros Hm Hs.
  destruct (enum_lookup_converts NetworkRegistration.NetworkRegistrationMode _ Hm)
    as (mode & Em).
  destruct (enum_lookup_converts NetworkRegistration.NetworkRegistrationStatus _ Hs)
    as (status & Es).
  split; [|split].
  - intros Hf.
    destruct (NetworkRegistration_new_returns path data bus w mode status JNull Em Es)
      as (this & w' & E & _ & _ & T); [now rewrite Hf|].
    exists this, w'. split; [exact E | exact T].
  - intros l Hl.
    destruct (NetworkRegistration_new_returns path data bus w mode status
                (JObj [("GSM", JBool (existsb (is_str "gsm") l));
                       ("EDGE", JBool (existsb (is_str "edge") l));
                       ("UMTS", JBool (existsb (is_str "umts") l));
                       ("HSPA", JBool (existsb (is_str "hspa") l));
                       ("LTE", JBool (existsb (is_str "lte") l))]) Em Es)
      as (this & w' & E & _ & _ & T); [now rewrite Hl|].
    exists this, w'. do 5 eexists. split; [exact E|]. split; [exact T|].
    repeat split; apply existsb_is_str.
  - intros Ht Hl.
    destruct (NetworkRegistration.d_technology data) as [| |b|n|s|l|fs|k] eqn:D;
      try discriminate Ht; try discriminate Hl;
      eexists; apply (NetworkRegistration_new_throws path data bus w mode status _ Em Es);
      rewrite D; try rewrite Ht; reflexivity.
Qed.

Lemma NetworkRegistration_technology_witness :
  (exists this w',
      NetworkRegistration.new
        (JStr "/ril_0")
        (NetworkRegistration.mkData (JStr "auto") (JStr "registered") JUndefined
           JUndefined JUndefined JUndefined JUndefined (JStr "operator") JUndefined
           JUndefined)
        (Some 0) (Examples.world MoreExamples.telephony)
      = (Normal this, w')
      /\ NetworkRegistration.technology this = JNull)
  /\ (exists msg,
      NetworkRegistration.new
        (JStr "/ril_0")
        (NetworkRegistration.mkData (JStr "auto") (JStr "registered") JUndefined
           JUndefined JUndefined JUndefined (JNum 7) (JStr "operator") JUndefined
           JUndefined)
        (Some 0) (Examples.world MoreExamples.telephony)
      = (Throw (TypeError msg), Examples.world MoreExamples.telephony)).
Proof.
  split.
  - destruct (NetworkRegistration_technology
                (JStr "/ril_0")
                (NetworkRegistration.mkData (JStr "auto") (JStr "registered") JUndefined
                   JUndefined JUndefined JUndefined JUndefined (JStr "operator")
                   JUndefined JUndefined)
                0 (Examples.world MoreExamples.telephony) eq_refl eq_refl) as (H & _).
    apply H. reflexivity.
  - destruct (NetworkRegistration_technology
                (JStr "/ril_0")
                (NetworkRegistration.mkData (JStr "auto") (JStr "registered") JUndefined
                   JUndefined JUndefined JUndefined (JNum 7) (JStr "operator")
                   JUndefined JUndefined)
                0 (Examples.world MoreExamples.telephony) eq_refl eq_refl) as (_ & _ & H).
    apply H; reflexivity.
Defined.

Lemma NetworkRegistration_new_enums path data b w this w' :
  NetworkRegistration.new path data (Some b) w = (Normal this, w') ->
  enum_lookup NetworkRegistration.NetworkRegistrationMode
              (NetworkRegistration.d_mode data)
  = Normal (NetworkRegistration.mode this)
  /\ enum_lookup NetworkRegistration.NetworkRegistrationStatus
                 (NetworkRegistration.d_status data)
     = Normal (NetworkRegistration.status this)
  /\ NetworkRegistration.name this = NetworkRegistration.d_name data.
Proof.
  unfold NetworkRegistration.new, default_bus. intros H.
  apply bind_normal_inv in H. destruct H as (b0 & w0 & Hb & H).
  apply bind_normal_inv in H. destruct H as (mode & w1 & Hm & H).
  apply bind_normal_inv in H. destruct H as (status & w2 & Hs & H).
  apply bind_normal_inv in H. destruct H as (technology & w3 & Ht & H).
  apply bind_normal_inv in H. destruct H as (u & w4 & Hu & H).
  unfold ret in H. injection H as <- _.
  unfold lift in Hm, Hs. injection Hm as Hm _. injection Hs as Hs _.
  repeat split; assumption.
Qed.

(** X17. A network registration built from a Mode that is one of the
    words oFono sends (auto, auto-only, manual) has [mode] undefined,
    since the constructor looks the word up among the member names of
    the enum; a later Mode notification with the same word stores the
    word itself.  The same holds of Status and its six words. *)
Theorem NetworkRegistration_mode_and_status path data bus w this w' word signature :
  NetworkRegistration.new path data (Some bus) w = (Normal this, w') ->
  (In word (map snd NetworkRegistration.NetworkRegistrationMode) ->
   NetworkRegistration.d_mode data = JStr word ->
   NetworkRegistration.mode this = JUndefined
   /\ exists this',
        NetworkRegistration.on_PropertyChanged this "Mode" (Variant signature (JStr word))
        = Normal (this', [Emit NetworkRegistration.change])
        /\ NetworkRegistration.mode this' = JStr word)
  /\ (In word (map snd NetworkRegistration.NetworkRegistrationStatus) ->
      NetworkRegistration.d_status data = JStr word ->
      NetworkRegistration.status this = JUndefined
      /\ exists this',
           NetworkRegistration.on_PropertyChanged this "Status"
                                                  (Variant signature (JStr word))
           = Normal (this', [Emit NetworkRegistration.change])
           /\ NetworkRegistration.status this' = JStr word).
Proof.
  intros H. apply NetworkRegistration_new_enums in H. destruct H as (Hm & Hs & _).
  split; intros Hin Hd.
  - split.
    + rewrite Hd in Hm. cbn in Hin.
      repeat (destruct Hin as [<-|Hin];
              [cbn in Hm; injection Hm as Hm; symmetry; exact Hm|]).
      contradiction.
    + destruct (NetworkRegistration_stores this NetworkRegistration.Mode
                  signature (JStr word)) as (this' & E & G & _).
      exists this'. split; [exact E | exact G].
  - split.
    + rewrite Hd in Hs. cbn in Hin.
      repeat (destruct Hin as [<-|Hin];
              [cbn in Hs; injection Hs as Hs; symmetry; exact Hs|]).
      contradiction.
    + destruct (NetworkRegistration_stores this NetworkRegistration.Status
                  signature (JStr word)) as (this' & E & G & _).
      exists this'. split; [exact E | exact G].
Qed.

Lemma NetworkRegistration_mode_and_status_witness :
  exists this w',
    NetworkRegistration.ofModem MoreExamples.modem1
                                (Examples.world MoreExamples.telephony)
    = (Normal this, w')
    /\ NetworkRegistration.mode this = JUndefined
    /\ exists this',
         NetworkRegistration.on_PropertyChanged this "Mode" (Variant "s" (JStr "auto"))
         = Normal (this', [Emit NetworkRegistration.change])
         /\ NetworkRegistration.mode this' = JStr "auto".
Proof.
  do 2 eexists. split; [vm_compute; reflexivity|].
  refine (proj1 (NetworkRegistration_mode_and_status
                   (JStr "/modem1")
                   (NetworkRegistration.mkData (JStr "auto") (JStr "registered")
                      JUndefined JUndefined JUndefined JUndefined
                      (JArr [JStr "gsm"; JStr "lte"]) (JStr "operator")
                      JUndefined JUndefined)
                   0
                   (sent (MethodCall 0 (JStr "/modem1") "org.ofono.NetworkRegistration"
                                     "GetProperties" [])
                         (sent (Introspect 0 "org.ofono" (JStr "/modem1"))
                               (Examples.world MoreExamples.telephony)))
                   _ _ "auto" "s" _) _ eq_refl).
  - vm_compute. reflexivity.
  - simpl. tauto.
Defined.

(** X18. The constructor of a handsfree mirror turns a Features array
    into a record with the ten fields of HandsfreeFeatures, in the
    order of the interface, each true exactly when the array holds the
    field's word; when Features is undefined, null, a boolean, a number
    or a dictionary the constructor throws a TypeError before anything
    is sent. *)
Theorem Handsfree_features path data bus w :
  (forall l,
      Handsfree.d_features data = JArr l ->
      exists this w' fields,
        Handsfree.new path data (Some bus) w = (Normal this, w')
        /\ Handsfree.features this = JObj fields
        /\ map fst fields = map fst feature_words
        /\ forall key word,
             In (key, word) feature_words ->
             exists b, assoc key fields = Some (JBool b)
                       /\ (b = true <-> In (JStr word) l))
  /\ (lacks_includes (Handsfree.d_features data) = true ->
      exists msg, Handsfree.new path data (Some bus) w = (Throw (TypeError msg), w)).
Proof.
  split.
  - intros l Hl.
    unfold Handsfree.new, default_bus, bind at 1, ret, bind at 1, lift.
    rewrite Hl. unfold Handsfree.constructFeatures. cbn [js_includes cbind].
    unfold bind.
    match goal with
    | |- context [spawn ?p ?w0] => destruct (spawn_returns p w0) as (w1 & ->)
    end.
    do 3 eexists. split; [reflexivity|]. split; [reflexivity|].
    split; [reflexivity|].
    intros key word Hin. cbn in Hin.
    repeat (destruct Hin as [Hin|Hin];
            [injection Hin as <- <-; eexists; split;
             [reflexivity | apply existsb_is_str]|]).
    contradiction.
  - intros Hl.
    unfold Handsfree.new, default_bus, bind at 1, ret, bind at 1, lift.
    destruct (Handsfree.d_features data) as [| |b|n|s|l|fs|k];
      try discriminate Hl; eexists; reflexivity.
Qed.

Lemma Handsfree_features_witness :
  exists this w',
    Handsfree.ofModem MoreExamples.modem1 (Examples.world MoreExamples.telephony)
    = (Normal this, w')
    /\ exists fields,
         Handsfree.features this = JObj fields
         /\ assoc "Transfer" fields = Some (JBool true)
         /\ assoc "PrivateChat" fields = Some (JBool false).
Proof.
  do 2 eexists. split; [vm_compute; reflexivity|].
  destruct (Handsfree_features
              (JStr "/modem1")
              (Handsfree.mkData (JArr [JStr "voice-recognition"; JStr "transfer"])
                 (JBool true) (JBool false) JUndefined (JNum 4) (JArr []) JUndefined)
              0
              (sent (MethodCall 0 (JStr "/modem1") "org.ofono.Handsfree"
                                "GetProperties" [])
                    (sent (Introspect 0 "org.ofono" (JStr "/modem1"))
                          (Examples.world MoreExamples.telephony))))
    as (H & _).
  destruct (H _ eq_refl) as (this & w' & fields & E & F & _ & W).
  vm_compute in E. injection E as <- _.
  exists fields. split; [exact F|]. split.
  - destruct (W "Transfer" "transfer") as (b & A & B); [simpl; tauto|].
    rewrite A. destruct b; [reflexivity|].
    assert (false = true) as X by (apply B; simpl; tauto). discriminate X.
  - destruct (W "PrivateChat" "private-chat") as (b & A & B); [simpl; tauto|].
    rewrite A. destruct b; [|reflexivity].
    assert (In (JStr "private-chat") [JStr "voice-recognition"; JStr "transfer"]) as X
      by (now apply B).
    simpl in X. destruct X as [X|[X|[]]]; discriminate X.
Defined.

(** ** Listings *)

Lemma mapM_Forall2 {A B} (f : A -> M B) (R : A -> B -> Prop) :
  (forall a w b w', f a w = (Normal b, w') -> R a b) ->
  forall l w bs w', mapM f l w = (Normal bs, w') -> Forall2 R l bs.
Proof.
  intros Hf. induction l as [|a l IH]; intros w bs w' H; simpl in H.
  - unfold ret in H. injection H as <- _. constructor.
  - step H. step H. unfold ret in H. inversion H; subst.
    constructor; [eapply Hf; eassumption | eapply IH; eassumption].
Qed.

Lemma call_answered i member args w v w1 :
  call i member args w = (Normal v, w1) ->
  service w (length (trace w))
          (MethodCall (ci_bus i) (ci_path i) (ci_name i) member args)
  = Answer v.
Proof.
  unfold call, rpc. destruct (service _ _ _) as [e|x]; intros H; [discriminate|].
  now injection H as <- _.
Qed.

Lemma elements_of_array v l : js_elements v = Normal l -> v = JArr l.
Proof. destruct v; cbn; intros H; try discriminate. now injection H as <-. Qed.

Lemma VoiceCall_fromPath_path path b w this w' :
  VoiceCall.fromPath path (Some b) w = (Normal this, w') -> VoiceCall.path this = path.
Proof.
  unfold VoiceCall.fromPath, default_bus. intros H.
  step H. unfold ret in S. injection S as <- <-.
  do 4 step H. now apply VoiceCall_new_spawns in H.
Qed.

Lemma VoiceCall_fromDBusObject_path data b w this w' :
  VoiceCall.fromDBusObject data (Some b) w = (Normal this, w') ->
  js_index data 0 = Normal (VoiceCall.path this).
Proof.
  unfold VoiceCall.fromDBusObject, default_bus. intros H.
  step H. unfold ret in S. injection S as <- <-.
  step H. apply VoiceCall_new_spawns in H. destruct H as (-> & _).
  unfold lift in S. injection S as S _. unfold VoiceCall.arguments in S.
  destruct (js_index data 0) as [p|]; cbn [cbind] in S; [|discriminate].
  cbind_inv S. now injection S as <-.
Qed.

Lemma keeps_VoiceCallManager_getCalls this :
  keeps_connections (VoiceCallManager.getCalls this).
Proof.
  unfold VoiceCallManager.getCalls. keeps;
    first [apply keeps_VoiceCallManager_getInterface | apply keeps_VoiceCall_fromDBusObject].
Qed.

Lemma keeps_VoiceCallManager_privateChat this path :
  keeps_connections (VoiceCallManager.privateChat this path).
Proof.
  unfold VoiceCallManager.privateChat. keeps;
    first [apply keeps_VoiceCallManager_getInterface | apply keeps_VoiceCall_fromPath].
Qed.

Lemma keeps_VoiceCallManager_createMultiparty this :
  keeps_connections (VoiceCallManager.createMultiparty this).
Proof.
  unfold VoiceCallManager.createMultiparty. keeps;
    first [apply keeps_VoiceCallManager_getInterface | apply keeps_VoiceCall_fromPath].
Qed.

Ltac listing H :=
  let I := fresh "I" in
  let C := fresh "C" in
  let L := fresh "L" in
  step H;
  match goal with
  | S : VoiceCallManager.getInterface _ _ = _ |- _ =>
      unfold VoiceCallManager.getInterface in S;
      apply obtained_world in S; destruct S as (-> & -> & _)
  end;
  step H;
  match goal with
  | S : call _ _ _ _ = _ |- _ =>
      pose proof (call_answered _ _ _ _ _ _ S) as C;
      apply call_world in S; cbn [ci_bus ci_path ci_name] in S, C;
      rewrite length_trace_sent in C;
      change (service (sent _ ?w)) with (service w) in C
  end;
  step H;
  match goal with
  | S : lift (js_elements _) _ = _ |- _ =>
      unfold lift in S; injection S as L ?; apply elements_of_array in L; subst
  end.

(** X19. The calls that [getCalls], [privateChat] and
    [createMultiparty] return are all on the manager's connection, and
    no connection is opened.  [getCalls] returns one call per entry of
    the reply, in order, with the entry's first component as path;
    [privateChat] and [createMultiparty] return one call per path of
    the reply, in order, with that path. *)
Theorem VoiceCallManager_listings this w :
  let bus := VoiceCallManager.bus this in
  let path := VoiceCallManager.path this in
  let request member args :=
    MethodCall bus path "org.ofono.VoiceCallManager" member args in
  (forall calls w',
      VoiceCallManager.getCalls this w = (Normal calls, w') ->
      Forall (fun c => VoiceCall._bus c = bus) calls
      /\ connections w' = connections w
      /\ exists entries,
           service w (S (length (trace w))) (request "GetCalls" []) = Answer (JArr entries)
           /\ Forall2 (fun e c => js_index e 0 = Normal (VoiceCall.path c)) entries calls)
  /\ (forall other calls w',
      VoiceCallManager.privateChat this other w = (Normal calls, w') ->
      Forall (fun c => VoiceCall._bus c = bus) calls
      /\ connections w' = connections w
      /\ service w (S (length (trace w))) (request "PrivateChat" [other])
         = Answer (JArr (map VoiceCall.path calls)))
  /\ (forall calls w',
      VoiceCallManager.createMultiparty this w = (Normal calls, w') ->
      Forall (fun c => VoiceCall._bus c = bus) calls
      /\ connections w' = connections w
      /\ service w (S (length (trace w))) (request "CreateMultiparty" [])
         = Answer (JArr (map VoiceCall.path calls))).
Proof.
  cbv zeta.
  assert (forall (l : list JsValue) (cs : list VoiceCall.t),
             Forall2 (fun p c => VoiceCall.path c = p) l cs ->
             map VoiceCall.path cs = l) as Paths.
  { induction 1; [reflexivity|]. cbn [map]. congruence. }
  split; [|split].
  - intros calls w' H.
    split; [exact (getCalls_bus _ _ _ _ H)|].
    split; [exact (keeps_VoiceCallManager_getCalls _ _ _ _ H)|].
    unfold VoiceCallManager.getCalls in H. listing H.
    eexists. split; [exact C|].
    eapply mapM_Forall2; [|exact H].
    intros ? ? ? ?. apply VoiceCall_fromDBusObject_path.
  - intros other calls w' H.
    split; [exact (privateChat_bus _ _ _ _ _ H)|].
    split; [exact (keeps_VoiceCallManager_privateChat _ _ _ _ _ H)|].
    unfold VoiceCallManager.privateChat in H. listing H.
    rewrite C. do 2 f_equal. symmetry. apply Paths.
    eapply mapM_Forall2; [|exact H].
    intros ? ? ? ?. apply VoiceCall_fromPath_path.
  - intros calls w' H.
    split; [exact (createMultiparty_bus _ _ _ _ H)|].
    split; [exact (keeps_VoiceCallManager_createMultiparty _ _ _ _ H)|].
    unfold VoiceCallManager.createMultiparty in H. listing H.
    rewrite C. do 2 f_equal. symmetry. apply Paths.
    eapply mapM_Forall2; [|exact H].
    intros ? ? ? ?. apply VoiceCall_fromPath_path.
Qed.

Lemma VoiceCallManager_listings_witness :
  (exists calls w',
      VoiceCallManager.getCalls Examples.manager0 (Examples.world MoreExamples.telephony)
      = (Normal calls, w')
      /\ Forall (fun c => VoiceCall._bus c = 0) calls
      /\ connections w' = 1)
  /\ (exists calls w',
      VoiceCallManager.privateChat Examples.manager0 Examples.call_path
                                   (Examples.world MoreExamples.telephony)
      = (Normal calls, w')
      /\ Forall (fun c => VoiceCall._bus c = 0) calls)
  /\ (exists calls w',
      VoiceCallManager.createMultiparty Examples.manager0
                                        (Examples.world MoreExamples.telephony)
      = (Normal calls, w')
      /\ connections w' = 1).
Proof.
  destruct (VoiceCallManager_listings Examples.manager0
              (Examples.world MoreExamples.telephony)) as (G & P & C).
  split; [|split].
  - do 2 eexists. split; [vm_compute; reflexivity|].
    destruct (G _ _ ltac:(vm_compute; reflexivity)) as (B & K & _).
    split; [exact B | exact K].
  - do 2 eexists. split; [vm_compute; reflexivity|].
    destruct (P Examples.call_path _ _ ltac:(vm_compute; reflexivity)) as (B & _).
    exact B.
  - do 2 eexists. split; [vm_compute; reflexivity|].
    destruct (C _ _ ltac:(vm_compute; reflexivity)) as (_ & K & _).
    exact K.
Defined.

(** ** Dialing *)

Lemma VoiceCall_fromPath_default_opens path w r w' :
  VoiceCall.fromPath path None w = (r, w') -> connections w' = S (connections w).
Proof.
  intros H.
  change (VoiceCall.fromPath path None w)
    with (VoiceCall.fromPath path (Some (connections w)) (opened w)) in H.
  now apply keeps_VoiceCall_fromPath in H.
Qed.

(** X20. When [dial] returns a call, one Dial request went out on the
    manager's connection, with the number as given and, for the caller
    id, "default" when the second argument is left out, "enabled" when
    it is truthy and "disabled" otherwise (null too); the call has the
    path the service answered, and it is on a connection opened for it:
    the connections are one more than before, and the call's is none
    of those that existed. *)
Theorem dial_effects this number hideCallerID w call w' :
  VoiceCallManager.dial this number hideCallerID w = (Normal call, w') ->
  exists word,
    service w (S (length (trace w)))
            (MethodCall (VoiceCallManager.bus this) (VoiceCallManager.path this)
                        "org.ofono.VoiceCallManager" "Dial" [number; JStr word])
    = Answer (VoiceCall.path call)
    /\ (hideCallerID = JUndefined -> word = "default")
    /\ (hideCallerID <> JUndefined -> truthy hideCallerID = true -> word = "enabled")
    /\ (hideCallerID <> JUndefined -> truthy hideCallerID = false -> word = "disabled")
    /\ VoiceCall._bus call = connections w
    /\ connections w' = S (connections w)
    /\ (VoiceCallManager.bus this < connections w ->
        VoiceCall._bus call <> VoiceCallManager.bus this).
Proof.
  intros H.
  destruct (dial_opens_a_connection _ _ _ _ _ _ H) as (Hb & Hn).
  unfold VoiceCallManager.dial, VoiceCallManager.getInterface in H.
  step H. pose proof (obtain_keeps_connections _ _ _ _ _ _ S) as K1.
  apply obtained_world in S. destruct S as (-> & -> & _).
  step H. pose proof (call_keeps_connections _ _ _ _ _ _ S) as K2.
  pose proof (call_answered _ _ _ _ _ _ S) as C.
  cbn [ci_bus ci_path ci_name] in C. rewrite length_trace_sent in C.
  change (service (sent _ w)) with (service w) in C.
  pose proof (VoiceCall_fromPath_default_opens _ _ _ _ H) as K3.
  assert (VoiceCall.path call = a) as Hp.
  { change (VoiceCall.fromPath a None w0)
      with (VoiceCall.fromPath a (Some (connections w0)) (opened w0)) in H.
    now apply VoiceCall_fromPath_path in H. }
  eexists. split; [rewrite Hp; exact C|].
  split; [now intros ->|].
  split; [intros Hu Ht; destruct hideCallerID; try congruence; now rewrite Ht|].
  split; [intros Hu Ht; destruct hideCallerID; try congruence; now rewrite Ht|].
  split; [exact Hb|]. split; [congruence | exact Hn].
Qed.

Lemma dial_effects_witness :
  exists call w',
    VoiceCallManager.dial Examples.manager0 (JStr "112") JNull
                          (Examples.world MoreExamples.telephony)
    = (Normal call, w')
    /\ service (Examples.world MoreExamples.telephony) 1
               (MethodCall 0 (JStr "/ril_0") "org.ofono.VoiceCallManager" "Dial"
                           [JStr "112"; JStr "disabled"])
       = Answer (VoiceCall.path call)
    /\ VoiceCall._bus call <> 0.
Proof.
  do 2 eexists. split; [vm_compute; reflexivity|].
  destruct (dial_effects Examples.manager0 (JStr "112") JNull
              (Examples.world MoreExamples.telephony) _ _
              ltac:(vm_compute; reflexivity))
    as (word & C & _ & _ & D & _ & _ & N).
  rewrite (D ltac:(discriminate) eq_refl) in C.
  split; [exact C|]. apply N. cbn. lia.
Defined.

(** ** The directory *)

Lemma Modem_fromDBusObject_default_opens data w r w' :
  Modem.fromDBusObject data None w = (r, w') -> connections w' = S (connections w).
Proof.
  intros H.
  change (Modem.fromDBusObject data None w)
    with (Modem.fromDBusObject data (Some (connections w)) (opened w)) in H.
  now apply keeps_Modem_fromDBusObject in H.
Qed.

Lemma Modem_fromDBusObject_path data b w this w' :
  Modem.fromDBusObject data (Some b) w = (Normal this, w') ->
  js_index data 0 = Normal (Modem.path this).
Proof.
  unfold Modem.fromDBusObject, default_bus. intros H.
  step H. unfold ret in S. injection S as <- <-.
  step H. apply Modem_new_spawns in H. destruct H as (-> & _).
  unfold lift in S. injection S as S _. unfold Modem.arguments in S.
  destruct (js_index data 0) as [p|]; cbn [cbind] in S; [|discriminate].
  cbind_inv S. now injection S as <-.
Qed.

(** X21. The listener for ModemAdded opens a connection every time it
    runs.  Handed a property dictionary as second argument, which is
    what the signal carries and which has no entry 1, it throws a
    TypeError and emits nothing; whenever it does emit, the event is
    one [add] with the path received and a modem on the connection
    just opened. *)
Theorem ModemAdded_effects this path modem w :
  (forall r w', Ofono.on_ModemAdded this path modem w = (r, w') ->
                connections w' = S (connections w))
  /\ (forall fs,
      modem = JObj fs -> assoc "1" fs = None ->
      Ofono.on_ModemAdded this path modem w
      = (Throw (TypeError "Cannot read properties of undefined (reading 'Online')"),
         opened w))
  /\ (forall outs w',
      Ofono.on_ModemAdded this path modem w = (Normal outs, w') ->
      exists m, outs = [Emit (Ofono.add path m)]
                /\ Modem.bus m = connections w
                /\ js_index modem 0 = Normal (Modem.path m)).
Proof.
  split; [|split].
  - intros r w' H. unfold Ofono.on_ModemAdded, bind in H.
    destruct (Modem.fromDBusObject modem None w) as [[m|e] w1] eqn:F.
    + unfold ret in H. injection H as _ <-.
      now apply Modem_fromDBusObject_default_opens in F.
    + injection H as _ <-. now apply Modem_fromDBusObject_default_opens in F.
  - intros fs -> Hk.
    unfold Ofono.on_ModemAdded, Modem.fromDBusObject, default_bus, bind, systemBus,
      lift, Modem.arguments, entry_value.
    cbn [js_index js_get string_of_Z cbind]. cbn. rewrite Hk. reflexivity.
  - intros outs w' H.
    destruct (ModemAdded_opens_a_connection _ _ _ _ _ _ H) as (m & E & B).
    exists m. split; [exact E|]. split; [exact B|].
    unfold Ofono.on_ModemAdded in H. step H. unfold ret in H. injection H as H _.
    rewrite E in H. injection H as <-.
    change (Modem.fromDBusObject modem None w)
      with (Modem.fromDBusObject modem (Some (connections w)) (opened w)) in S.
    now apply Modem_fromDBusObject_path in S.
Qed.

Lemma ModemAdded_effects_witness :
  Ofono.on_ModemAdded (Ofono.mk 0) (JStr "/modem0") (JObj MoreExamples.modem_entries)
                      (Examples.world MoreExamples.telephony)
  = (Throw (TypeError "Cannot read properties of undefined (reading 'Online')"),
     opened (Examples.world MoreExamples.telephony))
  /\ exists m outs w',
       Ofono.on_ModemAdded (Ofono.mk 0) (JStr "/modem0")
                           (JArr [JStr "/modem0"; JObj MoreExamples.modem_entries])
                           (Examples.world MoreExamples.telephony)
       = (Normal outs, w')
       /\ outs = [Emit (Ofono.add (JStr "/modem0") m)]
       /\ Modem.bus m = 1.
Proof.
  split.
  - destruct (ModemAdded_effects (Ofono.mk 0) (JStr "/modem0")
                (JObj MoreExamples.modem_entries)
                (Examples.world MoreExamples.telephony)) as (_ & H & _).
    apply (H MoreExamples.modem_entries); reflexivity.
  - destruct (ModemAdded_effects (Ofono.mk 0) (JStr "/modem0")
                (JArr [JStr "/modem0"; JObj MoreExamples.modem_entries])
                (Examples.world MoreExamples.telephony)) as (_ & _ & H).
    destruct (H _ _ ltac:(vm_compute; reflexivity)) as (m & E & B & _).
    exists m. do 2 eexists. split; [vm_compute; reflexivity|].
    split; [exact E | exact B].
Defined.

Lemma keeps_Ofono_getModems this : keeps_connections (Ofono.getModems this).
Proof. unfold Ofono.getModems. keeps; apply keeps_Modem_fromDBusObject. Qed.

(** X22. The modems [getModems] returns are all on the directory's
    connection, one per entry of the reply to GetModems, in order and
    with the entry's first component as path; no connection is opened.
    A list is returned only when the reply is an array. *)
Theorem Ofono_getModems_effects this w modems w' :
  Ofono.getModems this w = (Normal modems, w') ->
  Forall (fun m => Modem.bus m = Ofono.bus this) modems
  /\ connections w' = connections w
  /\ exists entries,
       service w (S (length (trace w)))
               (MethodCall (Ofono.bus this) (JStr "/") "org.ofono.Manager" "GetModems" [])
       = Answer (JArr entries)
       /\ Forall2 (fun e m => js_index e 0 = Normal (Modem.path m)) entries modems.
Proof.
  intros H.
  split; [exact (getModems_bus _ _ _ _ H)|].
  split; [exact (keeps_Ofono_getModems _ _ _ _ H)|].
  unfold Ofono.getModems in H. rewrite <- bind_assoc in H.
  step H. apply obtained_world in S. destruct S as (-> & -> & _).
  step H. pose proof (call_answered _ _ _ _ _ _ S) as C.
  cbn [ci_bus ci_path ci_name] in C. rewrite length_trace_sent in C.
  change (service (sent _ w)) with (service w) in C.
  step H. unfold lift in S0. injection S0 as L _. apply elements_of_array in L. subst.
  eexists. split; [exact C|].
  eapply mapM_Forall2; [|exact H].
  intros e w2 m w3 F. now apply Modem_fromDBusObject_path in F.
Qed.

Lemma Ofono_getModems_effects_witness :
  exists modems w',
    Ofono.getModems (Ofono.mk 0) (Examples.world MoreExamples.telephony)
    = (Normal modems, w')
    /\ map Modem.bus modems = [0; 0]
    /\ connections w' = 1.
Proof.
  do 2 eexists. split; [vm_compute; reflexivity|].
  destruct (Ofono_getModems_effects (Ofono.mk 0) (Examples.world MoreExamples.telephony)
              _ _ ltac:(vm_compute; reflexivity)) as (B & K & _).
  split; [|exact K].
  inversion B as [|m1 l1 B1 B']; subst. inversion B' as [|m2 l2 B2 B'']; subst.
  cbn [map]. now rewrite B1, B2.
Defined.

(** The subscription of the directory registers two listeners or none. *)
Lemma Ofono_subscription this w :
  let introspect := Introspect (Ofono.bus this) "org.ofono" (JStr "/") in
  let w' := snd (spawn (Ofono.listenForChanges this) w) in
  trace w' = (trace w ++ [introspect])%list
  /\ connections w' = connections w
  /\ (offers w (Ofono.bus this) (JStr "/") "org.ofono.Manager" ->
      listeners w'
      = (listeners w ++
         [listener_of (Ofono.bus this) (JStr "/") "org.ofono.Manager" "ModemAdded";
          listener_of (Ofono.bus this) (JStr "/") "org.ofono.Manager" "ModemRemoved"])%list
      /\ unhandled w' = unhandled w)
  /\ (forall e,
      service w (length (trace w)) introspect = Fault e ->
      listeners w' = listeners w /\ unhandled w' = (unhandled w ++ [e])%list).
Proof.
  cbv zeta. unfold spawn, Ofono.listenForChanges. rewrite <- bind_assoc.
  split; [|split; [|split]].
  - unfold bind, getProxyObject, bind, rpc, ret, getInterface, throw, on.
    destruct (service w _ _) as [e|v]; [reflexivity|].
    cbn. destruct (has_interface v "org.ofono.Manager"); reflexivity.
  - unfold bind, getProxyObject, bind, rpc, ret, getInterface, throw, on.
    destruct (service w _ _) as [e|v]; [reflexivity|].
    cbn. destruct (has_interface v "org.ofono.Manager"); reflexivity.
  - intros Ho. erewrite bind_normal; [|apply interface_obtained; exact Ho].
    split; [|reflexivity]. cbn. now rewrite <- app_assoc.
  - intros e He. erewrite bind_throw; [|apply interface_refused; exact He].
    split; reflexivity.
Qed.

(** X23. [new Ofono(bus)] uses the connection it is given and opens
    none; [new Ofono()] opens one and uses it.  Either way the
    constructor returns at once, one introspection of the root object
    goes out, and the listeners for ModemAdded and ModemRemoved are
    both registered when the root has the Manager interface, and
    neither when the introspection fails, the failure being an
    unhandled rejection. *)
Theorem Ofono_new_effects bus w :
  let w0 := match bus with Some _ => w | None => opened w end in
  let b := match bus with Some b => b | None => connections w end in
  let introspect := Introspect b "org.ofono" (JStr "/") in
  exists this w',
    Ofono.new bus w = (Normal this, w')
    /\ Ofono.bus this = b
    /\ connections w' = connections w0
    /\ trace w' = (trace w ++ [introspect])%list
    /\ (offers w b (JStr "/") "org.ofono.Manager" ->
        listeners w'
        = (listeners w ++
           [listener_of b (JStr "/") "org.ofono.Manager" "ModemAdded";
            listener_of b (JStr "/") "org.ofono.Manager" "ModemRemoved"])%list
        /\ unhandled w' = unhandled w)
    /\ (forall e,
        service w (length (trace w)) introspect = Fault e ->
        listeners w' = listeners w /\ unhandled w' = (unhandled w ++ [e])%list).
Proof.
  cbv zeta.
  assert (forall b0 w1, exists w2,
             Ofono.new (Some b0) w1 = (Normal (Ofono.mk b0), w2)
             /\ w2 = snd (spawn (Ofono.listenForChanges (Ofono.mk b0)) w1)) as New.
  { intros b0 w1. unfold Ofono.new, default_bus, bind at 1, ret, bind.
    match goal with
    | |- context [spawn ?p ?w0] => destruct (spawn p w0) as [[[]|e] w2] eqn:S
    end.
    - eexists. split; reflexivity.
    - destruct (spawn_returns (Ofono.listenForChanges (Ofono.mk b0)) w1) as (w3 & E).
      congruence. }
  destruct bus as [b0|].
  - destruct (New b0 w) as (w2 & E & ->).
    destruct (Ofono_subscription (Ofono.mk b0) w) as (T & K & O & F).
    do 2 eexists. split; [exact E|]. split; [reflexivity|].
    split; [exact K|]. split; [exact T|]. split; [exact O | exact F].
  - change (Ofono.new None w) with (Ofono.new (Some (connections w)) (opened w)).
    destruct (New (connections w) (opened w)) as (w2 & E & ->).
    destruct (Ofono_subscription (Ofono.mk (connections w)) (opened w)) as (T & K & O & F).
    do 2 eexists. split; [exact E|]. split; [reflexivity|].
    split; [exact K|]. split; [exact T|]. split; [exact O | exact F].
Qed.

Lemma Ofono_new_effects_witness :
  exists this w',
    Ofono.new None (Examples.world MoreExamples.telephony) = (Normal this, w')
    /\ Ofono.bus this = 1
    /\ listeners w'
       = [listener_of 1 (JStr "/") "org.ofono.Manager" "ModemAdded";
          listener_of 1 (JStr "/") "org.ofono.Manager" "ModemRemoved"].
Proof.
  destruct (Ofono_new_effects None (Examples.world MoreExamples.telephony))
    as (this & w' & E & B & _ & _ & L & _).
  exists this, w'. split; [exact E|]. split; [exact B|].
  apply L. exists Examples.all_interfaces. split; reflexivity.
Defined.

(** ** The earlier directory and manager *)

Lemma each_on_its_own_connection l :
  forall w modems w',
    mapM (fun m => Modem.fromDBusObject m None) l w = (Normal modems, w') ->
    map Modem.bus modems = seq (connections w) (length modems)
    /\ connections w' = connections w + length modems.
Proof.
  induction l as [|a l IH]; intros w modems w' H; cbn [mapM] in H.
  - unfold ret in H. injection H as <- <-. split; [reflexivity | cbn; lia].
  - step H. step H. unfold ret in H. inversion H; subst.
    pose proof (Modem_fromDBusObject_default _ _ _ _ S) as B.
    pose proof (Modem_fromDBusObject_default_opens _ _ _ _ S) as K.
    destruct (IH _ _ _ S0) as (M & C).
    cbn [map length seq]. rewrite B, M, K. split; [reflexivity | lia].
Qed.

(** X24. In the earlier directory, [getModems] hands no connection to
    the modems it builds: each one opens its own.  The modems'
    connections are the next ones in the order of opening, so they are
    pairwise distinct and none is a connection that existed, the
    directory's included; afterwards there are as many more
    connections as there are modems. *)
Theorem Earlier_getModems_connections this w modems w' :
  Earlier.Ofono.getModems this w = (Normal modems, w') ->
  map Modem.bus modems = seq (connections w) (length modems)
  /\ connections w' = connections w + length modems
  /\ NoDup (map Modem.bus modems)
  /\ (Earlier.Ofono.bus this < connections w ->
      Forall (fun m => Modem.bus m <> Earlier.Ofono.bus this) modems).
Proof.
  intros H. unfold Earlier.Ofono.getModems in H.
  step H. pose proof (keeps_getProxyObject _ _ _ _ _ _ S) as K1.
  step H. pose proof (keeps_getInterface _ _ _ _ _ S0) as K2.
  step H. pose proof (keeps_call _ _ _ _ _ _ S1) as K3.
  step H. pose proof (keeps_lift _ _ _ _ S2) as K4.
  apply each_on_its_own_connection in H. destruct H as (M & C).
  assert (connections w3 = connections w) as E by congruence.
  rewrite E in M, C.
  split; [exact M|]. split; [exact C|]. split.
  - rewrite M. apply seq_NoDup.
  - intros Hlt. apply Forall_forall. intros m Hm.
    assert (In (Modem.bus m) (map Modem.bus modems)) as Hin by now apply in_map.
    rewrite M in Hin. apply in_seq in Hin. lia.
Qed.

Lemma Earlier_getModems_connections_witness :
  exists modems w',
    Earlier.Ofono.getModems (Earlier.Ofono.mk 0) (Examples.world MoreExamples.telephony)
    = (Normal modems, w')
    /\ map Modem.bus modems = [1; 2]
    /\ connections w' = 3.
Proof.
  do 2 eexists. split; [vm_compute; reflexivity|].
  destruct (Earlier_getModems_connections
              (Earlier.Ofono.mk 0) (Examples.world MoreExamples.telephony) _ _
              ltac:(vm_compute; reflexivity)) as (M & C & _).
  split; [exact M | exact C].
Defined.

Lemma Earlier_manager_subscription this w :
  let bus := Earlier.VoiceCallManager.bus this in
  let path := Earlier.VoiceCallManager.path this in
  let introspect := Introspect bus "org.ofono" path in
  let w' := snd (spawn (Earlier.VoiceCallManager.listenForChanges this) w) in
  trace w' = (trace w ++ [introspect])%list
  /\ connections w' = connections w
  /\ (offers w bus path "org.ofono.VoiceCallManager" ->
      listeners w'
      = (listeners w ++
         map (listener_of bus path "org.ofono.VoiceCallManager")
             ["CallAdded"; "CallRemoved"; "PropertyChanged"; "BarringActive";
              "Forwarded"])%list)
  /\ (forall e,
      service w (length (trace w)) introspect = Fault e ->
      listeners w' = listeners w /\ unhandled w' = (unhandled w ++ [e])%list).
Proof.
  cbv zeta.
  unfold spawn, Earlier.VoiceCallManager.listenForChanges,
    Earlier.VoiceCallManager.interface.
  split; [|split; [|split]].
  - unfold bind, getProxyObject, bind, rpc, ret, getInterface, throw, on.
    destruct (service w _ _) as [e|v]; [reflexivity|].
    cbn. destruct (has_interface v "org.ofono.VoiceCallManager"); reflexivity.
  - unfold bind, getProxyObject, bind, rpc, ret, getInterface, throw, on.
    destruct (service w _ _) as [e|v]; [reflexivity|].
    cbn. destruct (has_interface v "org.ofono.VoiceCallManager"); reflexivity.
  - intros Ho. erewrite bind_normal; [|apply interface_obtained; exact Ho].
    cbn. now rewrite <- !app_assoc.
  - intros e He. erewrite bind_throw; [|apply interface_refused; exact He].
    split; reflexivity.
Qed.

(** X25. The earlier manager's constructor throws, with nothing sent
    and nothing registered, when the modem's interfaces array lacks
    org.ofono.VoiceCallManager, the error naming the modem's path (or
    being what converting the path throws, if it has no string form);
    otherwise it returns a manager with the modem's path and
    connection, sends one introspection, opens no connection, and
    registers its five listeners (CallAdded, CallRemoved,
    PropertyChanged, BarringActive, Forwarded, in this order) when the
    object has the interface. *)
Theorem Earlier_manager_constructor modem l w :
  Modem.interfaces modem = JArr l ->
  (~ In (JStr "org.ofono.VoiceCallManager") l ->
   Earlier.VoiceCallManager.new modem w
   = (Throw (refusal "node-ofono: VoiceCallManager(): Modem "
                    (Modem.path modem)
                    " does not support VoiceCallManager interface"), w))
  /\ (In (JStr "org.ofono.VoiceCallManager") l ->
      exists w',
        Earlier.VoiceCallManager.new modem w
        = (Normal (Earlier.VoiceCallManager.mk (Modem.bus modem) (Modem.path modem)), w')
        /\ trace w'
           = (trace w ++ [Introspect (Modem.bus modem) "org.ofono" (Modem.path modem)])%list
        /\ connections w' = connections w
        /\ (offers w (Modem.bus modem) (Modem.path modem) "org.ofono.VoiceCallManager" ->
            listeners w'
            = (listeners w ++
               map (listener_of (Modem.bus modem) (Modem.path modem)
                                "org.ofono.VoiceCallManager")
                   ["CallAdded"; "CallRemoved"; "PropertyChanged"; "BarringActive";
                    "Forwarded"])%list)).
Proof.
  intros Hl. split; intros H.
  - unfold Earlier.VoiceCallManager.new, refusal, bind, lift, throw. rewrite Hl.
    cbn [js_indexOf]. rewrite (index_from_absent _ _ _ H). cbn [Z.eqb Pos.eqb].
    now destruct (js_to_string (Modem.path modem)).
  - unfold Earlier.VoiceCallManager.new, bind at 1, lift. rewrite Hl.
    cbn [js_indexOf].
    pose proof (index_from_present _ _ 0%Z (Z.le_refl 0) H) as P.
    destruct (Z.eqb_spec (index_from "org.ofono.VoiceCallManager" l 0) (-1)) as [E|_];
      [lia|].
    unfold bind, ret.
    destruct (Earlier_manager_subscription
                (Earlier.VoiceCallManager.mk (Modem.bus modem) (Modem.path modem)) w)
      as (T & K & O & _).
    match goal with
    | |- context [spawn ?p ?w0] => destruct (spawn p w0) as [[[]|e] w1] eqn:S
    end.
    + cbn [snd] in T, K, O. eexists. split; [reflexivity|].
      split; [exact T|]. split; [exact K | exact O].
    + match type of S with
      | spawn ?p ?w0 = _ => destruct (spawn_returns p w0) as (w3 & E)
      end.
      congruence.
Qed.

Lemma Earlier_manager_constructor_witness :
  Earlier.VoiceCallManager.new
    (Modem.set Modem.Interfaces (JArr [JStr "org.ofono.Handsfree"]) Examples.modem0)
    (Examples.world MoreExamples.telephony)
  = (Throw (Error "node-ofono: VoiceCallManager(): Modem /modem0 does not support VoiceCallManager interface"),
     Examples.world MoreExamples.telephony)
  /\ exists w',
       Earlier.VoiceCallManager.new Examples.modem0 (Examples.world MoreExamples.telephony)
       = (Normal (Earlier.VoiceCallManager.mk 0 (JStr "/modem0")), w')
       /\ length (listeners w') = 5.
Proof.
  split.
  - destruct (Earlier_manager_constructor
                (Modem.set Modem.Interfaces (JArr [JStr "org.ofono.Handsfree"])
                           Examples.modem0)
                [JStr "org.ofono.Handsfree"]
                (Examples.world MoreExamples.telephony) eq_refl) as (H & _).
    apply H. simpl. intros [F|[]]. discriminate F.
  - destruct (Earlier_manager_constructor
                Examples.modem0 [JStr "org.ofono.VoiceCallManager"]
                (Examples.world MoreExamples.telephony) eq_refl) as (_ & H).
    destruct H as (w' & E & _ & _ & L); [simpl; tauto|].
    exists w'. split; [exact E|].
    rewrite L; [reflexivity|].
    exists Examples.all_interfaces. split; reflexivity.
Defined.

(** ** Strings of tones *)

Lemma class_matches_canonical c :
  TonesRegExp.class_matches (TonesRegExp.canonicalize c) = TonesRegExp.class_matches c.
Proof. destruct c as [[] [] [] [] [] [] [] []]; vm_compute; reflexivity. Qed.

(** X26. The test [sendTones] applies accepts a concatenation exactly
    when it accepts both parts, and accepts a string exactly when it
    accepts its upper-case form: valid tones can be sent in one call or
    in pieces, in either case. *)
Theorem tones_compose s1 s2 :
  TonesRegExp.test (s1 ++ s2) = TonesRegExp.test s1 && TonesRegExp.test s2
  /\ TonesRegExp.test (upper s1) = TonesRegExp.test s1.
Proof.
  unfold TonesRegExp.test. split.
  - induction s1 as [|c s1 IH]; [reflexivity|].
    cbn [append TonesRegExp.star_then_end]. rewrite IH. now rewrite andb_assoc.
  - induction s1 as [|c s1 IH]; [reflexivity|].
    cbn [upper TonesRegExp.star_then_end].
    now rewrite IH, class_matches_canonical.
Qed.

(** ** Network registration: actions *)

Lemma query_returns_reply w bus path iface member args x :
  offers w bus path iface ->
  service w (S (length (trace w))) (MethodCall bus path iface member args) = Answer x ->
  bind (bind (getProxyObject bus "org.ofono" path)
             (fun proxy => getInterface proxy iface))
       (fun i => call i member args) w
  = (Normal x, sent (MethodCall bus path iface member args)
                    (sent (Introspect bus "org.ofono" path) w)).
Proof.
  intros Ho Hx. erewrite bind_normal; [|apply interface_obtained; exact Ho].
  unfold call. cbn [ci_bus ci_path ci_name].
  apply rpc_answer. rewrite length_trace_sent. exact Hx.
Qed.

(** X27. [register] calls Register once, with no argument, and rejects
    with the error of the bus when the introspection or the call
    fails; [getOperators] and [scan] call GetOperators and Scan and
    return the reply of the bus as it is. *)
Theorem NetworkRegistration_actions this w :
  let bus := NetworkRegistration._bus this in
  let path := NetworkRegistration._path this in
  let iface := "org.ofono.NetworkRegistration" in
  performs (NetworkRegistration.register this) bus path iface "Register" [] w
  /\ (offers w bus path iface ->
      forall x,
        (service w (S (length (trace w))) (MethodCall bus path iface "GetOperators" [])
         = Answer x ->
         NetworkRegistration.getOperators this w
         = (Normal x, sent (MethodCall bus path iface "GetOperators" [])
                           (sent (Introspect bus "org.ofono" path) w)))
        /\ (service w (S (length (trace w))) (MethodCall bus path iface "Scan" [])
            = Answer x ->
            NetworkRegistration.scan this w
            = (Normal x, sent (MethodCall bus path iface "Scan" [])
                              (sent (Introspect bus "org.ofono" path) w)))).
Proof.
  cbv zeta. split.
  - exact (action_performs w _ _ "org.ofono.NetworkRegistration" "Register" []).
  - intros Ho x. split; intros Hx.
    + exact (query_returns_reply w _ _ _ "GetOperators" [] x Ho Hx).
    + exact (query_returns_reply w _ _ _ "Scan" [] x Ho Hx).
Qed.

Lemma NetworkRegistration_actions_witness :
  NetworkRegistration.scan Examples.registration0 (Examples.world MoreExamples.telephony)
  = (Normal JUndefined,
     sent (MethodCall 0 (JStr "/ril_0") "org.ofono.NetworkRegistration" "Scan" [])
          (sent (Introspect 0 "org.ofono" (JStr "/ril_0"))
                (Examples.world MoreExamples.telephony)))
  /\ NetworkRegistration.register Examples.registration0
                                  (Examples.world MoreExamples.silent)
     = (Throw (DBusError "org.freedesktop.DBus.Error.ServiceUnknown"),
        sent (Introspect 0 "org.ofono" (JStr "/ril_0"))
             (Examples.world MoreExamples.silent)).
Proof.
  split.
  - destruct (NetworkRegistration_actions Examples.registration0
                (Examples.world MoreExamples.telephony)) as (_ & Q).
    destruct (Q ltac:(exists Examples.all_interfaces; split; reflexivity) JUndefined)
      as (_ & S).
    apply S. reflexivity.
  - destruct (NetworkRegistration_actions Examples.registration0
                (Examples.world MoreExamples.silent)) as ((R & _) & _).
    apply R. reflexivity.
Defined.

(** ** The manager built on a modem *)

Lemma VoiceCallManager_subscription this w :
  let bus := VoiceCallManager.bus this in
  let path := VoiceCallManager.path this in
  let introspect := Introspect bus "org.ofono" path in
  let w' := snd (spawn (VoiceCallManager.listenForChanges this) w) in
  trace w' = (trace w ++ [introspect])%list
  /\ (offers w bus path "org.ofono.VoiceCallManager" ->
      listeners w'
      = (listeners w ++
         map (listener_of bus path "org.ofono.VoiceCallManager")
             ["CallAdded"; "CallRemoved"; "BarringActive"; "Forwarded";
              "PropertyChanged"])%list
      /\ unhandled w' = unhandled w)
  /\ (forall e,
      service w (length (trace w)) introspect = Fault e ->
      listeners w' = listeners w /\ unhandled w' = (unhandled w ++ [e])%list).
Proof.
  cbv zeta.
  unfold spawn, VoiceCallManager.listenForChanges, VoiceCallManager.getInterface.
  split; [|split].
  - unfold bind, getProxyObject, bind, rpc, ret, getInterface, throw, on.
    destruct (service w _ _) as [e|v]; [reflexivity|].
    cbn. destruct (has_interface v "org.ofono.VoiceCallManager"); reflexivity.
  - intros Ho. erewrite bind_normal; [|apply interface_obtained; exact Ho].
    split; [|reflexivity].
    cbn. now rewrite <- !app_assoc.
  - intros e He. erewrite bind_throw; [|apply interface_refused; exact He].
    split; reflexivity.
Qed.

Lemma VoiceCallManager_new_spawns path numbers b w this w' :
  VoiceCallManager.new path numbers (Some b) w = (Normal this, w') ->
  this = VoiceCallManager.mk path numbers b
  /\ w' = snd (spawn (VoiceCallManager.listenForChanges this) w).
Proof.
  unfold VoiceCallManager.new, default_bus, bind at 1, ret, bind.
  match goal with
  | |- context [spawn ?p ?w0] => destruct (spawn p w0) as [[[]|e] w1] eqn:S
  end; intros H; [|discriminate].
  injection H as <- <-. rewrite S. split; reflexivity.
Qed.

(** X28. When [VoiceCallManager.ofModem] returns a manager, its
    emergency numbers are the value of the EmergencyNumbers entry of
    the reply to GetProperties; three requests went out on the modem's
    connection, the introspection, GetProperties and the introspection
    of the subscription; if that last introspection is answered with
    the interface, five listeners are registered (CallAdded,
    CallRemoved, BarringActive, Forwarded, PropertyChanged, in this
    order), and if it fails none is and the failure is an unhandled
    rejection.  When the reply has no EmergencyNumbers entry,
    [ofModem] throws a TypeError after the first two requests. *)
Theorem VoiceCallManager_ofModem_effects modem w :
  let bus := Modem.bus modem in
  let path := Modem.path modem in
  let iface := "org.ofono.VoiceCallManager" in
  let introspect := Introspect bus "org.ofono" path in
  let fetch := MethodCall bus path iface "GetProperties" [] in
  (forall this w',
      VoiceCallManager.ofModem modem w = (Normal this, w') ->
      (exists props,
          service w (S (length (trace w))) fetch = Answer props
          /\ member_value props "EmergencyNumbers"
             = Normal (VoiceCallManager.emergencyNumbers this))
      /\ trace w' = (trace w ++ [introspect; fetch; introspect])%list
      /\ (forall ifaces,
          service w (S (S (length (trace w)))) introspect = Answer ifaces ->
          has_interface ifaces iface = true ->
          listeners w'
          = (listeners w ++
             map (listener_of bus path iface)
                 ["CallAdded"; "CallRemoved"; "BarringActive"; "Forwarded";
                  "PropertyChanged"])%list
          /\ unhandled w' = unhandled w)
      /\ (forall e,
          service w (S (S (length (trace w)))) introspect = Fault e ->
          listeners w' = listeners w /\ unhandled w' = (unhandled w ++ [e])%list))
  /\ (forall l fs,
      Modem.interfaces modem = JArr l ->
      In (JStr iface) l ->
      offers w bus path iface ->
      service w (S (length (trace w))) fetch = Answer (JObj fs) ->
      assoc "EmergencyNumbers" fs = None ->
      VoiceCallManager.ofModem modem w
      = (Throw (TypeError "Cannot read properties of undefined (reading 'value')"),
         sent fetch (sent introspect w))).
Proof.
  cbv zeta. split.
  - assert (forall x y z, length (trace (sent x (sent y z))) = S (S (length (trace z))))
      as L by (intros; now rewrite !length_trace_sent).
    intros this w' H. unfold VoiceCallManager.ofModem in H.
    step H. apply lift_keeps_world in S as E. subst.
    destruct (a =? -1)%Z;
      [exfalso; revert H; unfold bind, lift, throw;
       destruct (js_to_string _); discriminate|].
    rewrite <- bind_assoc in H.
    step H. apply obtained_world in S0. destruct S0 as (-> & -> & _).
    step H. pose proof (call_answered _ _ _ _ _ _ S0) as Hs.
    apply call_world in S0. cbn [ci_bus ci_path ci_name] in S0, Hs. subst.
    step H. pose proof (lift_keeps_world _ _ _ _ S0) as E. subst.
    unfold lift in S0. injection S0 as Hm.
    apply VoiceCallManager_new_spawns in H. destruct H as (Ht & ->).
    match goal with
    | |- context [spawn _ ?w2] =>
        destruct (VoiceCallManager_subscription this w2) as (T & Ho & Hf)
    end.
    assert (VoiceCallManager.bus this = Modem.bus modem
            /\ VoiceCallManager.path this = Modem.path modem) as (Hb & Hp)
      by (rewrite Ht; split; reflexivity).
    match type of Hm with
    | _ = Normal ?n =>
        assert (VoiceCallManager.emergencyNumbers this = n) as Hn
          by (rewrite Ht; reflexivity)
    end.
    rewrite Hb, Hp in T, Ho, Hf.
    split.
    { rewrite length_trace_sent in Hs. eexists. split; [exact Hs|].
      rewrite Hn. exact Hm. }
    split.
    { rewrite T. cbn [trace sent]. now rewrite <- !app_assoc. }
    split.
    + intros ifaces Hi Hh. apply Ho. exists ifaces. split; [|exact Hh].
      rewrite L. exact Hi.
    + intros e He. apply Hf. rewrite L. exact He.
  - intros l fs Hl Hin Ho Hs Hk. unfold VoiceCallManager.ofModem.
    rewrite Hl. unfold js_indexOf.
    erewrite bind_normal; [|reflexivity].
    pose proof (index_from_present "org.ofono.VoiceCallManager" l 0
                  ltac:(lia) Hin) as Hi.
    destruct (Z.eqb_spec (index_from "org.ofono.VoiceCallManager" l 0) (-1)) as [E|_];
      [lia|].
    rewrite <- bind_assoc.
    erewrite bind_normal; [|apply interface_obtained; exact Ho].
    erewrite bind_normal;
      [|unfold call; cbn [ci_bus ci_path ci_name]; apply rpc_answer;
        rewrite length_trace_sent; exact Hs].
    apply bind_throw. unfold lift. now rewrite member_value_absent.
Qed.

Lemma VoiceCallManager_ofModem_effects_witness :
  (exists this w',
      VoiceCallManager.ofModem MoreExamples.modem1
                               (Examples.world MoreExamples.telephony)
      = (Normal this, w')
      /\ listeners w'
         = map (listener_of 0 (JStr "/modem1") "org.ofono.VoiceCallManager")
               ["CallAdded"; "CallRemoved"; "BarringActive"; "Forwarded";
                "PropertyChanged"])
  /\ VoiceCallManager.ofModem MoreExamples.modem1 (Examples.world MoreExamples.scant)
     = (Throw (TypeError "Cannot read properties of undefined (reading 'value')"),
        sent (MethodCall 0 (JStr "/modem1") "org.ofono.VoiceCallManager"
                         "GetProperties" [])
             (sent (Introspect 0 "org.ofono" (JStr "/modem1"))
                   (Examples.world MoreExamples.scant))).
Proof.
  split.
  - do 2 eexists. split; [vm_compute; reflexivity|].
    destruct (VoiceCallManager_ofModem_effects
                MoreExamples.modem1 (Examples.world MoreExamples.telephony))
      as (P & _).
    destruct (P _ _ ltac:(vm_compute; reflexivity)) as (_ & _ & L & _).
    apply (L Examples.all_interfaces); reflexivity.
  - destruct (VoiceCallManager_ofModem_effects
                MoreExamples.modem1 (Examples.world MoreExamples.scant))
      as (_ & Q).
    eapply Q.
    + reflexivity.
    + vm_compute. tauto.
    + exists Examples.all_interfaces. split; reflexivity.
    + reflexivity.
    + reflexivity.
Defined.

(** ** A call built from a listing entry *)

Ltac listing_entries :=
  repeat match goal with
         | E : entry_value _ _ = Normal _ |- _ => rewrite entry_value_listing in E
         | E : entry_value_opt _ _ = Normal _ |- _ =>
             rewrite entry_value_opt_listing in E
         end.

Ltac entry_read :=
  repeat match goal with
         | E : js_get _ "value" = Normal _ |- _ => apply js_get_value_of in E
         | E : js_get_opt _ "value" = Normal _ |- _ => apply js_get_opt_value_of in E
         | E : Throw _ = Normal _ |- _ => discriminate E
         | E : Normal _ = Normal _ |- _ => injection E as E
         end.

Lemma VoiceCall_arguments_listing path props p d b state :
  VoiceCall.arguments (JArr [path; JObj props]) = Normal (p, d) ->
  enum_lookup VoiceCall.VoiceCallState (VoiceCall.d_state d) = Normal state ->
  p = path
  /\ (forall k, In k call_mandatory -> assoc k props <> None)
  /\ forall q,
      call_decoded q props
      = Normal (VoiceCall.get q
                  (VoiceCall.mk p
                     (VoiceCall.d_lineIdentification d) (VoiceCall.d_incomingLine d)
                     (VoiceCall.d_name d) (VoiceCall.d_multiparty d) state
                     (VoiceCall.d_startTime d) (VoiceCall.d_information d)
                     (VoiceCall.d_icon d) (VoiceCall.d_emergency d)
                     (VoiceCall.d_remoteHeld d) (VoiceCall.d_remoteMultiparty d) b)).
Proof.
  intros A L. unfold VoiceCall.arguments in A. cbind_inv A.
  injection A as <- <-.
  match goal with
  | E : js_index _ 0 = Normal _ |- _ => cbn [js_index nth] in E; injection E as <-
  end.
  listing_entries. cbn [VoiceCall.d_state] in L.
  split; [reflexivity|]. split.
  - intros k Hk K. cbn [call_mandatory In] in Hk.
    repeat match type of Hk with
           | _ \/ _ => destruct Hk as [<-|Hk]
           end; try contradiction;
      repeat match goal with
             | E : _ = Normal _ |- _ => rewrite K in E; cbv iota beta in E
             end;
      entry_read.
  - intros q. unfold call_decoded.
    destruct q; cbn [VoiceCall.get VoiceCall.name_of VoiceCall.stored
                     VoiceCall.lineIdentification VoiceCall.incomingLine
                     VoiceCall.name VoiceCall.multiparty VoiceCall.state
                     VoiceCall.startTime VoiceCall.information VoiceCall.icon
                     VoiceCall.emergency VoiceCall.remoteHeld
                     VoiceCall.remoteMultiparty
                     VoiceCall._lineIdentification VoiceCall._incomingLine
                     VoiceCall._name VoiceCall._multiparty VoiceCall._state
                     VoiceCall._startTime VoiceCall._information VoiceCall._icon
                     VoiceCall._emergency VoiceCall._remoteHeld
                     VoiceCall._remoteMultiparty
                     VoiceCall.d_lineIdentification VoiceCall.d_incomingLine
                     VoiceCall.d_name VoiceCall.d_multiparty VoiceCall.d_state
                     VoiceCall.d_startTime VoiceCall.d_information VoiceCall.d_icon
                     VoiceCall.d_emergency VoiceCall.d_remoteHeld
                     VoiceCall.d_remoteMultiparty];
      match goal with
      | |- context [assoc ?k props] =>
          let K := fresh "K" in
          destruct (assoc k props) as [entry|] eqn:K;
          repeat match goal with
                 | E : match assoc k props with _ => _ end = Normal _ |- _ =>
                     rewrite K in E; cbv iota beta in E
                 end
      end;
      entry_read; subst; first [reflexivity | assumption].
Qed.

(** X29. A call built by [fromDBusObject] from a listing entry (a path
    and a property dictionary) on a given connection has that path and
    connection.  The dictionary has an entry for each of
    LineIdentification, Name, Multiparty, State, Emergency, RemoteHeld
    and RemoteMultiparty; every getter returns the content of the
    property's entry, [state] that content looked up in VoiceCallState
    by member name, and undefined for a property without entry.  The
    construction sends one introspection and no method call and opens
    no connection; the listeners for DisconnectReason and
    PropertyChanged are registered when the object answers with the
    VoiceCall interface, and none is when the introspection fails, the
    call being returned all the same. *)
Theorem VoiceCall_from_listing_entry path props bus w this w' :
  VoiceCall.fromDBusObject (JArr [path; JObj props]) (Some bus) w = (Normal this, w') ->
  VoiceCall.path this = path
  /\ VoiceCall._bus this = bus
  /\ (forall k, In k call_mandatory -> assoc k props <> None)
  /\ (forall p, call_decoded p props = Normal (VoiceCall.get p this))
  /\ trace w' = (trace w ++ [Introspect bus "org.ofono" path])%list
  /\ connections w' = connections w
  /\ (offers w bus path "org.ofono.VoiceCall" ->
      listeners w'
      = (listeners w ++
         [listener_of bus path "org.ofono.VoiceCall" "DisconnectReason";
          listener_of bus path "org.ofono.VoiceCall" "PropertyChanged"])%list
      /\ unhandled w' = unhandled w)
  /\ (forall e,
      service w (length (trace w)) (Introspect bus "org.ofono" path) = Fault e ->
      listeners w' = listeners w /\ unhandled w' = (unhandled w ++ [e])%list).
Proof.
  intros H.
  pose proof (keeps_VoiceCall_fromDBusObject _ _ _ _ _ H) as Hc.
  unfold VoiceCall.fromDBusObject, default_bus in H.
  apply bind_normal_inv in H. destruct H as (b & w0 & Hb & H).
  unfold ret in Hb. injection Hb as <- <-.
  apply bind_normal_inv in H. destruct H as ([p d] & w1 & Ha & H).
  unfold lift in Ha. injection Ha as Ha <-. cbn [fst snd] in H.
  destruct (VoiceCall_new_inv _ _ _ _ _ _ H) as (state & Hl & R & _).
  apply VoiceCall_new_spawns in H. destruct H as (Hp & Hb & ->).
  destruct (VoiceCall_arguments_listing _ _ _ _ bus state Ha Hl) as (-> & Hm & Hg).
  rewrite <- R in Hg.
  destruct (VoiceCall_subscription this w) as (Ht & Ho & Hf).
  rewrite Hb, Hp in Ht, Ho, Hf.
  split; [exact Hp|]. split; [exact Hb|]. split; [exact Hm|]. split; [exact Hg|].
  split; [exact Ht|]. split; [exact Hc|]. split; [exact Ho | exact Hf].
Qed.

Lemma VoiceCall_from_listing_entry_witness :
  exists this w',
    VoiceCall.fromDBusObject (JArr [Examples.call_path; JObj Examples.call_entries])
                             (Some 0) (Examples.world MoreExamples.telephony)
    = (Normal this, w')
    /\ VoiceCall.lineIdentification this = JStr "112"
    /\ VoiceCall.state this = JUndefined
    /\ VoiceCall.startTime this = JUndefined
    /\ listeners w'
       = [listener_of 0 Examples.call_path "org.ofono.VoiceCall" "DisconnectReason";
          listener_of 0 Examples.call_path "org.ofono.VoiceCall" "PropertyChanged"].
Proof.
  do 2 eexists. split; [vm_compute; reflexivity|].
  destruct (VoiceCall_from_listing_entry
              Examples.call_path Examples.call_entries 0
              (Examples.world MoreExamples.telephony) _ _
              ltac:(vm_compute; reflexivity))
    as (_ & _ & _ & G & _ & _ & L & _).
  assert (forall (a b : JsValue), Normal a = Normal b -> b = a) as I
    by (intros a b E; now injection E).
  split; [exact (I _ _ (G VoiceCall.LineIdentification))|].
  split; [exact (I _ _ (G VoiceCall.State))|].
  split; [exact (I _ _ (G VoiceCall.StartTime))|].
  apply L. exists Examples.all_interfaces. split; reflexivity.
Defined.

(** * When the object does not answer with the interface *)

(** Every method that reaches the bus introspects the object first and
    asks the proxy for the interface; what follows depends on the
    reply. *)

Lemma offers_offered w bus path iface :
  offers w bus path iface <-> offered w bus path iface = true.
Proof.
  unfold offers, offered. split.
  - intros (ifaces & -> & H). exact H.
  - destruct (service w _ _) as [e|ifaces]; [discriminate|].
    intros H. now exists ifaces.
Qed.

(** The introspection is answered, without the interface. *)
Lemma interface_missing w bus path iface ifaces :
  service w (length (trace w)) (Introspect bus "org.ofono" path) = Answer ifaces ->
  has_interface ifaces iface = false ->
  bind (getProxyObject bus "org.ofono" path) (fun proxy => getInterface proxy iface) w
  = (Throw (Error ("interface not found in proxy object: " ++ iface)),
     sent (Introspect bus "org.ofono" path) w).
Proof.
  intros Hs Hi. unfold getProxyObject.
  rewrite (bind_normal _ _ w (mkProxy bus path ifaces)
             (sent (Introspect bus "org.ofono" path) w)).
  - unfold getInterface. simpl. now rewrite Hi.
  - rewrite (bind_normal _ _ w ifaces (sent (Introspect bus "org.ofono" path) w));
      [reflexivity | now apply rpc_answer].
Qed.

(** Without the interface nothing follows the introspection, and the
    method rejects. *)
Lemma interface_not_offered {A} w bus path iface (k : ClientInterface -> M A) :
  offered w bus path iface = false ->
  exists e,
    bind (bind (getProxyObject bus "org.ofono" path)
               (fun proxy => getInterface proxy iface)) k w
    = (Throw e, sent (Introspect bus "org.ofono" path) w).
Proof.
  unfold offered. intros H.
  destruct (service w (length (trace w)) (Introspect bus "org.ofono" path))
    as [e|ifaces] eqn:Hs.
  - exists e. apply bind_throw. now apply interface_refused.
  - eexists. apply bind_throw. now apply (interface_missing w bus path iface ifaces).
Qed.

(** The requests of a method that obtains the interface and calls one
    member: the introspection, and the call if the interface is
    there. *)
Lemma action_requests w bus path iface member args :
  let action :=
    bind (bind (getProxyObject bus "org.ofono" path)
               (fun proxy => getInterface proxy iface))
         (fun i => _ <- call i member args ;; ret tt) in
  trace (snd (action w))
  = (trace w ++
     Introspect bus "org.ofono" path ::
     (if offered w bus path iface
      then [MethodCall bus path iface member args]
      else []))%list
  /\ (offered w bus path iface = false -> exists e, fst (action w) = Throw e).
Proof.
  cbv zeta. destruct (offered w bus path iface) eqn:O.
  - split; [|discriminate].
    apply (action_trace w bus path iface member args). now apply offers_offered.
  - destruct (interface_not_offered w bus path iface
                (fun i => _ <- call i member args ;; ret tt) O) as (e & ->).
    split; [reflexivity|]. intros _. now exists e.
Qed.

(** ** The actions that call another method than their name says *)

(** C8, as the specification states it, fails: [swapCalls] sends Transfer, and no
    Hangup. *)
Lemma C8_counterexample :
  let w' := snd (VoiceCallManager.swapCalls Examples.manager0
                   (Examples.world Examples.obliging)) in
  trace w'
  = [Introspect 0 "org.ofono" (JStr "/ril_0");
     MethodCall 0 (JStr "/ril_0") "org.ofono.VoiceCallManager" "Transfer" []]
  /\ ~ In (MethodCall 0 (JStr "/ril_0") "org.ofono.VoiceCallManager" "Hangup" [])
          (trace w').
Proof.
  split; [reflexivity|].
  cbn. intros [F|[F|[]]]; discriminate F.
Qed.

(** C8 (amended). [answer] introspects the call's object and then,
    when the object has the VoiceCall interface, calls Hangup, not
    Answer; [swapCalls] introspects the manager's object and then, when
    the object has the VoiceCallManager interface, calls Transfer, not
    SwapCalls and not Hangup.  When the introspection fails or the
    interface is missing, either rejects and nothing follows the
    introspection.  These are all the requests they send. *)
Theorem C8_answer_hangs_up_and_swapCalls_transfers (w : World) :
  (forall this,
      let bus := VoiceCall._bus this in
      let path := VoiceCall.path this in
      trace (snd (VoiceCall.answer this w))
      = (trace w ++
         Introspect bus "org.ofono" path ::
         (if offered w bus path "org.ofono.VoiceCall"
          then [MethodCall bus path "org.ofono.VoiceCall" "Hangup" []]
          else []))%list
      /\ (offered w bus path "org.ofono.VoiceCall" = false ->
          exists e, fst (VoiceCall.answer this w) = Throw e))
  /\ (forall this,
      let bus := VoiceCallManager.bus this in
      let path := VoiceCallManager.path this in
      trace (snd (VoiceCallManager.swapCalls this w))
      = (trace w ++
         Introspect bus "org.ofono" path ::
         (if offered w bus path "org.ofono.VoiceCallManager"
          then [MethodCall bus path "org.ofono.VoiceCallManager" "Transfer" []]
          else []))%list
      /\ (offered w bus path "org.ofono.VoiceCallManager" = false ->
          exists e, fst (VoiceCallManager.swapCalls this w) = Throw e)).
Proof.
  split; intros this.
  - exact (action_requests w _ _ "org.ofono.VoiceCall" "Hangup" []).
  - exact (action_requests w _ _ "org.ofono.VoiceCallManager" "Transfer" []).
Qed.

Lemma C8_witness :
  trace (snd (VoiceCall.answer Examples.call0 (Examples.world Examples.obliging)))
  = [Introspect 0 "org.ofono" Examples.call_path;
     MethodCall 0 Examples.call_path "org.ofono.VoiceCall" "Hangup" []]
  /\ trace (snd (VoiceCallManager.swapCalls Examples.manager0
                   (Examples.world Examples.obliging)))
     = [Introspect 0 "org.ofono" (JStr "/ril_0");
        MethodCall 0 (JStr "/ril_0") "org.ofono.VoiceCallManager" "Transfer" []]
  /\ trace (snd (VoiceCall.answer Examples.call0 (Examples.world MoreExamples.silent)))
     = [Introspect 0 "org.ofono" Examples.call_path]
  /\ exists e,
       fst (VoiceCallManager.swapCalls Examples.manager0
              (Examples.world MoreExamples.silent)) = Throw e.
Proof.
  destruct (C8_answer_hangs_up_and_swapCalls_transfers
              (Examples.world Examples.obliging)) as (A & S).
  destruct (C8_answer_hangs_up_and_swapCalls_transfers
              (Examples.world MoreExamples.silent)) as (A' & S').
  split; [exact (proj1 (A Examples.call0))|].
  split; [exact (proj1 (S Examples.manager0))|].
  split; [exact (proj1 (A' Examples.call0))|].
  exact (proj2 (S' Examples.manager0) eq_refl).
Defined.

(** ** Tones *)

(** C10, as the specification states it, fails: on a bus that does not answer the
    introspection a string of valid tones is accepted and no SendTones
    call goes out. *)
Lemma C10_counterexample :
  TonesRegExp.test "12#" = true
  /\ VoiceCallManager.sendTones Examples.manager0 "12#"
                                (Examples.world MoreExamples.silent)
     = (Throw (DBusError "org.freedesktop.DBus.Error.ServiceUnknown"),
        sent (Introspect 0 "org.ofono" (JStr "/ril_0"))
             (Examples.world MoreExamples.silent))
  /\ method_calls
       (trace (snd (VoiceCallManager.sendTones Examples.manager0 "12#"
                      (Examples.world MoreExamples.silent))))
     = [].
Proof. split; [reflexivity|]. split; reflexivity. Qed.

(** C10 (amended). A string with a character outside 0-9, a-d, A-D,
    star and hash makes [sendTones] throw with the world as it was,
    nothing sent.  Any other string, the empty one too, is followed by
    the introspection of the manager's object and, when the object has
    the VoiceCallManager interface, by one SendTones call that carries
    the string unchanged, the only call made; when the introspection
    fails or the interface is missing, [sendTones] rejects and no call
    is made. *)
Theorem C10_sendTones_checks_then_sends
    (this : VoiceCallManager.t) (tones : string) (w : World) :
  let bus := VoiceCallManager.bus this in
  let path := VoiceCallManager.path this in
  let iface := "org.ofono.VoiceCallManager" in
  let request := MethodCall bus path iface "SendTones" [JStr tones] in
  ((exists c, In c (list_ascii_of_string tones) /\ ~ tone_char c) ->
   VoiceCallManager.sendTones this tones w
   = (Throw (Error "node-ofono: VoiceCallManager: sendTones(): invalid tone(s)"), w))
  /\ ((forall c, In c (list_ascii_of_string tones) -> tone_char c) ->
      let w' := snd (VoiceCallManager.sendTones this tones w) in
      trace w'
      = (trace w ++
         Introspect bus "org.ofono" path ::
         (if offered w bus path iface then [request] else []))%list
      /\ method_calls (skipn (length (trace w)) (trace w'))
         = (if offered w bus path iface then [request] else [])
      /\ (offered w bus path iface = false ->
          exists e, fst (VoiceCallManager.sendTones this tones w) = Throw e)).
Proof.
  cbv zeta. split.
  - intros (c & Hc & Hn). unfold VoiceCallManager.sendTones.
    destruct (TonesRegExp.test tones) eqn:T; [|reflexivity].
    exfalso. apply Hn. rewrite test_tone_chars in T. now apply T.
  - intros Hall. unfold VoiceCallManager.sendTones.
    apply test_tone_chars in Hall. rewrite Hall. cbn [negb].
    unfold VoiceCallManager.getInterface.
    destruct (action_requests w (VoiceCallManager.bus this) (VoiceCallManager.path this)
                "org.ofono.VoiceCallManager" "SendTones" [JStr tones]) as (Ht & He).
    split; [exact Ht|]. split; [|exact He].
    rewrite Ht, skipn_app, skipn_all, Nat.sub_diag.
    now destruct (offered w _ _ _).
Qed.

Lemma C10_witness :
  VoiceCallManager.sendTones Examples.manager0 "12w3" (Examples.world Examples.obliging)
  = (Throw (Error "node-ofono: VoiceCallManager: sendTones(): invalid tone(s)"),
     Examples.world Examples.obliging)
  /\ trace (snd (VoiceCallManager.sendTones Examples.manager0 "1a*D#"
                   (Examples.world Examples.obliging)))
     = [Introspect 0 "org.ofono" (JStr "/ril_0");
        MethodCall 0 (JStr "/ril_0") "org.ofono.VoiceCallManager" "SendTones"
                   [JStr "1a*D#"]]
  /\ trace (snd (VoiceCallManager.sendTones Examples.manager0 ""
                   (Examples.world MoreExamples.silent)))
     = [Introspect 0 "org.ofono" (JStr "/ril_0")].
Proof.
  split; [|split].
  - destruct (C10_sendTones_checks_then_sends
                Examples.manager0 "12w3" (Examples.world Examples.obliging)) as (H & _).
    apply H. exists "w"%char. split; [simpl; tauto|].
    intros T. vm_compute in T. lia.
  - destruct (C10_sendTones_checks_then_sends
                Examples.manager0 "1a*D#" (Examples.world Examples.obliging)) as (_ & H).
    destruct H as (T & _); [|exact T].
    intros c Hc. simpl in Hc.
    repeat (destruct Hc as [<-|Hc]; [vm_compute; lia|]).
    contradiction.
  - destruct (C10_sendTones_checks_then_sends
                Examples.manager0 "" (Examples.world MoreExamples.silent)) as (_ & H).
    destruct H as (T & _); [|exact T].
    intros c [].
Defined.

(** ** Construction from a path *)

(** The subscription of a call whose object answers the introspection
    without the VoiceCall interface: no listener is registered and the
    proxy's error is left unhandled. *)
Lemma VoiceCall_subscription_missing this w ifaces :
  service w (length (trace w))
          (Introspect (VoiceCall._bus this) "org.ofono" (VoiceCall.path this))
  = Answer ifaces ->
  has_interface ifaces "org.ofono.VoiceCall" = false ->
  let w' := snd (spawn (VoiceCall.listenForChanges this) w) in
  listeners w' = listeners w
  /\ unhandled w'
     = (unhandled w ++
        [Error "interface not found in proxy object: org.ofono.VoiceCall"])%list.
Proof.
  intros Hs Hi. cbv zeta.
  unfold spawn, VoiceCall.listenForChanges, VoiceCall.getInterface.
  erewrite bind_throw; [|apply (interface_missing _ _ _ _ ifaces); assumption].
  split; reflexivity.
Qed.

(** C7, as the specification states it, fails: the call's properties are fetched,
    then the subscription's request is refused, and [fromPath] returns
    a mirror all the same, one with no listener registered; the
    refusal is a rejection nobody handles. *)
Lemma C7_counterexample :
  exists call w',
    VoiceCall.fromPath Examples.call_path (Some 0)
                       (Examples.world Examples.call_vanishes)
    = (Normal call, w')
    /\ trace w'
       = [Introspect 0 "org.ofono" Examples.call_path;
          MethodCall 0 Examples.call_path "org.ofono.VoiceCall" "GetProperties" [];
          Introspect 0 "org.ofono" Examples.call_path]
    /\ service w' 2 (Introspect 0 "org.ofono" Examples.call_path)
       = Fault (DBusError "org.freedesktop.DBus.Error.UnknownObject")
    /\ listeners w' = []
    /\ unhandled w' = [DBusError "org.freedesktop.DBus.Error.UnknownObject"].
Proof.
  do 2 eexists. split; [vm_compute; reflexivity|].
  repeat split.
Qed.

(** C7 (amended). [fromPath] fails, with the error of the bus and no
    mirror, when the introspection or the GetProperties call of the
    fetch fails.  Once the properties are fetched and read, and the
    State among them has a string form, it returns a mirror with the
    path and the connection asked for, whatever becomes of the
    subscription, which the constructor starts and does not await:
    when the subscription's introspection fails, or is answered
    without the interface, no listener is registered and the failure is
    a rejection nobody handles; when it is answered with the interface
    the two listeners are registered. *)
Theorem C7_fromPath_fails_with_the_fetch (path : JsValue) (bus : MessageBus) (w : World) :
  let introspect := Introspect bus "org.ofono" path in
  let fetch := MethodCall bus path "org.ofono.VoiceCall" "GetProperties" [] in
  (forall e,
      service w (length (trace w)) introspect = Fault e ->
      VoiceCall.fromPath path (Some bus) w = (Throw e, sent introspect w))
  /\ (forall e,
      offers w bus path "org.ofono.VoiceCall" ->
      service w (S (length (trace w))) fetch = Fault e ->
      VoiceCall.fromPath path (Some bus) w = (Throw e, sent fetch (sent introspect w)))
  /\ (forall props data,
      offers w bus path "org.ofono.VoiceCall" ->
      service w (S (length (trace w))) fetch = Answer props ->
      VoiceCall.fetched props = Normal data ->
      has_string_form (VoiceCall.d_state data) = true ->
      exists call w',
        VoiceCall.fromPath path (Some bus) w = (Normal call, w')
        /\ VoiceCall.path call = path
        /\ VoiceCall._bus call = bus
        /\ trace w' = (trace w ++ [introspect; fetch; introspect])%list
        /\ (forall e,
            service w (S (S (length (trace w)))) introspect = Fault e ->
            listeners w' = listeners w
            /\ unhandled w' = (unhandled w ++ [e])%list)
        /\ (forall ifaces,
            service w (S (S (length (trace w)))) introspect = Answer ifaces ->
            has_interface ifaces "org.ofono.VoiceCall" = false ->
            listeners w' = listeners w
            /\ unhandled w'
               = (unhandled w ++
                  [Error "interface not found in proxy object: org.ofono.VoiceCall"])%list)
        /\ (forall ifaces,
            service w (S (S (length (trace w)))) introspect = Answer ifaces ->
            has_interface ifaces "org.ofono.VoiceCall" = true ->
            listeners w'
            = (listeners w ++
               [listener_of bus path "org.ofono.VoiceCall" "DisconnectReason";
                listener_of bus path "org.ofono.VoiceCall" "PropertyChanged"])%list
            /\ unhandled w' = unhandled w)).
Proof.
  cbv zeta.
  assert (VoiceCall.fromPath path (Some bus) w
          = bind (bind (getProxyObject bus "org.ofono" path)
                       (fun proxy => Bus.getInterface proxy "org.ofono.VoiceCall"))
                 (fun iface =>
                    props <- call iface "GetProperties" [] ;;
                    data <- lift (VoiceCall.fetched props) ;;
                    VoiceCall.new path data (Some bus)) w) as Shape.
  { unfold VoiceCall.fromPath, default_bus, bind, ret.
    destruct (getProxyObject bus "org.ofono" path w) as [[proxy|e] w1]; reflexivity. }
  split; [|split].
  - intros e He. rewrite Shape.
    apply bind_throw. now apply interface_refused.
  - intros e Ho He. rewrite Shape.
    erewrite bind_normal; [|now apply interface_obtained].
    apply bind_throw.
    unfold call. apply rpc_fault.
    rewrite length_trace_sent. exact He.
  - intros props data Ho Hp Hd Hs. rewrite Shape.
    erewrite bind_normal; [|now apply interface_obtained].
    erewrite bind_normal;
      [|unfold call; apply rpc_answer; rewrite length_trace_sent; exact Hp].
    unfold lift, bind at 1. rewrite Hd.
    destruct (enum_lookup_converts VoiceCall.VoiceCallState _ Hs) as (state & Hl).
    cbn [ci_bus ci_path ci_name].
    rewrite (VoiceCall_new_returns path data bus _ state Hl).
    set (w2 := sent (MethodCall bus path "org.ofono.VoiceCall" "GetProperties" [])
                    (sent (Introspect bus "org.ofono" path) w)).
    assert (length (trace w2) = S (S (length (trace w)))) as L
      by (unfold w2; now rewrite !length_trace_sent).
    match goal with
    | |- context [spawn (VoiceCall.listenForChanges ?c) w2] =>
        set (call := c);
        destruct (VoiceCall_subscription call w2) as (Ht & Hoff & Hf);
        pose proof (VoiceCall_subscription_missing call w2) as Hmiss
    end.
    change (VoiceCall._bus call) with bus in Ht, Hoff, Hf, Hmiss.
    change (VoiceCall.path call) with path in Ht, Hoff, Hf, Hmiss.
    rewrite L in Hf, Hmiss. cbv zeta in Hmiss.
    exists call. eexists. split; [reflexivity|].
    split; [reflexivity|]. split; [reflexivity|]. split.
    { rewrite Ht. unfold w2. cbn [trace sent]. now rewrite <- !app_assoc. }
    split; [exact Hf|]. split; [exact Hmiss|].
    intros ifaces Hi Hh. apply Hoff. exists ifaces. rewrite L. split; assumption.
Qed.

Lemma C7_witness :
  VoiceCall.fromPath Examples.call_path (Some 0) (Examples.world MoreExamples.silent)
  = (Throw (DBusError "org.freedesktop.DBus.Error.ServiceUnknown"),
     sent (Introspect 0 "org.ofono" Examples.call_path)
          (Examples.world MoreExamples.silent))
  /\ VoiceCall.fromPath Examples.call_path (Some 0)
                        (Examples.world MoreExamples.refusing)
     = (Throw (DBusError "org.ofono.Error.Failed"),
        sent (MethodCall 0 Examples.call_path "org.ofono.VoiceCall" "GetProperties" [])
             (sent (Introspect 0 "org.ofono" Examples.call_path)
                   (Examples.world MoreExamples.refusing)))
  /\ exists call w',
       VoiceCall.fromPath Examples.call_path (Some 0)
                          (Examples.world Examples.call_vanishes)
       = (Normal call, w')
       /\ VoiceCall.path call = Examples.call_path
       /\ listeners w' = []
       /\ unhandled w' = [DBusError "org.freedesktop.DBus.Error.UnknownObject"].
Proof.
  split; [|split].
  - destruct (C7_fromPath_fails_with_the_fetch Examples.call_path 0
                (Examples.world MoreExamples.silent)) as (H & _).
    apply H. reflexivity.
  - destruct (C7_fromPath_fails_with_the_fetch Examples.call_path 0
                (Examples.world MoreExamples.refusing)) as (_ & H & _).
    apply H; [|reflexivity].
    exists Examples.all_interfaces. split; reflexivity.
  - destruct (C7_fromPath_fails_with_the_fetch Examples.call_path 0
                (Examples.world Examples.call_vanishes)) as (_ & _ & H).
    destruct (H Examples.call_properties
                (VoiceCall.mkData (JStr "112") JUndefined (JStr "")
                   (JBool false) (JStr "dialing") JUndefined JUndefined
                   JUndefined (JBool true) (JBool false) (JBool false)))
      as (call & w' & E & P & _ & _ & F & _).
    + exists Examples.all_interfaces. split; reflexivity.
    + reflexivity.
    + reflexivity.
    + reflexivity.
    + exists call, w'. split; [exact E|]. split; [exact P|].
      apply (F (DBusError "org.freedesktop.DBus.Error.UnknownObject")). reflexivity.
Defined.
